(** * crud-controller: attribute resolution, scope composition, actions
      and response shaping

    A shallow embedding of [src/crud_controller.ts] and
    [src/crud_error.ts].  JavaScript objects are association lists in
    property order, asynchronous functions are run in a state-and-error
    monad over the relational store, and the collaborators the
    controller is written against (the context adapter, the zod schema
    of each model, the Kysely query builder) are modelled by the part
    of their behaviour the controller calls. *)

From Stdlib Require Import List String Ascii ZArith Bool Lia DecimalString.
Import ListNotations.
Open Scope string_scope.
Open Scope list_scope.

Set Implicit Arguments.

(** ** JavaScript values *)

#[warnings="-register-all"]
Inductive value : Type :=
| VUndefined
| VNull
| VBool (b : bool)
| VNum (n : Z)
| VStr (s : string)
| VArr (items : list value)
| VObj (fields : list (string * value))
| VPromise (settled : value)   (* a promise that fulfils with [settled] *)
| VRaw (sql : string).         (* a raw SQL fragment, [sql.literal(..)] *)

(** [AnyObject]: own enumerable properties, in property order.  Keys
    are names of columns, parameters and options; none is an array
    index, so property order is insertion order. *)
Definition AnyObject := list (string * value).

Section Properties.
Context {A : Type}.

Fixpoint obj_lookup (o : list (string * A)) (k : string) : option A :=
  match o with
  | [] => None
  | (k', v) :: o' => if String.eqb k' k then Some v else obj_lookup o' k
  end.

(** [k in o] *)
Definition obj_has (o : list (string * A)) (k : string) : bool :=
  match obj_lookup o k with Some _ => true | None => false end.

(** [o[k] = v]: an existing property keeps its place, a new one goes
    last. *)
Fixpoint obj_set (o : list (string * A)) (k : string) (v : A)
    : list (string * A) :=
  match o with
  | [] => [(k, v)]
  | (k', v') :: o' =>
      if String.eqb k' k then (k', v) :: o' else (k', v') :: obj_set o' k v
  end.

(** [delete o[k]] *)
Definition obj_delete (o : list (string * A)) (k : string)
    : list (string * A) :=
  filter (fun kv => negb (String.eqb (fst kv) k)) o.

Definition obj_keys (o : list (string * A)) : list string := map fst o.
End Properties.

(** [o[k]] *)
Definition obj_get (o : AnyObject) (k : string) : value :=
  match obj_lookup o k with Some v => v | None => VUndefined end.

(** [typeof v === "boolean"] *)
Definition is_boolean (v : value) : bool :=
  match v with VBool _ => true | _ => false end.

(** JavaScript truthiness, as used by [if (x)], [!x], [a || b]. *)
Definition truthy (v : value) : bool :=
  match v with
  | VUndefined | VNull => false
  | VBool b => b
  | VNum n => negb (Z.eqb n 0)
  | VStr s => negb (String.eqb s "")
  | _ => true
  end.

(** [await v]: a promise yields what it fulfils with (promises never
    nest), any other value yields itself. *)
Fixpoint await (v : value) : value :=
  match v with
  | VPromise v' => await v'
  | _ => v
  end.

(** Structural equality of values, used by the store for [=]. *)
Fixpoint value_eqb (a b : value) {struct a} : bool :=
  let fix items_eqb (l1 l2 : list value) {struct l1} : bool :=
    match l1, l2 with
    | [], [] => true
    | x :: l1', y :: l2' => value_eqb x y && items_eqb l1' l2'
    | _, _ => false
    end in
  let fix fields_eqb (l1 l2 : list (string * value)) {struct l1} : bool :=
    match l1, l2 with
    | [], [] => true
    | (k1, x) :: l1', (k2, y) :: l2' =>
        String.eqb k1 k2 && value_eqb x y && fields_eqb l1' l2'
    | _, _ => false
    end in
  match a, b with
  | VUndefined, VUndefined => true
  | VNull, VNull => true
  | VBool x, VBool y => Bool.eqb x y
  | VNum x, VNum y => Z.eqb x y
  | VStr x, VStr y => String.eqb x y
  | VArr x, VArr y => items_eqb x y
  | VObj x, VObj y => fields_eqb x y
  | VPromise x, VPromise y => value_eqb x y
  | VRaw x, VRaw y => String.eqb x y
  | _, _ => false
  end.

(** ** Errors: [src/crud_error.ts] *)

Record CrudError : Type := mkCrudError {
  message : string;
  type : string;
  statusCode : Z;
  details : option value;
  isCrudError : bool
}.

(** The constructor: [statusCode] defaults to 500, [isCrudError] is
    always set. *)
Definition newCrudError (message type : string) (statusCode : option Z)
    (details : option value) : CrudError :=
  mkCrudError message type
    (match statusCode with Some s => s | None => 500%Z end) details true.

Definition unauthorized : CrudError :=
  newCrudError "unauthorized" "unauthorized" (Some 401%Z) None.

Definition forbidden : CrudError :=
  newCrudError "forbidden" "forbidden" (Some 403%Z) None.

Definition notFound : CrudError :=
  newCrudError "not found" "not_found" (Some 404%Z) None.

(** One issue of a failed schema parse: the offending path and the
    expected and received type names. *)
Record ZodIssue : Type := mkIssue {
  issue_path : list string;
  issue_expected : string;
  issue_received : string
}.

(** What a call can throw. *)
Inductive exn : Type :=
| ECrud (e : CrudError)             (* an error of this layer *)
| EZod (issues : list ZodIssue)     (* the schema library's [ZodError] *)
| ETypeError (msg : string)         (* the runtime's [TypeError] *)
| EThrown (v : value).              (* anything a caller's hook throws *)

(** [CrudError.isCrudError(error)]:
    ["isCrudError" in error && error.isCrudError]. *)
Definition isCrudError_of (error : exn) : bool :=
  match error with
  | ECrud e => isCrudError e
  | _ => false
  end.

Definition is_not_found (error : exn) : bool :=
  match error with
  | ECrud e => String.eqb (type e) "not_found"
  | _ => false
  end.

Inductive result (A : Type) : Type :=
| Ok (a : A)
| Err (e : exn).
Arguments Ok {A} a.
Arguments Err {A} e.

(** ** The schema library: a zod object schema, as far as the
    controller uses it ([pick] and [parse]) *)

(** Modelled from the spec: the zod library is not part of the
    sources.  A model schema is "a named, fixed set of fields, each
    with a declared type and nullability" and validation is
    "validating a payload against a named subset of declared fields";
    an object schema built with [z.object] drops the keys it does not
    declare. *)
Inductive ZodType : Type :=
| ZodString
| ZodNumber
| ZodBoolean
| ZodAny
| ZodNullable (inner : ZodType)
| ZodOptional (inner : ZodType).

(** The shape of a [z.object({...})]. *)
Definition ZodObject := list (string * ZodType).

(** The name zod gives the runtime type of a value in an issue. *)
Definition getParsedType (v : value) : string :=
  match v with
  | VUndefined => "undefined"
  | VNull => "null"
  | VBool _ => "boolean"
  | VNum _ => "number"
  | VStr _ => "string"
  | VArr _ => "array"
  | VObj _ => "object"
  | VPromise _ => "promise"
  | VRaw _ => "object"
  end.

(** Checking one field: [None] when the value has the declared type,
    [Some expected] when it does not. *)
Fixpoint zod_check (t : ZodType) (v : value) : option string :=
  match t with
  | ZodString => match v with VStr _ => None | _ => Some "string" end
  | ZodNumber => match v with VNum _ => None | _ => Some "number" end
  | ZodBoolean => match v with VBool _ => None | _ => Some "boolean" end
  | ZodAny => None
  | ZodNullable t' => match v with VNull => None | _ => zod_check t' v end
  | ZodOptional t' =>
      match v with VUndefined => None | _ => zod_check t' v end
  end.

(** [schema.pick(mask)]: the keys of [mask] that are set and that the
    schema declares, in the order of [mask]. *)
Definition zod_pick (schema : ZodObject) (mask : list (string * bool))
    : ZodObject :=
  fold_left
    (fun shape entry =>
       match snd entry, obj_lookup schema (fst entry) with
       | true, Some t => obj_set shape (fst entry) t
       | _, _ => shape
       end)
    mask [].

Definition field_issues (data : AnyObject) (field : string * ZodType)
    : list ZodIssue :=
  match zod_check (snd field) (obj_get data (fst field)) with
  | None => []
  | Some expected =>
      [mkIssue [fst field] expected (getParsedType (obj_get data (fst field)))]
  end.

Definition field_output (data : AnyObject) (field : string * ZodType)
    : AnyObject :=
  match obj_lookup data (fst field) with
  | Some v => [(fst field, v)]
  | None => []
  end.

(** [schema.parse(payload)]: the payload must be an object; every
    declared field is checked; the output holds the declared fields the
    payload has, and nothing else.  All issues are reported together. *)
Definition zod_parse (schema : ZodObject) (payload : value)
    : result AnyObject :=
  match payload with
  | VObj data =>
      match flat_map (field_issues data) schema with
      | [] => Ok (flat_map (field_output data) schema)
      | issues => Err (EZod issues)
      end
  | _ => Err (EZod [mkIssue [] "object" (getParsedType payload)])
  end.

(** [CrudDefinition]: one object schema per model.  The model argument
    of every action is a key of the definition, so the lookup is
    total. *)
Definition CrudDefinition := string -> ZodObject.

(** ** The relational store behind the query builder *)

(** A [where(lhs, op, rhs)] clause. *)
Definition WhereClause : Type := string * string * value.
Definition WhereList := list WhereClause.

(** Modelled from the spec: the Kysely query builder and the store
    behind it are not part of the sources.  The engine is one "capable
    of: select-all-with-filters, insert-with-optional-conflict-clause-
    returning-row, update-with-filters-returning-row, delete-with-
    filters-returning-affected-count".  A query under construction is
    the table and the [where] clauses in the order they were added;
    [selectFrom], [updateTable] and [deleteFrom] all start from no
    clause. *)
Record QueryBuilder : Type := mkQuery {
  qb_table : string;
  qb_where : WhereList
}.

Definition from (table : string) : QueryBuilder := mkQuery table [].

(** [query.where(lhs, op, rhs)] *)
Definition where_ (query : QueryBuilder) (lhs op : string) (rhs : value)
    : QueryBuilder :=
  mkQuery (qb_table query) (qb_where query ++ [(lhs, op, rhs)]).

(** The conflict clause an [onConflict] callback builds. *)
Inductive OnConflict : Type :=
| DoNothing (columns : list string)
| DoUpdateSet (columns : list string) (updates : AnyObject).

(** A statement sent to the store. *)
Inductive Statement : Type :=
| Select (query : QueryBuilder)
| Insert (table : string) (values : AnyObject) (conflict : option OnConflict)
| Update (query : QueryBuilder) (updates : AnyObject)
| Delete (query : QueryBuilder).

(** The world an action runs in: the tables, the store's reading of a
    comparison operator (operators are handed to it uninterpreted),
    the statements executed so far, and the runtime's identifier and
    clock sources. *)
Record World : Type := mkWorld {
  w_tables : list (string * list AnyObject);
  w_compare : string -> value -> value -> bool;
  w_trace : list Statement;
  w_uuid : nat -> string;
  w_next : nat;
  w_now : string
}.

(** Asynchronous code: a computation over the world that returns or
    throws. *)
Definition M (A : Type) : Type := World -> result A * World.

Definition ret {A} (a : A) : M A := fun w => (Ok a, w).
Definition throw {A} (e : exn) : M A := fun w => (Err e, w).
Definition lift {A} (r : result A) : M A := fun w => (r, w).

Definition bind {A B} (m : M A) (k : A -> M B) : M B :=
  fun w =>
    match m w with
    | (Ok a, w') => k a w'
    | (Err e, w') => (Err e, w')
    end.

Notation "x <- m ;; k" := (bind m (fun x => k))
  (at level 61, m at next level, right associativity).

Fixpoint foldM {A B} (f : A -> B -> M A) (l : list B) (a : A) : M A :=
  match l with
  | [] => ret a
  | b :: l' => a' <- f a b ;; foldM f l' a'
  end.

Fixpoint mapR {A B} (f : A -> result B) (l : list A) : result (list B) :=
  match l with
  | [] => Ok []
  | a :: l' =>
      match f a with
      | Err e => Err e
      | Ok b =>
          match mapR f l' with
          | Err e => Err e
          | Ok bs => Ok (b :: bs)
          end
      end
  end.

(** *** Executing statements *)

Definition table_rows (w : World) (table : string) : list AnyObject :=
  match obj_lookup (w_tables w) table with
  | Some rows => rows
  | None => []
  end.

(** A row satisfies a query when it satisfies every clause. *)
Definition matches (w : World) (query : QueryBuilder) (row : AnyObject)
    : bool :=
  forallb
    (fun clause : WhereClause =>
       let '(lhs, op, rhs) := clause in w_compare w op (obj_get row lhs) rhs)
    (qb_where query).

Definition executed (s : Statement) (rows : list AnyObject) (table : string)
    (w : World) : World :=
  mkWorld (obj_set (w_tables w) table rows) (w_compare w)
    (w_trace w ++ [s]) (w_uuid w) (w_next w) (w_now w).

Definition logged (s : Statement) (w : World) : World :=
  mkWorld (w_tables w) (w_compare w) (w_trace w ++ [s]) (w_uuid w)
    (w_next w) (w_now w).

(** [row] after [set(updates)]. *)
Definition assign (row updates : AnyObject) : AnyObject :=
  fold_left (fun r kv => obj_set r (fst kv) (snd kv)) updates row.

(** [selectFrom(t).selectAll()....execute()] *)
Definition execute (query : QueryBuilder) : M (list AnyObject) :=
  fun w =>
    (Ok (filter (matches w query) (table_rows w (qb_table query))),
     logged (Select query) w).

(** [....executeTakeFirst()] of a select: the first row, or nothing. *)
Definition executeTakeFirst (query : QueryBuilder) : M (option AnyObject) :=
  rows <- execute query ;; ret (hd_error rows).

(** [insertInto(t).values(v).onConflict(..).returningAll()
    .executeTakeFirst()].  The store holds no uniqueness constraint, so
    an insert never conflicts: the clause is part of the statement and
    never fires. *)
Definition executeInsert (table : string) (values : AnyObject)
    (conflict : option OnConflict) : M (option AnyObject) :=
  fun w =>
    (Ok (Some values),
     executed (Insert table values conflict)
       (table_rows w table ++ [values]) table w).

(** [updateTable(t).where(..).set(u).returningAll().executeTakeFirst()]:
    every matching row is updated, the first updated row is returned. *)
Definition executeUpdate (query : QueryBuilder) (updates : AnyObject)
    : M (option AnyObject) :=
  fun w =>
    let rows := table_rows w (qb_table query) in
    (Ok (hd_error
           (map (fun r => assign r updates) (filter (matches w query) rows))),
     executed (Update query updates)
       (map (fun r => if matches w query r then assign r updates else r) rows)
       (qb_table query) w).

(** [deleteFrom(t).where(..).executeTakeFirst()]: the result carries
    [numDeletedRows]. *)
Definition executeDelete (query : QueryBuilder) : M nat :=
  fun w =>
    let rows := table_rows w (qb_table query) in
    (Ok (List.length (filter (matches w query) rows)),
     executed (Delete query)
       (filter (fun r => negb (matches w query r)) rows)
       (qb_table query) w).

(** [crypto.randomUUID()] *)
Definition randomUUID : M string :=
  fun w =>
    (Ok (w_uuid w (w_next w)),
     mkWorld (w_tables w) (w_compare w) (w_trace w) (w_uuid w)
       (S (w_next w)) (w_now w)).

(** [new Date().toISOString()] *)
Definition toISOString : M string := fun w => (Ok (w_now w), w).

(** ** The context adapter *)

(** [ContextAdapter<Models, C>].  [useDatabase(c)] is the handle on the
    store of the [World] the action runs in; [set] returns the context
    with the key bound. *)
Record ContextAdapter (C : Type) : Type := mkAdapter {
  adapter_get : C -> string -> value;
  adapter_set : C -> string -> value -> C;
  adapter_getRequestParams : C -> AnyObject;
  adapter_getRequestBody : C -> value;
  adapter_response : C -> value -> Z -> value
}.

(** ** Options *)

Section Options.
Variable C : Type.

Definition AttributeFn := C -> result value.
Definition RenderFn := AnyObject -> result AnyObject.

(** The source of one attribute.  [PUnset] is a key of a [Partial]
    picker whose value is [undefined]. *)
Inductive PickerType : Type :=
| PNull
| PDefault
| PUuid
| PGet
| PArg
| PPayload
| PParam
| PInsertedAt
| PUpdatedAt
| PFn (fn : AttributeFn)
| PUnset.

(** [AttributesPicker]: the declared fields, in property order. *)
Definition AttributesPicker := list (string * PickerType).

Inductive WhereOptions : Type :=
| WhereStatic (list_ : WhereList)
| WhereFn (fn : C -> result WhereList).

Record CrudControllerLoadOptions : Type := mkLoadOptions {
  load_scopes : option (list string);
  load_where : option WhereOptions;
  load_query : option (C -> QueryBuilder -> result QueryBuilder);
  load_as : option string
}.

(** The default [{}]. *)
Definition noLoadOptions : CrudControllerLoadOptions :=
  mkLoadOptions None None None None.

Record CrudControllerCreateOptions : Type := mkCreateOptions {
  create_attributes : AttributesPicker;
  create_onConflict : option OnConflict
}.

Record CrudControllerUpdateOptions : Type := mkUpdateOptions {
  update_where : option WhereOptions;
  update_attributes : AttributesPicker
}.

Record CrudControllerDestroyOptions : Type := mkDestroyOptions {
  destroy_where : option WhereOptions;
  destroy_as : option string
}.

(** Destroy options passed where load options are expected: the same
    object, which has no [scopes] and no [query]. *)
Definition destroyAsLoad (o : CrudControllerDestroyOptions)
    : CrudControllerLoadOptions :=
  mkLoadOptions None (destroy_where o) None (destroy_as o).

Record ResponseOptions : Type := mkResponseOptions {
  resp_omit : option (list string);
  resp_pick : option (list string);
  resp_render : option RenderFn;
  resp_statusCode : option Z
}.
End Options.

Arguments PNull {C}.
Arguments PDefault {C}.
Arguments PUuid {C}.
Arguments PGet {C}.
Arguments PArg {C}.
Arguments PPayload {C}.
Arguments PParam {C}.
Arguments PInsertedAt {C}.
Arguments PUpdatedAt {C}.
Arguments PUnset {C}.
Arguments PFn {C} fn.
Arguments WhereStatic {C} list_.
Arguments WhereFn {C} fn.
Arguments noLoadOptions {C}.

(** ** [createAttributesPickerFunction] *)

Section AttributesPicker.
Variable C : Type.
Variable models : CrudDefinition.
Variable model : string.
Variable adapter : ContextAdapter C.
Variable picker : AttributesPicker C.

(** The first loop: the keys declared ["payload"] are marked in
    [schemaKeys]. *)
Definition schemaKeys : list (string * bool) :=
  fold_left
    (fun keys (entry : string * PickerType C) =>
       match snd entry with
       | PPayload => obj_set keys (fst entry) true
       | _ => keys
       end)
    picker [].

Definition schema : ZodObject := zod_pick (models model) schemaKeys.

(** [typeof v === "object"] *)
Definition typeof_object (v : value) : bool :=
  match v with
  | VNull | VArr _ | VObj _ | VPromise _ | VRaw _ => true
  | _ => false
  end.

(** ["then" in v], for a [v] whose [typeof] is ["object"]: [null] has no
    properties to search. *)
Definition then_in (v : value) : result bool :=
  match v with
  | VNull =>
      Err (ETypeError "Cannot use 'in' operator to search for 'then' in null")
  | VPromise _ => Ok true
  | VObj o => Ok (obj_has o "then")
  | _ => Ok false
  end.

(** The value of a custom resolver: awaited when it is a thenable. *)
Definition settle (fnValue : value) : result value :=
  if typeof_object fnValue then
    match then_in fnValue with
    | Err e => Err e
    | Ok true => Ok (await fnValue)
    | Ok false => Ok fnValue
    end
  else Ok fnValue.

(** The [switch] of the second loop: what one declared field assigns.
    [args] is the extra-arguments bag, [None] when the caller passes
    none, and indexing [undefined] throws.  The route parameters are an
    object, on which [?.] is plain indexing. *)
Definition assignSource (c : C) (args : option AnyObject)
    (attributes : AnyObject) (key : string) (pickerType : PickerType C)
    : M AnyObject :=
  match pickerType with
  | PGet => ret (obj_set attributes key (adapter_get adapter c key))
  | PArg =>
      match args with
      | Some bag => ret (obj_set attributes key (obj_get bag key))
      | None =>
          throw (ETypeError "Cannot read properties of undefined")
      end
  | PParam =>
      ret (obj_set attributes key
             (obj_get (adapter_getRequestParams adapter c) key))
  | PUuid => id <- randomUUID ;; ret (obj_set attributes key (VStr id))
  | PInsertedAt => now <- toISOString ;; ret (obj_set attributes key (VStr now))
  | PUpdatedAt => now <- toISOString ;; ret (obj_set attributes key (VStr now))
  | PNull => ret (obj_set attributes key VNull)
  | PDefault => ret (obj_set attributes key (VRaw "DEFAULT"))
  | PFn fn =>
      fnValue <- lift (fn c) ;;
      v <- lift (settle fnValue) ;;
      ret (obj_set attributes key v)
  | PPayload | PUnset => ret attributes
  end.

(** The coercion that ends each round of the loop. *)
Definition coerceBoolean (attributes : AnyObject) (key : string)
    : AnyObject :=
  match obj_get attributes key with
  | VBool b => obj_set attributes key (VStr (if b then "1" else "0"))
  | _ => attributes
  end.

(** One round of the second loop. *)
Definition resolveField (c : C) (args : option AnyObject)
    (attributes : AnyObject) (entry : string * PickerType C) : M AnyObject :=
  attributes' <- assignSource c args attributes (fst entry) (snd entry) ;;
  ret (coerceBoolean attributes' (fst entry)).

(** [createAttributesPickerFunction(models, model, adapter, picker)]:
    the function it returns, applied to [c], [payload] and [args]. *)
Definition createAttributesPickerFunction (c : C) (payload : value)
    (args : option AnyObject) : M AnyObject :=
  attributes <- lift (zod_parse schema payload) ;;
  foldM (resolveField c args) picker attributes.

End AttributesPicker.

(** ** Shaping helpers *)

(** [pick(obj, ...props)]: every named property is assigned, present in
    [obj] or not. *)
Definition pick (obj : AnyObject) (props : list string) : AnyObject :=
  fold_left (fun result prop => obj_set result prop (obj_get obj prop))
    props [].

(** [omit(obj, ...props)]: a copy of [obj] with the named properties
    deleted. *)
Definition omit (obj : AnyObject) (props : list string) : AnyObject :=
  fold_left (fun result prop => obj_delete result prop) props obj.

(** [s.slice(0, -1)] *)
Fixpoint slice_0_m1 (s : string) : string :=
  match s with
  | EmptyString => EmptyString
  | String a EmptyString => EmptyString
  | String a s' => String a (slice_0_m1 s')
  end.

(** [singularize(model, loadOptions)]: [if (loadOptions.as)] tests the
    option for truthiness. *)
Definition singularize {C} (model : string)
    (loadOptions : CrudControllerLoadOptions C) : string :=
  match load_as loadOptions with
  | Some name => if truthy (VStr name) then name else slice_0_m1 model
  | None => slice_0_m1 model
  end.

(** ** [class CrudController] *)

(** What [index] resolves to. *)
Record Collection : Type := mkCollection {
  data : list AnyObject;
  metadata : value
}.

Section CrudController.
Variable C : Type.
(** [this.models] and [this.adapter] *)
Variable models : CrudDefinition.
Variable adapter : ContextAdapter C.

Definition getScopes (c : C) (loadOptions : CrudControllerLoadOptions C)
    : list (string * value) :=
  let scopes := adapter_getRequestParams adapter c in
  match load_scopes loadOptions with
  | Some names =>
      filter (fun entry => existsb (String.eqb (fst entry)) names) scopes
  | None => scopes
  end.

(** The loop [for (const [paramKey, paramValue] of this.getScopes(..))
    query = query.where(paramKey, "=", paramValue)], which every action
    but [create] runs. *)
Definition whereScopes (scopes : list (string * value))
    (query : QueryBuilder) : QueryBuilder :=
  fold_left (fun q entry => where_ q (fst entry) "=" (snd entry))
    scopes query.

Definition applyWhere (c : C) (where' : WhereOptions C)
    (query : QueryBuilder) : result QueryBuilder :=
  match
    match where' with
    | WhereFn fn => fn c
    | WhereStatic list_ => Ok list_
    end
  with
  | Err e => Err e
  | Ok list_ =>
      Ok (fold_left
            (fun q (clause : WhereClause) =>
               let '(lhs, op, rhs) := clause in where_ q lhs op rhs)
            list_ query)
  end.

(** [if (options.where) query = this.applyWhere(c, options.where, query)] *)
Definition whereOption (c : C) (where' : option (WhereOptions C))
    (query : QueryBuilder) : result QueryBuilder :=
  match where' with
  | Some w => applyWhere c w query
  | None => Ok query
  end.

Definition index (model : string)
    (indexOptions : CrudControllerLoadOptions C) (c : C) : M Collection :=
  let query := from model in
  let query := whereScopes (getScopes c indexOptions) query in
  query <- lift (whereOption c (load_where indexOptions) query) ;;
  query <- lift (match load_query indexOptions with
                 | Some hook => hook c query
                 | None => Ok query
                 end) ;;
  data <- execute query ;;
  ret (mkCollection data (VObj [("total_count", VNum 0)])).

Definition create (model : string)
    (createOptions : CrudControllerCreateOptions C)
    (c : C) (args : option AnyObject) : M value :=
  let attributesPicker :=
    createAttributesPickerFunction models model adapter
      (create_attributes createOptions) in
  let payload := adapter_getRequestBody adapter c in
  attributes <- attributesPicker c payload args ;;
  data <- executeInsert model attributes (create_onConflict createOptions) ;;
  ret (match data with Some row => VObj row | None => VUndefined end).

Definition load (c : C) (model : string)
    (loadOptions : CrudControllerLoadOptions C) : M AnyObject :=
  let query := from model in
  let query := whereScopes (getScopes c loadOptions) query in
  query <- lift (whereOption c (load_where loadOptions) query) ;;
  data <- executeTakeFirst query ;;
  match data with
  | None => throw (ECrud notFound)
  | Some row => ret row
  end.

Definition loader (model : string)
    (loadOptions : CrudControllerLoadOptions C)
    (c : C) (next : C -> M value) : M unit :=
  data <- load c model loadOptions ;;
  _ <- next (adapter_set adapter c (singularize model loadOptions)
               (VObj data)) ;;
  ret tt.

Definition show (model : string)
    (showOptions : CrudControllerLoadOptions C) (c : C) : M value :=
  match adapter_get adapter c (singularize model showOptions) with
  | VUndefined => row <- load c model showOptions ;; ret (VObj row)
  | data => ret data
  end.

Definition update (model : string)
    (updateOptions : CrudControllerUpdateOptions C)
    (c : C) (args : option AnyObject) : M value :=
  let attributesPicker :=
    createAttributesPickerFunction models model adapter
      (update_attributes updateOptions) in
  let query := from model in
  let query := whereScopes (getScopes c noLoadOptions) query in
  query <- lift (whereOption c (update_where updateOptions) query) ;;
  let payload := adapter_getRequestBody adapter c in
  updatedAttributes <- attributesPicker c payload args ;;
  data <- executeUpdate query updatedAttributes ;;
  match data with
  | None => throw (ECrud notFound)
  | Some row => ret (VObj row)
  end.

Definition destroy (model : string)
    (destroyOptions : CrudControllerDestroyOptions C) (c : C) : M value :=
  _ <- match adapter_get adapter c
               (singularize model (destroyAsLoad destroyOptions)) with
       | VUndefined =>
           row <- load c model (destroyAsLoad destroyOptions) ;;
           ret (VObj row)
       | record => ret record
       end ;;
  let query := from model in
  let query := whereScopes (getScopes c noLoadOptions) query in
  query <- lift (whereOption c (destroy_where destroyOptions) query) ;;
  numDeletedRows <- executeDelete query ;;
  match numDeletedRows with
  | O => throw (ECrud notFound)
  | S _ => ret (VObj [])
  end.

(** The body of the [map] callback and of [response]: omit, then pick,
    then render. *)
Definition shape (options : ResponseOptions) (row : AnyObject)
    : result AnyObject :=
  let result := row in
  let result :=
    match resp_omit options with
    | Some props => omit result props
    | None => result
    end in
  let result :=
    match resp_pick options with
    | Some props => pick result props
    | None => result
    end in
  match resp_render options with
  | Some render => render result
  | None => Ok result
  end.

(** [options?.statusCode ?? 200] *)
Definition statusOf (options : ResponseOptions) : Z :=
  match resp_statusCode options with
  | Some code => code
  | None => 200%Z
  end.

(** [Promise.all(resultData.map(..))] keeps the results at the index of
    their row, and rejects when a [render] does; of several rejections
    the one reported here is the first in row order. *)
Definition collectionResponse (dataFn : C -> M Collection)
    (options : ResponseOptions) (c : C) : M value :=
  collection <- dataFn c ;;
  data <- lift (mapR (shape options) (data collection)) ;;
  ret (adapter_response adapter c
         (VObj [("data", VArr (map VObj data));
                ("metadata", metadata collection)])
         (statusOf options)).

Definition response (dataFn : C -> M AnyObject)
    (options : ResponseOptions) (c : C) : M value :=
  data <- dataFn c ;;
  data <- lift (shape options data) ;;
  ret (adapter_response adapter c (VObj [("data", VObj data)])
         (statusOf options)).

End CrudController.

(** *** The [execute*] methods: an action built and applied at once *)

Module CrudController.
Section Execute.
Variable C : Type.
Variable models : CrudDefinition.
Variable adapter : ContextAdapter C.

Definition executeIndex (c : C) (model : string)
    (indexOptions : CrudControllerLoadOptions C) : M Collection :=
  index adapter model indexOptions c.

(** [this.create(model, createOptions)(c)]: the action is applied to
    the context alone, so its [args] is [undefined]. *)
Definition executeCreate (c : C) (model : string)
    (createOptions : CrudControllerCreateOptions C) : M value :=
  create models adapter model createOptions c None.

Definition executeShow (c : C) (model : string)
    (showOptions : CrudControllerLoadOptions C) : M value :=
  show adapter model showOptions c.

Definition executeUpdate (c : C) (model : string)
    (updateOptions : CrudControllerUpdateOptions C) : M value :=
  update models adapter model updateOptions c None.

Definition executeDestroy (c : C) (model : string)
    (destroyOptions : CrudControllerDestroyOptions C) : M value :=
  destroy adapter model destroyOptions c.

End Execute.
End CrudController.

(** ** The example application: a Hono adapter and its two models *)

Module HonoApp.

(** The parts of a Hono context the adapter reads: the request-scoped
    variables, the path parameters, the [jsonData] a middleware may
    have left on the request, and the JSON body that [c.req.json()]
    reads asynchronously. *)
Record Context : Type := mkContext {
  vars : AnyObject;
  req_param : AnyObject;
  req_jsonData : value;
  req_json : value
}.

Definition adapter : ContextAdapter Context :=
  mkAdapter
    (fun c key => obj_get (vars c) key)
    (fun c key v =>
       mkContext (obj_set (vars c) key v) (req_param c) (req_jsonData c)
         (req_json c))
    (fun c => req_param c)
    (fun c =>
       if truthy (req_jsonData c) then req_jsonData c
       else VPromise (req_json c))
    (fun c body statusCode =>
       VObj [("status", VNum statusCode); ("json", body)]).

Definition databaseSchema : CrudDefinition :=
  fun model =>
    if String.eqb model "users" then
      [("user_id", ZodString); ("name", ZodNullable ZodString)]
    else if String.eqb model "things" then
      [("thing_id", ZodString); ("user_id", ZodString); ("name", ZodString)]
    else [].

(** A store that knows equality and nothing else. *)
Definition compare (op : string) (lhs rhs : value) : bool :=
  String.eqb op "=" && value_eqb lhs rhs.

Definition uuid (n : nat) : string :=
  String.append "uuid-" (NilZero.string_of_uint (Nat.to_uint n)).

Definition world (tables : list (string * list AnyObject)) : World :=
  mkWorld tables compare [] uuid 0 "2023-01-01T00:00:00.000Z".

Definition request (params : AnyObject) (jsonData : value) : Context :=
  mkContext [] params jsonData VUndefined.

(** [POST /users] *)
Definition usersCreate : CrudControllerCreateOptions Context :=
  mkCreateOptions [("user_id", PUuid); ("name", PPayload)] None.

(** [PUT /users/:user_id] *)
Definition usersUpdate : CrudControllerUpdateOptions Context :=
  mkUpdateOptions None [("name", PPayload)].

(** [POST /users/:user_id/things] *)
Definition thingsCreate : CrudControllerCreateOptions Context :=
  mkCreateOptions
    [("thing_id", PUuid); ("user_id", PParam); ("name", PPayload)] None.

Definition ann : AnyObject := [("name", VStr "Ann"); ("extra", VStr "ignored")].

End HonoApp.

(** ** Further models and requests used to exercise the statements *)

Module Fixtures.
Import HonoApp.

(** A model with a boolean column. *)
Definition flagsSchema : CrudDefinition :=
  fun _ => [("active", ZodBoolean); ("label", ZodString)].

Definition flagsPicker : AttributesPicker Context :=
  [("active", PPayload);
   ("admin", PFn (fun _ => Ok (VPromise (VBool false))));
   ("owner", PGet)].

Definition flagsBody : value :=
  VObj [("active", VBool true); ("admin", VBool true)].

Definition flagsRequest : Context :=
  mkContext [("owner", VBool true)] [] flagsBody VUndefined.

(** A create whose [owner] comes from the extra arguments. *)
Definition ownedCreate : CrudControllerCreateOptions Context :=
  mkCreateOptions [("name", PPayload); ("owner", PArg)] None.

Definition ownedUpdate : CrudControllerUpdateOptions Context :=
  mkUpdateOptions None [("name", PPayload); ("owner", PArg)].

(** [PUT /users/u1] with [{name: "Ann"}] and with [{name: 42}]. *)
Definition putAnn : Context :=
  request [("user_id", VStr "u1")] (VObj [("name", VStr "Ann")]).

Definition putNumber : Context :=
  request [("user_id", VStr "u1")] (VObj [("name", VNum 42)]).

Definition noDestroyOptions : CrudControllerDestroyOptions Context :=
  mkDestroyOptions None None.

Definition noOptions : CrudControllerLoadOptions Context := noLoadOptions.

Definition u1 : AnyObject := [("user_id", VStr "u1"); ("name", VStr "Ann")].

(** A request on which a loader has left the record under ["user"]. *)
Definition loadedUser : Context :=
  mkContext [("user", VObj u1)] [("user_id", VStr "u1")] VUndefined
    VUndefined.

(** [as: ""], and a request with a value stored under that key. *)
Definition asEmpty : CrudControllerLoadOptions Context :=
  mkLoadOptions None None None (Some "").

Definition storedUnderEmpty : Context :=
  mkContext [("", VObj u1)] [] VUndefined VUndefined.

(** [GET /users/u1/things/t1] listing with [scopes: ["user_id"]]. *)
Definition nested : Context :=
  request [("user_id", VStr "u1"); ("thing_id", VStr "t1")] VUndefined.

Definition scopedToUser : CrudControllerLoadOptions Context :=
  mkLoadOptions (Some ["user_id"]) None None None.

(** A listing whose [where] is computed from the request and whose
    [query] hook throws the filters away. *)
Definition unfiltered : CrudControllerLoadOptions Context :=
  mkLoadOptions None
    (Some (WhereFn (fun _ => Ok [("name", "=", VStr "a")])))
    (Some (fun _ query => Ok (mkQuery (qb_table query) [])))
    None.

Definition things : list AnyObject :=
  [[("thing_id", VStr "t1"); ("user_id", VStr "u1"); ("name", VStr "a")];
   [("thing_id", VStr "t2"); ("user_id", VStr "u2"); ("name", VStr "b")]].

(** An update restricted to active rows, and a store whose only user is
    not active. *)
Definition activeOnly : CrudControllerUpdateOptions Context :=
  mkUpdateOptions (Some (WhereStatic [("active", "=", VBool true)]))
    [("name", PPayload)].

Definition inactiveUsers : list (string * list AnyObject) :=
  [("users",
    [[("user_id", VStr "u1"); ("name", VStr "Bob"); ("active", VBool false)]])].

(** The collection and the options of the shaping example. *)
Definition twoRows : list AnyObject :=
  [[("id", VNum 1); ("name", VStr "a")];
   [("id", VNum 2); ("name", VStr "b")]].

Definition omitName : ResponseOptions :=
  mkResponseOptions (Some ["name"]) None None None.

Definition listed : Context -> M Collection :=
  fun _ => ret (mkCollection twoRows (VObj [("total_count", VNum 0)])).

(** [POST /users] with a JSON body and nothing left in [jsonData]: the
    adapter hands out [c.req.json()]. *)
Definition postAnn : Context :=
  mkContext [] [] VUndefined (VObj [("name", VStr "Ann")]).

End Fixtures.

(** ** Requests and stores for the further properties *)

Module Cases.
Import HonoApp.

Definition thingsWorld : World := world [("things", Fixtures.things)].

(** [PUT /users/u1/things/t1] with [{name: "hat"}]. *)
Definition putThing : Context :=
  request [("user_id", VStr "u1"); ("thing_id", VStr "t1")]
    (VObj [("name", VStr "hat")]).

Definition thingsUpdate : CrudControllerUpdateOptions Context :=
  mkUpdateOptions None [("name", PPayload)].

(** [scopes: []]. *)
Definition unscoped : CrudControllerLoadOptions Context :=
  mkLoadOptions (Some []) None None None.

(** A [where] on the name, no hook. *)
Definition namedA : CrudControllerLoadOptions Context :=
  mkLoadOptions (Some ["user_id"])
    (Some (WhereStatic [("name", "=", VStr "a")])) None None.

(** A listing whose [where] function throws. *)
Definition failingWhere : CrudControllerLoadOptions Context :=
  mkLoadOptions None (Some (WhereFn (fun _ => Err (EThrown (VStr "boom")))))
    None None.

(** A picker with every kind of source. *)
Definition everySource : AttributesPicker Context :=
  [("id", PUuid); ("token", PUuid); ("owner", PGet); ("user_id", PParam);
   ("rank", PArg); ("name", PPayload); ("created", PInsertedAt);
   ("note", PNull); ("state", PDefault);
   ("ready", PFn (fun _ => Ok (VPromise (VBool true))))].

Definition everyRequest : Context :=
  mkContext [("owner", VStr "o1")] [("user_id", VStr "u1")]
    (VObj [("name", VStr "hat"); ("rank", VNum 9)]) VUndefined.

Definition everySchema : CrudDefinition :=
  fun _ => [("name", ZodString)].

(** A picker that declares ["payload"] a field the model does not
    have. *)
Definition strayPicker : AttributesPicker Context :=
  [("name", PPayload); ("admin", PPayload)].

Definition strayBody : value :=
  VObj [("name", VStr "Ann"); ("admin", VBool true)].

(** A custom resolver that returns [null], and one that returns a
    promise of [null]. *)
Definition nullNow : AttributesPicker Context :=
  [("name", PFn (fun _ => Ok VNull))].

Definition nullLater : AttributesPicker Context :=
  [("name", PFn (fun _ => Ok (VPromise VNull)))].

(** A render that throws, and an action that throws. *)
Definition failingRender : ResponseOptions :=
  mkResponseOptions None None
    (Some (fun _ => Err (EThrown (VStr "render")))) None.

Definition failingAction : Context -> M AnyObject :=
  fun _ => throw (ECrud forbidden).

Definition shownUser : Context -> M AnyObject :=
  fun _ => ret Fixtures.u1.

(** [pick: ["id", "email"]]: one name the rows have, one they lack. *)
Definition pickIdEmail : ResponseOptions :=
  mkResponseOptions None (Some ["id"; "email"]) None None.

Definition omitAndPick : ResponseOptions :=
  mkResponseOptions (Some ["name"]) (Some ["name"; "user_id"]) None None.

End Cases.

(** ** Vocabulary of the statements *)

(** The parts of the world that resolution cannot change: everything
    but the identifier counter. *)
Definition same_store (w w' : World) : Prop :=
  w_tables w' = w_tables w /\ w_compare w' = w_compare w /\
  w_trace w' = w_trace w /\ w_uuid w' = w_uuid w /\ w_now w' = w_now w.

(** The coercion that ends a round, on one value. *)
Definition coerce (v : value) : value :=
  match v with
  | VBool b => VStr (if b then "1" else "0")
  | _ => v
  end.

(** [Resolves adapter c args parsed w key t raw]: a field declared with
    source [t] resolves, before coercion, to [raw]; [None] is a field
    that stays unset.  [parsed] is the validated payload. *)
Inductive Resolves {C : Type} (adapter : ContextAdapter C) (c : C)
    (args : option AnyObject) (parsed : AnyObject) (w : World)
    (key : string) : PickerType C -> option value -> Prop :=
| R_payload : Resolves adapter c args parsed w key PPayload
                (obj_lookup parsed key)
| R_unset : Resolves adapter c args parsed w key PUnset
              (obj_lookup parsed key)
| R_get : Resolves adapter c args parsed w key PGet
            (Some (adapter_get adapter c key))
| R_arg bag :
    args = Some bag ->
    Resolves adapter c args parsed w key PArg (Some (obj_get bag key))
| R_param : Resolves adapter c args parsed w key PParam
              (Some (obj_get (adapter_getRequestParams adapter c) key))
| R_uuid n : Resolves adapter c args parsed w key PUuid
               (Some (VStr (w_uuid w n)))
| R_inserted_at : Resolves adapter c args parsed w key PInsertedAt
                    (Some (VStr (w_now w)))
| R_updated_at : Resolves adapter c args parsed w key PUpdatedAt
                   (Some (VStr (w_now w)))
| R_null : Resolves adapter c args parsed w key PNull (Some VNull)
| R_default : Resolves adapter c args parsed w key PDefault
                (Some (VRaw "DEFAULT"))
| R_fn fn fnValue v :
    fn c = Ok fnValue -> settle fnValue = Ok v ->
    Resolves adapter c args parsed w key (PFn fn) (Some v).

(** The equality clause a scope becomes. *)
Definition scopeClause (entry : string * value) : WhereClause :=
  (fst entry, "=", snd entry).

(** The list of clauses a [where] option stands for in a request. *)
Definition whereListOf {C : Type} (c : C) (where' : option (WhereOptions C))
    : result WhereList :=
  match where' with
  | None => Ok []
  | Some (WhereStatic list_) => Ok list_
  | Some (WhereFn fn) => fn c
  end.

(** The query an action has composed once the scopes and the clauses
    of its [where] option are applied to the bare table. *)
Definition scopedQuery (model : string) (scopes : list (string * value))
    (clauses : WhereList) : QueryBuilder :=
  mkQuery model (map scopeClause scopes ++ clauses).

(** The rows of the store a query matches. *)
Definition matching (w : World) (query : QueryBuilder) : list AnyObject :=
  filter (matches w query) (table_rows w (qb_table query)).

(** C2 as the specification words it: a payload that fails validation
    makes [create] raise an error of this layer. *)
Definition validation_failure_is_a_crud_error : Prop :=
  forall (C : Type) (models : CrudDefinition) (adapter : ContextAdapter C)
         (model : string) (createOptions : CrudControllerCreateOptions C)
         (c : C) (args : option AnyObject) (w : World) issues,
    zod_parse (schema models model (create_attributes createOptions))
      (adapter_getRequestBody adapter c) = Err (EZod issues) ->
    exists e,
      fst (create models adapter model createOptions c args w) = Err e /\
      isCrudError_of e = true.

(** C5 as the specification words it: a record cached under the
    explicit [as] option, whenever one is given, is what [show]
    returns. *)
Definition explicit_as_names_the_cache_key : Prop :=
  forall (C : Type) (adapter : ContextAdapter C) (model : string)
         (showOptions : CrudControllerLoadOptions C) (c : C) (w : World)
         name cached,
    load_as showOptions = Some name ->
    adapter_get adapter c name = cached ->
    cached <> VUndefined ->
    show adapter model showOptions c w = (Ok cached, w).

(** The number of fields declared ["uuid"]. *)
Definition count_uuid {C : Type} (picker : AttributesPicker C) : nat :=
  List.length
    (filter (fun entry : string * PickerType C =>
               match snd entry with PUuid => true | _ => false end)
       picker).

(** [typeof v] is a promise. *)
Definition is_promise (v : value) : bool :=
  match v with VPromise _ => true | _ => false end.

(** Membership of a name in a list of names, as [includes] decides
    it. *)
Definition named (k : string) (names : list string) : bool :=
  existsb (String.eqb k) names.

(** * Properties *)

Unset Implicit Arguments.

(** ** Objects *)

Section ObjectFacts.
Context {A : Type}.
Implicit Types (o : list (string * A)) (k : string) (v : A).

Lemma obj_lookup_set_same o k v : obj_lookup (obj_set o k v) k = Some v.
Proof.
  induction o as [|[k' v'] o IH]; simpl.
  - now rewrite String.eqb_refl.
  - destruct (String.eqb k' k) eqn:E; simpl; rewrite E; auto.
Qed.

Lemma obj_lookup_set_other o k k' v :
  k <> k' -> obj_lookup (obj_set o k v) k' = obj_lookup o k'.
Proof.
  intros Hne. induction o as [|[k0 v0] o IH]; simpl.
  - destruct (String.eqb k k') eqn:E; auto.
    apply String.eqb_eq in E. contradiction.
  - destruct (String.eqb k0 k) eqn:E; simpl.
    + apply String.eqb_eq in E. subst k0.
      destruct (String.eqb k k') eqn:E'; auto.
      apply String.eqb_eq in E'. contradiction.
    + now rewrite IH.
Qed.

Lemma obj_keys_set o k v x :
  In x (obj_keys (obj_set o k v)) -> x = k \/ In x (obj_keys o).
Proof.
  unfold obj_keys. induction o as [|[k' v'] o IH]; simpl.
  - intros [H|[]]; auto.
  - destruct (String.eqb k' k); simpl; intros [H|H]; auto.
    destruct (IH H); auto.
Qed.

Lemma obj_keys_set_NoDup o k v :
  NoDup (obj_keys o) -> NoDup (obj_keys (obj_set o k v)).
Proof.
  unfold obj_keys. induction o as [|[k' v'] o IH]; simpl; intros H.
  - constructor; [intros []|constructor].
  - inversion H as [|? ? Hnin Hnd]; subst.
    destruct (String.eqb k' k) eqn:E; simpl.
    + constructor; assumption.
    + constructor; auto. intros Hin.
      destruct (obj_keys_set o k v k' Hin) as [->|Hin']; auto.
      rewrite String.eqb_refl in E. discriminate.
Qed.

Lemma obj_lookup_In o k v : obj_lookup o k = Some v -> In (k, v) o.
Proof.
  induction o as [|[k' v'] o IH]; simpl; [discriminate|].
  destruct (String.eqb k' k) eqn:E; intros H.
  - apply String.eqb_eq in E. inversion H. subst. now left.
  - right. auto.
Qed.

Lemma obj_lookup_keys o k v : obj_lookup o k = Some v -> In k (obj_keys o).
Proof.
  intros H. apply obj_lookup_In in H.
  unfold obj_keys. change k with (fst (k, v)). now apply in_map.
Qed.

Lemma In_obj_lookup o k v :
  NoDup (obj_keys o) -> In (k, v) o -> obj_lookup o k = Some v.
Proof.
  unfold obj_keys. induction o as [|[k' v'] o IH]; simpl; intros Hnd [].
  - inversion H. subst. now rewrite String.eqb_refl.
  - inversion Hnd as [|? ? Hnin Hnd']; subst.
    destruct (String.eqb k' k) eqn:E; auto.
    apply String.eqb_eq in E. subst k'. exfalso. apply Hnin.
    change k with (fst (k, v)). now apply in_map.
Qed.

Lemma obj_keys_lookup o k :
  In k (obj_keys o) -> exists v, obj_lookup o k = Some v.
Proof.
  unfold obj_keys. induction o as [|[k' v'] o IH]; simpl; intros [].
  - subst. rewrite String.eqb_refl. eauto.
  - destruct (String.eqb k' k); eauto.
Qed.

End ObjectFacts.

Lemma obj_get_set_same (o : AnyObject) k v : obj_get (obj_set o k v) k = v.
Proof. unfold obj_get. now rewrite obj_lookup_set_same. Qed.

Lemma obj_get_set_other (o : AnyObject) k k' v :
  k <> k' -> obj_get (obj_set o k v) k' = obj_get o k'.
Proof. intros H. unfold obj_get. now rewrite obj_lookup_set_other. Qed.

(** ** The picked schema *)

Section SchemaFacts.
Variable C : Type.
Implicit Types (picker : AttributesPicker C) (schema : ZodObject).

Lemma schemaKeys_from picker acc k :
  In k (obj_keys
          (fold_left
             (fun keys (entry : string * PickerType C) =>
                match snd entry with
                | PPayload => obj_set keys (fst entry) true
                | _ => keys
                end) picker acc)) ->
  In k (obj_keys acc) \/ In (k, PPayload) picker.
Proof.
  revert acc. induction picker as [|[k' t] picker IH]; simpl; intros acc H.
  - now left.
  - destruct (IH _ H) as [Hacc|Hin]; [|now right; right].
    destruct t; auto. simpl in Hacc.
    destruct (obj_keys_set _ _ _ _ Hacc) as [->|]; auto.
Qed.

Lemma schemaKeys_payload picker k :
  In k (obj_keys (schemaKeys picker)) -> In (k, PPayload) picker.
Proof.
  intros H. destruct (schemaKeys_from picker [] k H) as [[]|]; auto.
Qed.

Lemma schemaKeys_marks picker acc k :
  In (k, PPayload) picker \/ obj_lookup acc k = Some true ->
  (forall k' b, obj_lookup acc k' = Some b -> b = true) ->
  obj_lookup
    (fold_left
       (fun keys (entry : string * PickerType C) =>
          match snd entry with
          | PPayload => obj_set keys (fst entry) true
          | _ => keys
          end) picker acc) k = Some true.
Proof.
  revert acc. induction picker as [|[k' t] picker IH]; simpl; intros acc H Hb.
  - destruct H as [[]|]; auto.
  - assert (Hstep : forall k0 b,
               obj_lookup (obj_set acc k' true) k0 = Some b -> b = true).
    { intros k0 b. destruct (String.eqb k' k0) eqn:E.
      - apply String.eqb_eq in E. subst.
        rewrite obj_lookup_set_same. congruence.
      - apply String.eqb_neq in E. rewrite obj_lookup_set_other by auto.
        apply Hb. }
    destruct H as [[Heq|Hin]|Hacc].
    + inversion Heq. subst. simpl. apply IH; auto.
      right. apply obj_lookup_set_same.
    + destruct t; apply IH; auto.
    + destruct t; simpl; try (apply IH; now auto).
      apply IH; auto. right.
      destruct (String.eqb k' k) eqn:E.
      * apply String.eqb_eq in E. subst. apply obj_lookup_set_same.
      * apply String.eqb_neq in E. now rewrite obj_lookup_set_other.
Qed.

Lemma zod_pick_from schema mask acc k :
  In k (obj_keys
          (fold_left
             (fun shape (entry : string * bool) =>
                match snd entry, obj_lookup schema (fst entry) with
                | true, Some t => obj_set shape (fst entry) t
                | _, _ => shape
                end) mask acc)) ->
  In k (obj_keys acc) \/ In k (obj_keys mask).
Proof.
  revert acc. induction mask as [|[k' b] mask IH]; simpl; intros acc H.
  - now left.
  - destruct (IH _ H) as [Hacc|Hin]; [|now right; right].
    destruct b; auto. destruct (obj_lookup schema k'); auto.
    destruct (obj_keys_set _ _ _ _ Hacc) as [->|]; auto.
Qed.

Lemma zod_pick_keys schema mask k :
  In k (obj_keys (zod_pick schema mask)) -> In k (obj_keys mask).
Proof.
  intros H. destruct (zod_pick_from schema mask [] k H) as [[]|]; auto.
Qed.

Lemma zod_pick_NoDup_from schema mask acc :
  NoDup (obj_keys acc) ->
  NoDup (obj_keys
           (fold_left
              (fun shape (entry : string * bool) =>
                 match snd entry, obj_lookup schema (fst entry) with
                 | true, Some t => obj_set shape (fst entry) t
                 | _, _ => shape
                 end) mask acc)).
Proof.
  revert acc. induction mask as [|[k' b] mask IH]; simpl; intros acc H; auto.
  apply IH. destruct b; auto. destruct (obj_lookup schema k'); auto.
  now apply obj_keys_set_NoDup.
Qed.

Lemma zod_pick_NoDup schema mask : NoDup (obj_keys (zod_pick schema mask)).
Proof. apply zod_pick_NoDup_from. constructor. Qed.

Lemma zod_pick_has_from schema mask acc k t :
  obj_lookup schema k = Some t ->
  obj_lookup mask k = Some true \/ obj_lookup acc k = Some t ->
  obj_lookup
    (fold_left
       (fun shape (entry : string * bool) =>
          match snd entry, obj_lookup schema (fst entry) with
          | true, Some t => obj_set shape (fst entry) t
          | _, _ => shape
          end) mask acc) k = Some t.
Proof.
  intros Hs. revert acc.
  induction mask as [|[k' b] mask IH]; simpl; intros acc H.
  - destruct H; [discriminate|auto].
  - destruct (String.eqb k' k) eqn:E.
    + apply String.eqb_eq in E. subst k'.
      destruct H as [H|H].
      * inversion H. subst b. rewrite Hs. apply IH. right.
        apply obj_lookup_set_same.
      * apply IH. right. destruct b; auto. rewrite Hs.
        apply obj_lookup_set_same.
    + apply String.eqb_neq in E. apply IH.
      destruct H as [H|H]; [now left|right].
      destruct b; auto. destruct (obj_lookup schema k'); auto.
      now rewrite obj_lookup_set_other.
Qed.

End SchemaFacts.

(** ** Parsing *)

Lemma flat_map_agree {A B} (f g : A -> list B) (l : list A) :
  (forall a, In a l -> f a = g a) -> flat_map f l = flat_map g l.
Proof.
  induction l as [|a l IH]; simpl; intros H; auto.
  rewrite (H a) by now left. rewrite IH; auto.
Qed.

Lemma field_output_keys data (s : ZodObject) k :
  In k (obj_keys (flat_map (field_output data) s)) -> In k (obj_keys s).
Proof.
  unfold obj_keys. induction s as [|[k' t] s IH]; simpl; auto.
  rewrite map_app, in_app_iff. intros [H|H]; auto.
  unfold field_output in H. simpl in H.
  destruct (obj_lookup data k'); simpl in H; [|contradiction].
  destruct H as [H|[]]. now left.
Qed.

Lemma field_output_NoDup data (s : ZodObject) :
  NoDup (obj_keys s) -> NoDup (obj_keys (flat_map (field_output data) s)).
Proof.
  induction s as [|[k t] s IH]; simpl; intros H; [constructor|].
  unfold obj_keys in H. simpl in H.
  inversion H as [|? ? Hnin Hnd]; subst.
  unfold field_output at 1. simpl.
  destruct (obj_lookup data k); simpl; auto.
  unfold obj_keys. simpl. constructor; [|now apply IH].
  intros Hin. apply Hnin. now apply (field_output_keys data).
Qed.

Lemma zod_parse_keys (s : ZodObject) payload attributes k :
  zod_parse s payload = Ok attributes ->
  In k (obj_keys attributes) -> In k (obj_keys s).
Proof.
  unfold zod_parse. destruct payload; try discriminate.
  destruct (flat_map (field_issues fields) s); [|discriminate].
  intros H. inversion H. subst. apply field_output_keys.
Qed.

Lemma zod_parse_NoDup (s : ZodObject) payload attributes :
  NoDup (obj_keys s) ->
  zod_parse s payload = Ok attributes -> NoDup (obj_keys attributes).
Proof.
  unfold zod_parse. intros Hnd. destruct payload; try discriminate.
  destruct (flat_map (field_issues fields) s); [|discriminate].
  intros H. inversion H. subst. now apply field_output_NoDup.
Qed.

(** The parse reads the payload at the fields of the schema only. *)
Lemma zod_parse_agree (s : ZodObject) data1 data2 :
  (forall k, In k (obj_keys s) -> obj_lookup data1 k = obj_lookup data2 k) ->
  zod_parse s (VObj data1) = zod_parse s (VObj data2).
Proof.
  intros H. unfold zod_parse.
  assert (Hi : flat_map (field_issues data1) s
               = flat_map (field_issues data2) s).
  { apply flat_map_agree. intros [k t] Hin.
    unfold field_issues, obj_get. simpl.
    rewrite (H k); auto.
    unfold obj_keys. change k with (fst (k, t)). now apply in_map. }
  assert (Ho : flat_map (field_output data1) s
               = flat_map (field_output data2) s).
  { apply flat_map_agree. intros [k t] Hin.
    unfold field_output. simpl.
    rewrite (H k); auto.
    unfold obj_keys. change k with (fst (k, t)). now apply in_map. }
  now rewrite Hi, Ho.
Qed.

(** A declared field of the wrong type makes the parse fail, and the
    failure names the field. *)
Lemma zod_parse_issue (s : ZodObject) data k t expected :
  In (k, t) s ->
  zod_check t (obj_get data k) = Some expected ->
  exists issues,
    zod_parse s (VObj data) = Err (EZod issues) /\
    In (mkIssue [k] expected (getParsedType (obj_get data k))) issues.
Proof.
  intros Hin Hc.
  assert (Hi : In (mkIssue [k] expected (getParsedType (obj_get data k)))
                  (flat_map (field_issues data) s)).
  { apply in_flat_map. exists (k, t). split; auto.
    unfold field_issues. simpl. rewrite Hc. now left. }
  unfold zod_parse.
  destruct (flat_map (field_issues data) s) as [|i l] eqn:E.
  - contradiction.
  - exists (i :: l). auto.
Qed.

Lemma zod_parse_error (s : ZodObject) payload e :
  zod_parse s payload = Err e -> exists issues, e = EZod issues.
Proof.
  unfold zod_parse.
  destruct payload; try (intros H; inversion H; eauto).
  destruct (flat_map (field_issues fields) s); inversion H1; eauto.
Qed.

(** ** Attribute resolution *)

Section ResolverFacts.
Variable C : Type.
Variable models : CrudDefinition.
Variable model : string.
Variable adapter : ContextAdapter C.
Implicit Types (picker : AttributesPicker C) (c : C).

Lemma same_store_refl w : same_store w w.
Proof. repeat split. Qed.

Lemma same_store_trans w1 w2 w3 :
  same_store w1 w2 -> same_store w2 w3 -> same_store w1 w3.
Proof.
  unfold same_store. intros (a & b & c & d & e) (a' & b' & c' & d' & e').
  repeat split; congruence.
Qed.

(** What one round of the loop does to the record: at most one
    assignment to its key, then the coercion of that key. *)
Lemma resolveField_step c args attributes key t w r w' :
  resolveField adapter c args attributes (key, t) w = (Ok r, w') ->
  same_store w w' /\
  exists assigned,
    (assigned = attributes \/ exists v, assigned = obj_set attributes key v) /\
    r = coerceBoolean assigned key.
Proof.
  unfold resolveField, assignSource, bind, ret, throw, lift, randomUUID,
    toISOString. simpl.
  destruct t; simpl;
    try (intros H; inversion H; subst; split;
         [first [apply same_store_refl | repeat split]
         | eexists; split; [|reflexivity]; eauto]; fail).
  - destruct args; simpl; intros H; inversion H; subst.
    split; [apply same_store_refl|]. eexists; split; [|reflexivity]; eauto.
  - destruct (fn c) as [fnValue|e]; simpl; [|discriminate].
    destruct (settle fnValue) as [v|e]; simpl; [|discriminate].
    intros H; inversion H; subst.
    split; [apply same_store_refl|]. eexists; split; [|reflexivity]; eauto.
Qed.

Lemma resolveField_store c args attributes entry w r w' :
  resolveField adapter c args attributes entry w = (r, w') -> same_store w w'.
Proof.
  destruct entry as [key t].
  unfold resolveField, assignSource, bind, ret, throw, lift, randomUUID,
    toISOString. simpl.
  destruct t; simpl;
    try (intros H; inversion H; subst;
         first [apply same_store_refl | repeat split]; fail).
  - destruct args; simpl; intros H; inversion H; subst;
      apply same_store_refl.
  - destruct (fn c) as [fnValue|e]; simpl.
    + destruct (settle fnValue) as [v|e]; simpl;
        intros H; inversion H; subst; apply same_store_refl.
    + intros H; inversion H; subst; apply same_store_refl.
Qed.

Lemma foldM_resolve_store c args picker attributes w r w' :
  foldM (resolveField adapter c args) picker attributes w = (r, w') ->
  same_store w w'.
Proof.
  revert attributes w.
  induction picker as [|entry picker IH]; simpl; intros attributes w.
  - unfold ret. intros H; inversion H; subst. apply same_store_refl.
  - unfold bind.
    destruct (resolveField adapter c args attributes entry w)
      as [[a|e] w1] eqn:E; intros H.
    + apply resolveField_store in E. apply IH in H.
      eapply same_store_trans; eauto.
    + inversion H; subst. now apply resolveField_store in E.
Qed.

(** The picker function, unfolded once. *)
Lemma attributesPicker_eq picker c payload args w :
  createAttributesPickerFunction models model adapter picker c payload args w =
  match zod_parse (schema models model picker) payload with
  | Ok attributes => foldM (resolveField adapter c args) picker attributes w
  | Err e => (Err e, w)
  end.
Proof.
  unfold createAttributesPickerFunction, bind, lift.
  destruct (zod_parse (schema models model picker) payload); reflexivity.
Qed.

Lemma attributesPicker_store picker c payload args w r w' :
  createAttributesPickerFunction models model adapter picker
    c payload args w = (r, w') ->
  same_store w w'.
Proof.
  rewrite attributesPicker_eq.
  destruct (zod_parse (schema models model picker) payload).
  - apply foldM_resolve_store.
  - intros H; inversion H; subst. apply same_store_refl.
Qed.

Lemma schema_keys_payload picker k :
  In k (obj_keys (schema models model picker)) -> In (k, PPayload) picker.
Proof.
  intros H. apply schemaKeys_payload.
  now apply (zod_pick_keys (models model)).
Qed.

Lemma schema_has_payload picker k t :
  In (k, PPayload) picker ->
  obj_lookup (models model) k = Some t ->
  In (k, t) (schema models model picker).
Proof.
  intros Hin Hl. apply obj_lookup_In.
  unfold schema, zod_pick. apply zod_pick_has_from; auto.
  left. unfold schemaKeys. apply schemaKeys_marks; auto.
  intros k' b H. discriminate.
Qed.

End ResolverFacts.

Section ResolvedRecord.
Variable C : Type.
Variable models : CrudDefinition.
Variable model : string.
Variable adapter : ContextAdapter C.
Implicit Types (picker : AttributesPicker C) (c : C).

Lemma coerceBoolean_keys (attributes : AnyObject) key k :
  In k (obj_keys (coerceBoolean attributes key)) ->
  k = key \/ In k (obj_keys attributes).
Proof.
  unfold coerceBoolean.
  destruct (obj_get attributes key); auto. apply obj_keys_set.
Qed.

Lemma coerceBoolean_NoDup (attributes : AnyObject) key :
  NoDup (obj_keys attributes) ->
  NoDup (obj_keys (coerceBoolean attributes key)).
Proof.
  unfold coerceBoolean.
  destruct (obj_get attributes key); auto. apply obj_keys_set_NoDup.
Qed.

Lemma coerceBoolean_same (attributes : AnyObject) key :
  is_boolean (obj_get (coerceBoolean attributes key) key) = false.
Proof.
  unfold coerceBoolean.
  destruct (obj_get attributes key) eqn:E; try (now rewrite E).
  now rewrite obj_get_set_same.
Qed.

Lemma coerceBoolean_other (attributes : AnyObject) key k :
  key <> k ->
  obj_get (coerceBoolean attributes key) k = obj_get attributes k.
Proof.
  intros H. unfold coerceBoolean.
  destruct (obj_get attributes key); auto. now apply obj_get_set_other.
Qed.

(** Resolution adds no key but those of the picker. *)
Lemma foldM_resolve_keys c args picker attributes w r w' :
  foldM (resolveField adapter c args) picker attributes w = (Ok r, w') ->
  forall k, In k (obj_keys r) ->
            In k (obj_keys attributes) \/ In k (obj_keys picker).
Proof.
  revert attributes w.
  induction picker as [|[key t] picker IH]; simpl; intros attributes w.
  - unfold ret. intros H; inversion H; subst. auto.
  - unfold bind.
    destruct (resolveField adapter c args attributes (key, t) w)
      as [[a|e] w1] eqn:E; [|discriminate].
    intros H k Hk.
    apply resolveField_step in E.
    destruct E as (_ & assigned & Hassigned & ->).
    destruct (IH _ _ H k Hk) as [Hin|Hin]; [|now right; right].
    apply coerceBoolean_keys in Hin. destruct Hin as [->|Hin].
    + right. now left.
    + destruct Hassigned as [->|[v ->]]; [now left|].
      apply obj_keys_set in Hin. destruct Hin as [->|Hin]; simpl; auto.
Qed.

Lemma foldM_resolve_NoDup c args picker attributes w r w' :
  NoDup (obj_keys attributes) ->
  foldM (resolveField adapter c args) picker attributes w = (Ok r, w') ->
  NoDup (obj_keys r).
Proof.
  revert attributes w.
  induction picker as [|[key t] picker IH]; simpl; intros attributes w Hnd.
  - unfold ret. intros H; inversion H; subst. auto.
  - unfold bind.
    destruct (resolveField adapter c args attributes (key, t) w)
      as [[a|e] w1] eqn:E; [|discriminate].
    apply resolveField_step in E.
    destruct E as (_ & assigned & Hassigned & ->).
    apply IH. apply coerceBoolean_NoDup.
    destruct Hassigned as [->|[v ->]]; auto.
    now apply obj_keys_set_NoDup.
Qed.

(** Every boolean still in the record sits under a key whose round is
    yet to come. *)
Lemma foldM_resolve_booleans c args picker attributes w r w' :
  (forall k, is_boolean (obj_get attributes k) = true ->
             In k (obj_keys picker)) ->
  foldM (resolveField adapter c args) picker attributes w = (Ok r, w') ->
  forall k, is_boolean (obj_get r k) = false.
Proof.
  revert attributes w.
  induction picker as [|[key t] picker IH]; simpl; intros attributes w Hinv.
  - unfold ret. intros H k; inversion H; subst.
    destruct (is_boolean (obj_get r k)) eqn:E; auto.
    destruct (Hinv k E).
  - unfold bind.
    destruct (resolveField adapter c args attributes (key, t) w)
      as [[a|e] w1] eqn:E; [|discriminate].
    apply resolveField_step in E.
    destruct E as (_ & assigned & Hassigned & ->).
    apply IH. intros k Hk.
    destruct (String.eqb key k) eqn:Ek.
    + apply String.eqb_eq in Ek. subst k.
      rewrite coerceBoolean_same in Hk. discriminate.
    + apply String.eqb_neq in Ek.
      rewrite coerceBoolean_other in Hk by auto.
      assert (Hk' : is_boolean (obj_get attributes k) = true).
      { destruct Hassigned as [->|[v ->]]; auto.
        now rewrite obj_get_set_other in Hk by auto. }
      destruct (Hinv k Hk') as [Heq|Hin]; auto.
      simpl in Heq. contradiction.
Qed.

Lemma attributesPicker_keys picker c payload args w attributes w' :
  createAttributesPickerFunction models model adapter picker c payload args w
    = (Ok attributes, w') ->
  forall k, In k (obj_keys attributes) -> In k (obj_keys picker).
Proof.
  rewrite attributesPicker_eq.
  destruct (zod_parse (schema models model picker) payload) as [parsed|e]
    eqn:Ep; [|discriminate].
  intros H k Hk.
  destruct (foldM_resolve_keys _ _ _ _ _ _ _ H k Hk) as [Hin|Hin]; auto.
  apply (zod_parse_keys _ _ _ k Ep) in Hin.
  apply schema_keys_payload in Hin.
  unfold obj_keys. change k with (fst (k, @PPayload C)). now apply in_map.
Qed.

Lemma attributesPicker_NoDup picker c payload args w attributes w' :
  createAttributesPickerFunction models model adapter picker c payload args w
    = (Ok attributes, w') ->
  NoDup (obj_keys attributes).
Proof.
  rewrite attributesPicker_eq.
  destruct (zod_parse (schema models model picker) payload) as [parsed|e]
    eqn:Ep; [|discriminate].
  apply foldM_resolve_NoDup.
  apply (zod_parse_NoDup (schema models model picker) payload); auto.
  apply zod_pick_NoDup.
Qed.

Lemma attributesPicker_agree picker c args w data1 data2 :
  (forall k, In (k, PPayload) picker ->
             obj_lookup data1 k = obj_lookup data2 k) ->
  createAttributesPickerFunction models model adapter picker
    c (VObj data1) args w =
  createAttributesPickerFunction models model adapter picker
    c (VObj data2) args w.
Proof.
  intros H. rewrite !attributesPicker_eq.
  rewrite (zod_parse_agree (schema models model picker) data1 data2); auto.
  intros k Hk. apply H. now apply schema_keys_payload in Hk.
Qed.

End ResolvedRecord.

(** ** What each declared field resolves to *)

Section ResolvedFields.
Variable C : Type.
Variable adapter : ContextAdapter C.
Implicit Types (picker : AttributesPicker C) (c : C).

Lemma coerceBoolean_lookup_same (attributes : AnyObject) key :
  obj_lookup (coerceBoolean attributes key) key
  = option_map coerce (obj_lookup attributes key).
Proof.
  unfold coerceBoolean, obj_get.
  destruct (obj_lookup attributes key) as [v|] eqn:E.
  - destruct v; simpl; rewrite ?E; auto. apply obj_lookup_set_same.
  - now rewrite E.
Qed.

Lemma coerceBoolean_lookup_other (attributes : AnyObject) key k :
  key <> k ->
  obj_lookup (coerceBoolean attributes key) k = obj_lookup attributes k.
Proof.
  intros H. unfold coerceBoolean.
  destruct (obj_get attributes key); auto. now apply obj_lookup_set_other.
Qed.

(** One round leaves the other keys alone. *)
Lemma resolveField_other c args attributes key t w r w' k :
  key <> k ->
  resolveField adapter c args attributes (key, t) w = (Ok r, w') ->
  obj_lookup r k = obj_lookup attributes k.
Proof.
  intros Hne H. apply resolveField_step in H.
  destruct H as (_ & assigned & Hassigned & ->).
  rewrite coerceBoolean_lookup_other by auto.
  destruct Hassigned as [->|[v ->]]; auto.
  now apply obj_lookup_set_other.
Qed.

Lemma foldM_resolve_other c args picker attributes w r w' k :
  ~ In k (obj_keys picker) ->
  foldM (resolveField adapter c args) picker attributes w = (Ok r, w') ->
  obj_lookup r k = obj_lookup attributes k.
Proof.
  revert attributes w.
  induction picker as [|[key t] picker IH]; simpl; intros attributes w Hnin.
  - unfold ret. intros H; inversion H; subst. auto.
  - unfold bind.
    destruct (resolveField adapter c args attributes (key, t) w)
      as [[a|e] w1] eqn:E; [|discriminate].
    intros H. rewrite (IH _ _ (fun Hin => Hnin (or_intror Hin)) H).
    eapply resolveField_other; eauto.
Qed.

(** One round gives its key the coerced value of its source. *)
Lemma resolveField_value c args attributes key t w r w' :
  resolveField adapter c args attributes (key, t) w = (Ok r, w') ->
  exists raw,
    Resolves adapter c args attributes w key t raw /\
    obj_lookup r key = option_map coerce raw.
Proof.
  unfold resolveField, assignSource, bind, ret, throw, lift, randomUUID,
    toISOString. simpl.
  destruct t; simpl;
    try (intros H; inversion H; subst;
         eexists; split; [econstructor|];
         rewrite coerceBoolean_lookup_same;
         rewrite ?obj_lookup_set_same; reflexivity).
  - destruct args as [bag|]; simpl; intros H; inversion H; subst.
    eexists; split; [econstructor; reflexivity|].
    now rewrite coerceBoolean_lookup_same, obj_lookup_set_same.
  - destruct (fn c) as [fnValue|e] eqn:Ef; simpl; [|discriminate].
    destruct (settle fnValue) as [v|e] eqn:Es; simpl; [|discriminate].
    intros H; inversion H; subst.
    eexists; split; [econstructor; eauto|].
    now rewrite coerceBoolean_lookup_same, obj_lookup_set_same.
Qed.

Lemma Resolves_transport c args a a' w w' key t raw :
  obj_lookup a' key = obj_lookup a key ->
  same_store w w' ->
  Resolves adapter c args a' w' key t raw ->
  Resolves adapter c args a w key t raw.
Proof.
  intros Hl (_ & _ & _ & Hu & Hn) H.
  inversion H; subst; rewrite ?Hl, ?Hu, ?Hn; econstructor; eauto.
Qed.

Lemma foldM_resolve_field c args picker attributes w r w' k t :
  NoDup (obj_keys picker) ->
  In (k, t) picker ->
  foldM (resolveField adapter c args) picker attributes w = (Ok r, w') ->
  exists raw,
    Resolves adapter c args attributes w k t raw /\
    obj_lookup r k = option_map coerce raw.
Proof.
  revert attributes w.
  induction picker as [|[key t0] picker IH]; simpl;
    intros attributes w Hnd Hin; [contradiction|].
  inversion Hnd as [|? ? Hnin Hnd']; subst.
  unfold bind.
  destruct (resolveField adapter c args attributes (key, t0) w)
    as [[a|e] w1] eqn:E; [|discriminate].
  intros H. destruct Hin as [Heq|Hin].
  - inversion Heq; subst.
    destruct (resolveField_value _ _ _ _ _ _ _ _ E) as (raw & Hr & Hv).
    exists raw. split; auto.
    now rewrite (foldM_resolve_other _ _ _ _ _ _ _ _ Hnin H).
  - assert (Hne : key <> k).
    { intros ->. apply Hnin. unfold obj_keys.
      change k with (fst (k, t)). now apply in_map. }
    destruct (IH _ _ Hnd' Hin H) as (raw & Hr & Hv).
    exists raw. split; auto.
    apply (Resolves_transport c args attributes a w w1 k t raw); auto.
    + exact (resolveField_other _ _ _ _ _ _ _ _ _ Hne E).
    + exact (resolveField_store _ _ _ _ _ _ _ _ _ E).
Qed.

End ResolvedFields.

Lemma Resolves_boolean {C : Type} (adapter : ContextAdapter C) c args parsed
    w key t raw b :
  Resolves adapter c args parsed w key t (Some (VBool b)) ->
  Resolves adapter c args parsed w key t raw ->
  raw = Some (VBool b).
Proof.
  intros H1 H2. inversion H1; subst; inversion H2; subst; try congruence.
Qed.

(** ** Mass-assignment protection *)

(** C1.  Whatever the attribute specification and the raw payload, the
    resolved record has no field but those the specification names,
    and it is the same for two payloads that agree on the fields
    declared ["payload"]: no other key of the raw payload is ever
    copied, present or not. *)
Theorem mass_assignment_protection :
  forall (C : Type) (models : CrudDefinition) (model : string)
         (adapter : ContextAdapter C) (picker : AttributesPicker C)
         (c : C) (args : option AnyObject) (w : World),
    (forall payload attributes w',
        createAttributesPickerFunction models model adapter picker
          c payload args w
          = (Ok attributes, w') ->
        forall k, In k (obj_keys attributes) -> In k (obj_keys picker)) /\
    (forall data1 data2,
        (forall k, In (k, PPayload) picker ->
                   obj_lookup data1 k = obj_lookup data2 k) ->
        createAttributesPickerFunction models model adapter picker
          c (VObj data1) args w =
        createAttributesPickerFunction models model adapter picker
          c (VObj data2) args w).
Proof.
  intros. split.
  - intros payload attributes w' H. eapply attributesPicker_keys; eauto.
  - apply attributesPicker_agree.
Qed.

(** The end-to-end example of the specification: [extra] is dropped. *)
Lemma mass_assignment_protection_witness :
  (forall k, In k ["name"; "user_id"] ->
             In k (obj_keys (create_attributes HonoApp.usersCreate))) /\
  createAttributesPickerFunction HonoApp.databaseSchema "users" HonoApp.adapter
    (create_attributes HonoApp.usersCreate)
    (HonoApp.request [] VUndefined) (VObj HonoApp.ann) None
    (HonoApp.world []) =
  createAttributesPickerFunction HonoApp.databaseSchema "users" HonoApp.adapter
    (create_attributes HonoApp.usersCreate)
    (HonoApp.request [] VUndefined) (VObj [("name", VStr "Ann")]) None
    (HonoApp.world []).
Proof.
  destruct (mass_assignment_protection HonoApp.Context HonoApp.databaseSchema
              "users" HonoApp.adapter
              (create_attributes HonoApp.usersCreate)
              (HonoApp.request [] VUndefined) None (HonoApp.world []))
    as [Hkeys Hagree].
  split.
  - apply (Hkeys (VObj HonoApp.ann)
             [("name", VStr "Ann"); ("user_id", VStr "uuid-0")]
             (snd (createAttributesPickerFunction HonoApp.databaseSchema "users"
                     HonoApp.adapter (create_attributes HonoApp.usersCreate)
                     (HonoApp.request [] VUndefined) (VObj HonoApp.ann) None
                     (HonoApp.world [])))).
    reflexivity.
  - apply Hagree. intros k [H|[H|[]]]; inversion H. reflexivity.
Defined.

(** ** Boolean coercion *)

(** C8.  In a record produced by attribute resolution no field holds a
    native boolean, whatever its source; and a declared field whose
    source yields the boolean [b] holds ["1"] when [b] is true and
    ["0"] when it is false. *)
Theorem booleans_are_coerced :
  forall (C : Type) (models : CrudDefinition) (model : string)
         (adapter : ContextAdapter C) (picker : AttributesPicker C)
         (c : C) (payload : value) (args : option AnyObject) (w : World)
         (attributes : AnyObject) (w' : World),
    createAttributesPickerFunction models model adapter picker c payload args w
      = (Ok attributes, w') ->
    (forall k v, In (k, v) attributes -> is_boolean v = false) /\
    (forall parsed k t b,
        NoDup (obj_keys picker) ->
        In (k, t) picker ->
        zod_parse (schema models model picker) payload = Ok parsed ->
        Resolves adapter c args parsed w k t (Some (VBool b)) ->
        obj_lookup attributes k = Some (VStr (if b then "1" else "0"))).
Proof.
  intros C models model adapter picker c payload args w attributes w' H.
  split.
  - intros k v Hin.
    pose proof (attributesPicker_NoDup _ _ _ _ _ _ _ _ _ _ _ H) as Hnd.
    apply In_obj_lookup in Hin; auto.
    rewrite attributesPicker_eq in H.
    destruct (zod_parse (schema models model picker) payload) as [parsed|e]
      eqn:Ep; [|discriminate].
    assert (Hk : is_boolean (obj_get attributes k) = false).
    { apply (foldM_resolve_booleans C adapter c args picker parsed w
               attributes w'); auto.
      intros k0 Hb.
      assert (Hin0 : In k0 (obj_keys parsed)).
      { unfold obj_get in Hb.
        destruct (obj_lookup parsed k0) eqn:El; [|discriminate].
        eapply obj_lookup_keys; eauto. }
      apply (zod_parse_keys _ _ _ k0 Ep) in Hin0.
      apply schema_keys_payload in Hin0.
      unfold obj_keys. change k0 with (fst (k0, @PPayload C)).
      now apply in_map. }
    unfold obj_get in Hk. now rewrite Hin in Hk.
  - intros parsed k t b Hnd Hin Ep Hr.
    rewrite attributesPicker_eq, Ep in H.
    destruct (foldM_resolve_field C adapter c args picker parsed w
                attributes w' k t Hnd Hin H) as (raw & Hraw & Hv).
    rewrite (Resolves_boolean _ _ _ _ _ _ _ _ _ Hr Hraw) in Hv.
    exact Hv.
Qed.

Lemma booleans_are_coerced_witness :
  createAttributesPickerFunction Fixtures.flagsSchema "flags" HonoApp.adapter
    Fixtures.flagsPicker Fixtures.flagsRequest Fixtures.flagsBody None
    (HonoApp.world [])
  = (Ok [("active", VStr "1"); ("admin", VStr "0"); ("owner", VStr "1")],
     HonoApp.world []) /\
  (forall k v,
      In (k, v) [("active", VStr "1"); ("admin", VStr "0");
                 ("owner", VStr "1")] ->
      is_boolean v = false) /\
  obj_lookup [("active", VStr "1"); ("admin", VStr "0"); ("owner", VStr "1")]
    "active" = Some (VStr "1").
Proof.
  assert (Hrun :
    createAttributesPickerFunction Fixtures.flagsSchema "flags" HonoApp.adapter
      Fixtures.flagsPicker Fixtures.flagsRequest Fixtures.flagsBody None
      (HonoApp.world [])
    = (Ok [("active", VStr "1"); ("admin", VStr "0"); ("owner", VStr "1")],
       HonoApp.world [])) by reflexivity.
  split; [exact Hrun|].
  destruct (booleans_are_coerced HonoApp.Context Fixtures.flagsSchema "flags"
              HonoApp.adapter Fixtures.flagsPicker Fixtures.flagsRequest
              Fixtures.flagsBody None (HonoApp.world [])
              [("active", VStr "1"); ("admin", VStr "0"); ("owner", VStr "1")]
              (HonoApp.world []) Hrun) as [Hnone Hcoerced].
  split.
  - exact Hnone.
  - apply (Hcoerced [("active", VBool true)] "active" PPayload true).
    + repeat constructor; simpl; intuition discriminate.
    + now left.
    + reflexivity.
    + exact (R_payload HonoApp.adapter Fixtures.flagsRequest None
               [("active", VBool true)] (HonoApp.world []) "active").
Defined.

(** ** Composing the query *)

Lemma whereScopes_eq scopes query :
  whereScopes scopes query
  = mkQuery (qb_table query) (qb_where query ++ map scopeClause scopes).
Proof.
  unfold whereScopes. revert query.
  induction scopes as [|entry scopes IH]; intros query; simpl.
  - rewrite app_nil_r. now destruct query.
  - rewrite IH. unfold where_, scopeClause. simpl.
    now rewrite <- app_assoc.
Qed.

Lemma where_clauses_eq (clauses : WhereList) query :
  fold_left
    (fun q (clause : WhereClause) =>
       let '(lhs, op, rhs) := clause in where_ q lhs op rhs)
    clauses query
  = mkQuery (qb_table query) (qb_where query ++ clauses).
Proof.
  revert query. induction clauses as [|[[lhs op] rhs] clauses IH];
    intros query; simpl.
  - rewrite app_nil_r. now destruct query.
  - rewrite IH. unfold where_. simpl. now rewrite <- app_assoc.
Qed.

Lemma whereOption_eq {C : Type} (c : C) where' query :
  whereOption c where' query =
  match whereListOf c where' with
  | Ok clauses => Ok (mkQuery (qb_table query) (qb_where query ++ clauses))
  | Err e => Err e
  end.
Proof.
  destruct where' as [[clauses|fn]|]; unfold whereOption, applyWhere; simpl.
  - now rewrite where_clauses_eq.
  - destruct (fn c); auto. now rewrite where_clauses_eq.
  - rewrite app_nil_r. now destruct query.
Qed.

(** Scopes first, then the clauses of [where], on the bare table. *)
Lemma composed_query {C : Type} (c : C) where' model scopes clauses :
  whereListOf c where' = Ok clauses ->
  whereOption c where' (whereScopes scopes (from model))
  = Ok (scopedQuery model scopes clauses).
Proof.
  intros H. rewrite whereOption_eq, H, whereScopes_eq. reflexivity.
Qed.

Lemma matching_same_store w w' query :
  same_store w w' -> matching w' query = matching w query.
Proof.
  intros (Ht & Hc & _). unfold matching, matches, table_rows.
  now rewrite Ht, Hc.
Qed.

(** ** Errors of attribute resolution *)

Section ResolverErrors.
Variable C : Type.
Variable adapter : ContextAdapter C.
Implicit Types (picker : AttributesPicker C) (c : C).

Lemma settle_error fnValue e :
  settle fnValue = Err e -> exists msg, e = ETypeError msg.
Proof.
  unfold settle. destruct fnValue; simpl; try discriminate.
  - intros H; inversion H; eauto.
  - destruct (obj_has fields "then"); discriminate.
Qed.

(** A round fails with a [TypeError] of the runtime or with what its
    custom resolver threw. *)
Lemma resolveField_error c args attributes key t w e w' :
  resolveField adapter c args attributes (key, t) w = (Err e, w') ->
  (exists msg, e = ETypeError msg) \/
  (exists fn, t = PFn fn /\ fn c = Err e).
Proof.
  unfold resolveField, assignSource, bind, ret, throw, lift, randomUUID,
    toISOString. simpl.
  destruct t; simpl; try discriminate.
  - destruct args; simpl; intros H; inversion H; subst. left; eauto.
  - destruct (fn c) as [fnValue|e0] eqn:Ef; simpl.
    + destruct (settle fnValue) as [v|e1] eqn:Es; simpl; [discriminate|].
      intros H; inversion H; subst. left.
      eapply settle_error; eauto.
    + intros H; inversion H; subst. right; eauto.
Qed.

Lemma foldM_resolve_error c args picker attributes w e w' :
  foldM (resolveField adapter c args) picker attributes w = (Err e, w') ->
  (exists msg, e = ETypeError msg) \/
  (exists k fn, In (k, PFn fn) picker /\ fn c = Err e).
Proof.
  revert attributes w.
  induction picker as [|[key t] picker IH]; simpl; intros attributes w.
  - unfold ret. discriminate.
  - unfold bind.
    destruct (resolveField adapter c args attributes (key, t) w)
      as [[a|e0] w1] eqn:E; intros H.
    + destruct (IH _ _ H) as [Hl|(k & fn & Hin & Hf)]; auto.
      right. exists k, fn. auto.
    + inversion H; subst.
      destruct (resolveField_error _ _ _ _ _ _ _ _ E)
        as [Hl|(fn & -> & Hf)]; auto.
      right. exists key, fn. auto.
Qed.

(** With an ["arg"] field and no bag, resolution never returns. *)
Lemma foldM_arg_absent c picker attributes w k :
  In (k, PArg) picker ->
  exists e,
    fst (foldM (resolveField adapter c None) picker attributes w) = Err e.
Proof.
  revert attributes w.
  induction picker as [|[key t] picker IH]; simpl; intros attributes w Hin;
    [contradiction|].
  unfold bind.
  destruct (resolveField adapter c None attributes (key, t) w)
    as [[a|e0] w1] eqn:E.
  - destruct Hin as [Heq|Hin]; [|now apply IH].
    inversion Heq; subst. discriminate.
  - exists e0. reflexivity.
Qed.

(** And when every custom resolver returns, what is thrown is the
    [TypeError] of indexing the absent bag. *)
Lemma foldM_arg_absent_type_error c picker attributes w k :
  In (k, PArg) picker ->
  (forall k' fn, In (k', PFn fn) picker ->
                 exists fnValue v,
                   fn c = Ok fnValue /\ settle fnValue = Ok v) ->
  fst (foldM (resolveField adapter c None) picker attributes w)
  = Err (ETypeError "Cannot read properties of undefined").
Proof.
  revert attributes w.
  induction picker as [|[key t] picker IH]; simpl;
    intros attributes w Hin Hfn; [contradiction|].
  unfold bind.
  destruct (resolveField adapter c None attributes (key, t) w)
    as [[a|e0] w1] eqn:E.
  - destruct Hin as [Heq|Hin].
    + inversion Heq; subst. discriminate.
    + apply IH; auto. intros k' fn H. apply (Hfn k' fn). now right.
  - simpl. f_equal. revert E.
    unfold resolveField, assignSource, bind, ret, throw, lift, randomUUID,
      toISOString. simpl.
    destruct t; simpl; try discriminate.
    + intros H; inversion H; reflexivity.
    + destruct (Hfn key fn (or_introl eq_refl)) as (fnValue & v & Hf & Hs).
      rewrite Hf. simpl. rewrite Hs. simpl. discriminate.
Qed.

End ResolverErrors.

(** ** Validation failures *)

(** C2, amended.  When a field declared ["payload"] and declared by the
    model fails its check, attribute resolution fails with the schema
    library's own error, which carries the issue of that field; that
    error is not a [CrudError]; and [create] and [update] surface it
    as it is, the store untouched. *)
Theorem validation_failure_propagates :
  forall (C : Type) (models : CrudDefinition) (model : string)
         (adapter : ContextAdapter C) (picker : AttributesPicker C)
         (c : C) (data : AnyObject) (args : option AnyObject) (w : World)
         (k : string) (t : ZodType) (expected : string),
    In (k, PPayload) picker ->
    obj_lookup (models model) k = Some t ->
    zod_check t (obj_get data k) = Some expected ->
    exists issues,
      In (mkIssue [k] expected (getParsedType (obj_get data k))) issues /\
      isCrudError_of (EZod issues) = false /\
      createAttributesPickerFunction models model adapter picker
        c (VObj data) args w
        = (Err (EZod issues), w) /\
      (forall createOptions,
          create_attributes createOptions = picker ->
          adapter_getRequestBody adapter c = VObj data ->
          create models adapter model createOptions c args w
            = (Err (EZod issues), w)) /\
      (forall updateOptions clauses,
          update_attributes updateOptions = picker ->
          adapter_getRequestBody adapter c = VObj data ->
          whereListOf c (update_where updateOptions) = Ok clauses ->
          update models adapter model updateOptions c args w
            = (Err (EZod issues), w)).
Proof.
  intros C models model adapter picker c data args w k t expected
    Hin Hdecl Hcheck.
  destruct (zod_parse_issue (schema models model picker) data k t expected)
    as (issues & Hparse & Hissue); auto.
  { now apply schema_has_payload. }
  assert (Hpick :
    createAttributesPickerFunction models model adapter picker
      c (VObj data) args w
    = (Err (EZod issues), w)).
  { now rewrite attributesPicker_eq, Hparse. }
  exists issues. repeat split; auto.
  - intros createOptions Hp Hbody. unfold create, bind.
    now rewrite Hbody, Hp, Hpick.
  - intros updateOptions clauses Hp Hbody Hwhere. unfold update, bind, lift.
    rewrite (composed_query c _ model _ clauses Hwhere).
    now rewrite Hbody, Hp, Hpick.
Qed.

Lemma validation_failure_propagates_witness :
  obj_lookup (HonoApp.databaseSchema "users") "name"
    = Some (ZodNullable ZodString) /\
  zod_check (ZodNullable ZodString) (VNum 42) = Some "string" /\
  exists issues,
    In (mkIssue ["name"] "string" "number") issues /\
    create HonoApp.databaseSchema HonoApp.adapter "users" HonoApp.usersCreate
      Fixtures.putNumber None (HonoApp.world [])
      = (Err (EZod issues), HonoApp.world []).
Proof.
  split; [reflexivity|]. split; [reflexivity|].
  destruct (validation_failure_propagates HonoApp.Context
              HonoApp.databaseSchema "users" HonoApp.adapter
              (create_attributes HonoApp.usersCreate) Fixtures.putNumber
              [("name", VNum 42)] None (HonoApp.world []) "name"
              (ZodNullable ZodString) "string")
    as (issues & Hissue & _ & _ & Hcreate & _).
  - right. now left.
  - reflexivity.
  - reflexivity.
  - exists issues. split; [exact Hissue|].
    apply Hcreate; reflexivity.
Defined.

(** C2 as worded fails: the error [create] raises for [{name: 42}] is a
    [ZodError], which [CrudError.isCrudError] rejects. *)
Lemma validation_failure_is_not_a_crud_error :
  ~ validation_failure_is_a_crud_error.
Proof.
  intros H.
  destruct (H HonoApp.Context HonoApp.databaseSchema HonoApp.adapter "users"
              HonoApp.usersCreate Fixtures.putNumber None (HonoApp.world [])
              [mkIssue ["name"] "string" "number"] eq_refl)
    as (e & Hrun & Hcrud).
  vm_compute in Hrun. inversion Hrun. subst e. discriminate.
Qed.

(** ** Not-found detection *)

(** C3.  [update] raises [NotFoundError] when the query it has composed
    (scopes, then [where]) matches no row; [destroy] raises it when its
    query matches no row, a record being cached or not; and an error
    of [create] is never a [NotFoundError] unless a custom resolver of
    its attribute specification threw that very error. *)
Theorem not_found_detection :
  forall (C : Type) (models : CrudDefinition) (adapter : ContextAdapter C)
         (model : string) (c : C) (w : World),
    (forall updateOptions args clauses attributes w1,
        whereListOf c (update_where updateOptions) = Ok clauses ->
        createAttributesPickerFunction models model adapter
          (update_attributes updateOptions) c
          (adapter_getRequestBody adapter c) args w = (Ok attributes, w1) ->
        matching w
          (scopedQuery model (getScopes adapter c noLoadOptions) clauses)
          = [] ->
        fst (update models adapter model updateOptions c args w)
          = Err (ECrud notFound)) /\
    (forall destroyOptions clauses,
        whereListOf c (destroy_where destroyOptions) = Ok clauses ->
        matching w
          (scopedQuery model (getScopes adapter c noLoadOptions) clauses)
          = [] ->
        fst (destroy adapter model destroyOptions c w)
          = Err (ECrud notFound)) /\
    (forall createOptions args e,
        fst (create models adapter model createOptions c args w) = Err e ->
        is_not_found e = false \/
        exists k fn,
          In (k, PFn fn) (create_attributes createOptions) /\ fn c = Err e).
Proof.
  intros C models adapter model c w. repeat split.
  - intros updateOptions args clauses attributes w1 Hwhere Hpick Hnone.
    unfold update, bind, lift.
    rewrite (composed_query c _ model _ clauses Hwhere), Hpick.
    unfold executeUpdate. simpl.
    pose proof (attributesPicker_store _ _ _ _ _ _ _ _ _ _ _ Hpick) as Hs.
    rewrite <- (matching_same_store w w1 _ Hs) in Hnone.
    unfold matching in Hnone. simpl in Hnone. rewrite Hnone. reflexivity.
  - intros destroyOptions clauses Hwhere Hnone.
    unfold destroy, bind, lift.
    unfold matching in Hnone. simpl in Hnone.
    destruct (adapter_get adapter c
                (singularize model (destroyAsLoad destroyOptions))) eqn:Eg;
      unfold ret, throw;
      try (rewrite (composed_query c _ model _ clauses Hwhere);
           unfold executeDelete; simpl; rewrite Hnone; reflexivity).
    unfold load, bind, lift. simpl load_where.
    replace (getScopes adapter c (destroyAsLoad destroyOptions))
      with (getScopes adapter c noLoadOptions) by reflexivity.
    rewrite (composed_query c _ model _ clauses Hwhere).
    unfold executeTakeFirst, execute, bind, ret. simpl.
    now rewrite Hnone.
  - intros createOptions args e. unfold create, bind.
    rewrite attributesPicker_eq.
    destruct (zod_parse
                (schema models model (create_attributes createOptions))
                (adapter_getRequestBody adapter c)) as [parsed|e0] eqn:Ep.
    + destruct (foldM (resolveField adapter c args)
                  (create_attributes createOptions) parsed w)
        as [[a|e0] w1] eqn:Ef; simpl; [discriminate|].
      intros H; inversion H; subst.
      destruct (foldM_resolve_error _ _ _ _ _ _ _ _ _ Ef)
        as [[msg ->]|Hfn]; auto.
    + simpl. intros H; inversion H; subst.
      destruct (zod_parse_error _ _ _ Ep) as [issues ->]. now left.
Qed.

Lemma not_found_detection_witness :
  fst (update HonoApp.databaseSchema HonoApp.adapter "users"
         HonoApp.usersUpdate Fixtures.putAnn None (HonoApp.world []))
    = Err (ECrud notFound) /\
  fst (destroy HonoApp.adapter "users" Fixtures.noDestroyOptions
         Fixtures.putAnn (HonoApp.world [])) = Err (ECrud notFound) /\
  (is_not_found (EZod [mkIssue ["name"] "string" "number"]) = false \/
   exists k fn,
     In (k, PFn fn) (create_attributes HonoApp.usersCreate) /\
     fn Fixtures.putNumber = Err (EZod [mkIssue ["name"] "string" "number"])).
Proof.
  destruct (not_found_detection HonoApp.Context HonoApp.databaseSchema
              HonoApp.adapter "users" Fixtures.putAnn (HonoApp.world []))
    as (Hupdate & Hdestroy & _).
  destruct (not_found_detection HonoApp.Context HonoApp.databaseSchema
              HonoApp.adapter "users" Fixtures.putNumber (HonoApp.world []))
    as (_ & _ & Hcreate).
  split; [|split].
  - apply (Hupdate HonoApp.usersUpdate None [] [("name", VStr "Ann")]
             (HonoApp.world [])); reflexivity.
  - apply (Hdestroy Fixtures.noDestroyOptions []); reflexivity.
  - apply (Hcreate HonoApp.usersCreate None). reflexivity.
Defined.

(** ** The absent argument bag *)

(** C10.  With a field declared ["arg"] and no extra-arguments bag,
    attribute resolution, [create] and [update] never return: there is
    no fallback value.  Once validation has passed and the custom
    resolvers have returned, what is thrown is the [TypeError] of
    indexing the absent bag. *)
Theorem absent_bag_fails :
  forall (C : Type) (models : CrudDefinition) (adapter : ContextAdapter C)
         (model : string) (picker : AttributesPicker C) (c : C) (w : World)
         (k : string),
    In (k, PArg) picker ->
    (forall payload,
        exists e,
          fst (createAttributesPickerFunction models model adapter picker
                 c payload None w)
          = Err e) /\
    (forall createOptions,
        create_attributes createOptions = picker ->
        exists e,
          fst (create models adapter model createOptions c None w) = Err e) /\
    (forall updateOptions,
        update_attributes updateOptions = picker ->
        exists e,
          fst (update models adapter model updateOptions c None w) = Err e) /\
    (forall createOptions parsed,
        create_attributes createOptions = picker ->
        zod_parse (schema models model picker)
          (adapter_getRequestBody adapter c) = Ok parsed ->
        (forall k' fn,
            In (k', PFn fn) picker ->
            exists fnValue v, fn c = Ok fnValue /\ settle fnValue = Ok v) ->
        fst (create models adapter model createOptions c None w)
        = Err (ETypeError "Cannot read properties of undefined")).
Proof.
  intros C models adapter model picker c w k Hin.
  assert (Hpick : forall payload w0,
             exists e,
               fst (createAttributesPickerFunction models model adapter picker
                      c payload
                      None w0) = Err e).
  { intros payload w0. rewrite attributesPicker_eq.
    destruct (zod_parse (schema models model picker) payload) as [parsed|e].
    - eapply foldM_arg_absent; eauto.
    - exists e. reflexivity. }
  repeat split.
  - intros payload. apply Hpick.
  - intros createOptions Hp. unfold create, bind. rewrite Hp.
    destruct (Hpick (adapter_getRequestBody adapter c) w) as [e He].
    destruct (createAttributesPickerFunction models model adapter picker c
                (adapter_getRequestBody adapter c) None w) as [[a|e0] w1];
      simpl in He; [discriminate|].
    exists e0. reflexivity.
  - intros updateOptions Hp. unfold update, bind, lift. rewrite Hp.
    destruct (whereOption c (update_where updateOptions)
                (whereScopes (getScopes adapter c noLoadOptions)
                   (from model))) as [q|e]; [|exists e; reflexivity].
    destruct (Hpick (adapter_getRequestBody adapter c) w) as [e He].
    destruct (createAttributesPickerFunction models model adapter picker c
                (adapter_getRequestBody adapter c) None w) as [[a|e0] w1];
      simpl in He; [discriminate|].
    exists e0. reflexivity.
  - intros createOptions parsed Hp Hparse Hfn. unfold create, bind.
    rewrite Hp, attributesPicker_eq, Hparse.
    pose proof (foldM_arg_absent_type_error C adapter c picker parsed w k
                  Hin Hfn) as He.
    destruct (foldM (resolveField adapter c None) picker parsed w)
      as [[a|e0] w1]; simpl in He; [discriminate|].
    simpl. inversion He. reflexivity.
Qed.

Lemma absent_bag_fails_witness :
  In ("owner", @PArg HonoApp.Context) (create_attributes Fixtures.ownedCreate)
  /\
  fst (create HonoApp.databaseSchema HonoApp.adapter "users"
         Fixtures.ownedCreate Fixtures.putAnn None (HonoApp.world []))
  = Err (ETypeError "Cannot read properties of undefined") /\
  exists e,
    fst (update HonoApp.databaseSchema HonoApp.adapter "users"
           Fixtures.ownedUpdate Fixtures.putAnn None (HonoApp.world []))
    = Err e.
Proof.
  assert (Hin : In ("owner", @PArg HonoApp.Context)
                  (create_attributes Fixtures.ownedCreate))
    by (right; now left).
  split; [exact Hin|].
  destruct (absent_bag_fails HonoApp.Context HonoApp.databaseSchema
              HonoApp.adapter "users"
              (create_attributes Fixtures.ownedCreate) Fixtures.putAnn
              (HonoApp.world []) "owner" Hin)
    as (_ & _ & Hupdate & Hcreate).
  split.
  - apply (Hcreate Fixtures.ownedCreate [("name", VStr "Ann")]).
    + reflexivity.
    + reflexivity.
    + intros k' fn [H|[H|[]]]; inversion H.
  - apply (Hupdate Fixtures.ownedUpdate). reflexivity.
Defined.

(** ** The body handed to validation *)

(** A body that is still a promise is what the schema is given, and no
    object schema accepts a promise. *)
Lemma create_rejects_pending_body {C : Type} (models : CrudDefinition)
    (adapter : ContextAdapter C) model createOptions c args w settled :
  adapter_getRequestBody adapter c = VPromise settled ->
  create models adapter model createOptions c args w
  = (Err (EZod [mkIssue [] "object" "promise"]), w).
Proof.
  intros H. unfold create, bind. rewrite H, attributesPicker_eq. reflexivity.
Qed.

(** C4, at the request of the example application.  [POST /users] with
    the JSON body [{name: "Ann"}]: the adapter returns the promise of
    [c.req.json()], [create] and [update] validate that promise and
    fail, although the body it resolves to passes validation. *)
Theorem body_is_validated_unresolved :
  adapter_getRequestBody HonoApp.adapter Fixtures.postAnn
    = VPromise (VObj [("name", VStr "Ann")]) /\
  zod_parse
    (schema HonoApp.databaseSchema "users"
       (create_attributes HonoApp.usersCreate))
    (await (adapter_getRequestBody HonoApp.adapter Fixtures.postAnn))
    = Ok [("name", VStr "Ann")] /\
  create HonoApp.databaseSchema HonoApp.adapter "users" HonoApp.usersCreate
    Fixtures.postAnn None (HonoApp.world [])
    = (Err (EZod [mkIssue [] "object" "promise"]), HonoApp.world []) /\
  fst (update HonoApp.databaseSchema HonoApp.adapter "users"
         HonoApp.usersUpdate Fixtures.postAnn None (HonoApp.world []))
    = Err (EZod [mkIssue [] "object" "promise"]).
Proof.
  split; [reflexivity|]. split; [reflexivity|]. split; [|reflexivity].
  apply (create_rejects_pending_body HonoApp.databaseSchema HonoApp.adapter
           "users" HonoApp.usersCreate Fixtures.postAnn None
           (HonoApp.world []) (VObj [("name", VStr "Ann")])).
  reflexivity.
Qed.

(** ** The cached record *)

Lemma load_eq {C : Type} (adapter : ContextAdapter C) c model loadOptions w
    clauses :
  whereListOf c (load_where loadOptions) = Ok clauses ->
  load adapter c model loadOptions w =
  (match matching w
           (scopedQuery model (getScopes adapter c loadOptions) clauses) with
   | [] => Err (ECrud notFound)
   | row :: _ => Ok row
   end,
   logged
     (Select (scopedQuery model (getScopes adapter c loadOptions) clauses))
     w).
Proof.
  intros H. unfold load, bind, lift.
  rewrite (composed_query c _ model _ clauses H).
  unfold executeTakeFirst, execute, bind, ret, throw, matching. simpl.
  destruct (filter _ _); reflexivity.
Qed.

Lemma slice_0_m1_append stem last :
  slice_0_m1 (String.append stem (String last "")) = stem.
Proof.
  induction stem as [|a stem IH]; simpl; auto.
  rewrite IH. destruct stem; reflexivity.
Qed.

(** C5, amended.  [show] returns the value cached under the singular
    key and leaves the store alone; without one it runs the scoped
    single-record load.  [destroy] with a cached record sends the
    store its delete and nothing else; without one its first statement
    is the select of the scoped load.  The singular key is the [as]
    option when that is a non-empty string, and otherwise the model
    name without its last character. *)
Theorem cached_record_or_scoped_load :
  forall (C : Type) (adapter : ContextAdapter C) (model : string) (c : C)
         (w : World),
    (forall showOptions cached,
        adapter_get adapter c (singularize model showOptions) = cached ->
        cached <> VUndefined ->
        show adapter model showOptions c w = (Ok cached, w)) /\
    (forall showOptions clauses,
        adapter_get adapter c (singularize model showOptions) = VUndefined ->
        whereListOf c (load_where showOptions) = Ok clauses ->
        show adapter model showOptions c w =
        (match matching w
                 (scopedQuery model (getScopes adapter c showOptions)
                    clauses) with
         | [] => Err (ECrud notFound)
         | row :: _ => Ok (VObj row)
         end,
         logged
           (Select
              (scopedQuery model (getScopes adapter c showOptions) clauses))
           w)) /\
    (forall destroyOptions cached clauses,
        adapter_get adapter c
          (singularize model (destroyAsLoad destroyOptions)) = cached ->
        cached <> VUndefined ->
        whereListOf c (destroy_where destroyOptions) = Ok clauses ->
        w_trace (snd (destroy adapter model destroyOptions c w)) =
        w_trace w ++
        [Delete
           (scopedQuery model (getScopes adapter c noLoadOptions) clauses)])
    /\
    (forall destroyOptions clauses,
        adapter_get adapter c
          (singularize model (destroyAsLoad destroyOptions)) = VUndefined ->
        whereListOf c (destroy_where destroyOptions) = Ok clauses ->
        exists rest,
          w_trace (snd (destroy adapter model destroyOptions c w)) =
          w_trace w ++
          Select
            (scopedQuery model (getScopes adapter c noLoadOptions) clauses)
          :: rest) /\
    (forall loadOptions : CrudControllerLoadOptions C,
        singularize model loadOptions =
        match load_as loadOptions with
        | Some name => if String.eqb name "" then slice_0_m1 model else name
        | None => slice_0_m1 model
        end) /\
    (forall stem last,
        model = String.append stem (String last "") ->
        slice_0_m1 model = stem).
Proof.
  intros C adapter model c w. repeat split.
  - intros showOptions cached Hget Hcached. unfold show. rewrite Hget.
    destruct cached; try reflexivity. contradiction.
  - intros showOptions clauses Hget Hwhere. unfold show. rewrite Hget.
    unfold bind. rewrite (load_eq adapter c model showOptions w clauses Hwhere).
    destruct (matching _ _); reflexivity.
  - intros destroyOptions cached clauses Hget Hcached Hwhere.
    unfold destroy, bind, lift. rewrite Hget.
    rewrite (composed_query c _ model _ clauses Hwhere).
    destruct cached; try contradiction; unfold ret, executeDelete; simpl;
      destruct (List.length _); reflexivity.
  - intros destroyOptions clauses Hget Hwhere.
    unfold destroy, bind, lift. rewrite Hget.
    rewrite (load_eq adapter c model (destroyAsLoad destroyOptions) w clauses
               Hwhere).
    replace (getScopes adapter c (destroyAsLoad destroyOptions))
      with (getScopes adapter c noLoadOptions) by reflexivity.
    destruct (matching _ _) as [|row rows].
    + exists []. reflexivity.
    + unfold ret.
      replace (w_compare _) with (w_compare w) by reflexivity.
      rewrite (composed_query c _ model _ clauses Hwhere).
      unfold executeDelete. simpl.
      exists [Delete
                (scopedQuery model (getScopes adapter c noLoadOptions)
                   clauses)].
      destruct (List.length _); simpl; now rewrite <- app_assoc.
  - intros loadOptions. unfold singularize.
    destruct (load_as loadOptions) as [name|]; auto.
    simpl. now destruct (String.eqb name "").
  - intros stem last ->. apply slice_0_m1_append.
Qed.

Lemma cached_record_or_scoped_load_witness :
  adapter_get HonoApp.adapter Fixtures.loadedUser
    (singularize "users" Fixtures.noOptions) = VObj Fixtures.u1 /\
  show HonoApp.adapter "users" Fixtures.noOptions Fixtures.loadedUser
    (HonoApp.world []) = (Ok (VObj Fixtures.u1), HonoApp.world []) /\
  w_trace (snd (destroy HonoApp.adapter "users" Fixtures.noDestroyOptions
                  Fixtures.loadedUser (HonoApp.world [])))
  = [Delete (mkQuery "users" [("user_id", "=", VStr "u1")])] /\
  show HonoApp.adapter "users" Fixtures.noOptions Fixtures.putAnn
    (HonoApp.world [("users", [Fixtures.u1])])
  = (Ok (VObj Fixtures.u1),
     logged (Select (mkQuery "users" [("user_id", "=", VStr "u1")]))
       (HonoApp.world [("users", [Fixtures.u1])])) /\
  (exists rest,
      w_trace (snd (destroy HonoApp.adapter "users" Fixtures.noDestroyOptions
                      Fixtures.putAnn
                      (HonoApp.world [("users", [Fixtures.u1])])))
      = Select (mkQuery "users" [("user_id", "=", VStr "u1")]) :: rest) /\
  slice_0_m1 "users" = "user".
Proof.
  destruct (cached_record_or_scoped_load HonoApp.Context HonoApp.adapter
              "users" Fixtures.loadedUser (HonoApp.world []))
    as (Hshow & _ & Hdestroy & _ & _ & Hslice).
  destruct (cached_record_or_scoped_load HonoApp.Context HonoApp.adapter
              "users" Fixtures.putAnn
              (HonoApp.world [("users", [Fixtures.u1])]))
    as (_ & Hload & _ & Hreload & _ & _).
  split; [reflexivity|]. split; [|split; [|split; [|split]]].
  - apply Hshow; [reflexivity|discriminate].
  - apply (Hdestroy Fixtures.noDestroyOptions (VObj Fixtures.u1) []);
      [reflexivity|discriminate|reflexivity].
  - apply (Hload Fixtures.noOptions []); reflexivity.
  - apply (Hreload Fixtures.noDestroyOptions []); reflexivity.
  - apply (Hslice "user" "s"%char). reflexivity.
Defined.

(** C5 as worded fails on [as: ""]: the option is given, a value is
    stored under it, and [show] looks under ["user"] instead, finds
    nothing, and goes to the store. *)
Lemma empty_as_is_not_the_cache_key : ~ explicit_as_names_the_cache_key.
Proof.
  intros H.
  specialize (H HonoApp.Context HonoApp.adapter
                "users" Fixtures.asEmpty Fixtures.storedUnderEmpty
                (HonoApp.world []) "" (VObj Fixtures.u1) eq_refl eq_refl).
  assert (Hne : VObj Fixtures.u1 <> VUndefined) by discriminate.
  specialize (H Hne). vm_compute in H. discriminate.
Qed.

(** ** Scopes *)

Lemma existsb_eqb_In k names :
  existsb (String.eqb k) names = true <-> In k names.
Proof.
  rewrite existsb_exists. split.
  - intros (x & Hin & Heq). apply String.eqb_eq in Heq. now subst.
  - intros Hin. exists k. split; auto. apply String.eqb_refl.
Qed.

(** C6.  The scopes of a request are its route parameters, restricted
    to the names listed in [scopes] when that option is set and all of
    them when it is not; each becomes an equality clause on the field
    of its name, and these are the clauses [index] sends when there is
    no [where] and no [query].  With parameters [user_id], [thing_id]
    and [scopes: ["user_id"]] the only clause is [user_id = "u1"]. *)
Theorem scopes_from_route_parameters :
  forall (C : Type) (adapter : ContextAdapter C) (c : C)
         (loadOptions : CrudControllerLoadOptions C),
    (forall k v,
        In (k, v) (getScopes adapter c loadOptions) <->
        In (k, v) (adapter_getRequestParams adapter c) /\
        match load_scopes loadOptions with
        | Some names => In k names
        | None => True
        end) /\
    (forall model,
        whereScopes (getScopes adapter c loadOptions) (from model) =
        mkQuery model
          (map (fun entry => (fst entry, "=", snd entry))
             (getScopes adapter c loadOptions))) /\
    (forall model w,
        load_where loadOptions = None ->
        load_query loadOptions = None ->
        w_trace (snd (index adapter model loadOptions c w)) =
        w_trace w ++
        [Select
           (mkQuery model
              (map (fun entry => (fst entry, "=", snd entry))
                 (getScopes adapter c loadOptions)))]) /\
    qb_where
      (whereScopes (getScopes HonoApp.adapter Fixtures.nested
                      Fixtures.scopedToUser) (from "things"))
    = [("user_id", "=", VStr "u1")].
Proof.
  intros C adapter c loadOptions.
  split; [|split; [|split; [|reflexivity]]].
  - intros k v. unfold getScopes.
    destruct (load_scopes loadOptions) as [names|]; [|tauto].
    rewrite filter_In. simpl. rewrite existsb_eqb_In. tauto.
  - intros model. now rewrite whereScopes_eq.
  - intros model w Hwhere Hquery. unfold index, bind, lift.
    rewrite Hwhere, Hquery. simpl. now rewrite whereScopes_eq.
Qed.

Lemma scopes_from_route_parameters_witness :
  load_where Fixtures.scopedToUser = None /\
  load_query Fixtures.scopedToUser = None /\
  (In ("thing_id", VStr "t1")
      (getScopes HonoApp.adapter Fixtures.nested Fixtures.scopedToUser) ->
   In "thing_id" ["user_id"]) /\
  w_trace (snd (index HonoApp.adapter "things" Fixtures.scopedToUser
                  Fixtures.nested (HonoApp.world [])))
  = [Select (mkQuery "things" [("user_id", "=", VStr "u1")])].
Proof.
  destruct (scopes_from_route_parameters HonoApp.Context HonoApp.adapter
              Fixtures.nested Fixtures.scopedToUser)
    as (Hin & _ & Hindex & _).
  split; [reflexivity|]. split; [reflexivity|]. split.
  - intros H. apply Hin in H. exact (proj2 H).
  - apply (Hindex "things" (HonoApp.world [])); reflexivity.
Defined.

(** ** The order of composition in [index] *)

(** C7.  [index] composes its query in a fixed order: the scope clauses,
    then the clauses of [where] in list order (a [where] function is
    called with the request context to obtain them).  Without a
    [query] hook that query is executed; with one, the hook receives
    the request context and that query, and what it returns is the
    query executed, whatever clauses it keeps; what it throws is
    thrown, and nothing is executed. *)
Theorem index_composition_order :
  forall (C : Type) (adapter : ContextAdapter C) (model : string)
         (indexOptions : CrudControllerLoadOptions C) (c : C) (w : World)
         (clauses : WhereList),
    whereListOf c (load_where indexOptions) = Ok clauses ->
    qb_where (scopedQuery model (getScopes adapter c indexOptions) clauses)
    = map (fun entry => (fst entry, "=", snd entry))
        (getScopes adapter c indexOptions) ++ clauses /\
    (load_query indexOptions = None ->
     index adapter model indexOptions c w =
     (Ok (mkCollection
            (matching w
               (scopedQuery model (getScopes adapter c indexOptions) clauses))
            (VObj [("total_count", VNum 0)])),
      logged
        (Select
           (scopedQuery model (getScopes adapter c indexOptions) clauses))
        w)) /\
    (forall hook final,
        load_query indexOptions = Some hook ->
        hook c (scopedQuery model (getScopes adapter c indexOptions) clauses)
        = Ok final ->
        index adapter model indexOptions c w =
        (Ok (mkCollection (matching w final)
               (VObj [("total_count", VNum 0)])),
         logged (Select final) w)) /\
    (forall hook e,
        load_query indexOptions = Some hook ->
        hook c (scopedQuery model (getScopes adapter c indexOptions) clauses)
        = Err e ->
        index adapter model indexOptions c w = (Err e, w)).
Proof.
  intros C adapter model indexOptions c w clauses Hwhere.
  split; [reflexivity|].
  split; [|split].
  - intros Hquery. unfold index, bind, lift.
    rewrite (composed_query c _ model _ clauses Hwhere), Hquery.
    reflexivity.
  - intros hook final Hquery Hhook. unfold index, bind, lift.
    rewrite (composed_query c _ model _ clauses Hwhere), Hquery, Hhook.
    reflexivity.
  - intros hook e Hquery Hhook. unfold index, bind, lift.
    rewrite (composed_query c _ model _ clauses Hwhere), Hquery, Hhook.
    reflexivity.
Qed.

Lemma index_composition_order_witness :
  whereListOf Fixtures.nested (load_where Fixtures.unfiltered)
    = Ok [("name", "=", VStr "a")] /\
  qb_where
    (scopedQuery "things"
       (getScopes HonoApp.adapter Fixtures.nested Fixtures.unfiltered)
       [("name", "=", VStr "a")])
  = [("user_id", "=", VStr "u1"); ("thing_id", "=", VStr "t1");
     ("name", "=", VStr "a")] /\
  index HonoApp.adapter "things" Fixtures.unfiltered Fixtures.nested
    (HonoApp.world [("things", Fixtures.things)])
  = (Ok (mkCollection Fixtures.things (VObj [("total_count", VNum 0)])),
     logged (Select (mkQuery "things" []))
       (HonoApp.world [("things", Fixtures.things)])).
Proof.
  assert (Hwhere :
    whereListOf Fixtures.nested (load_where Fixtures.unfiltered)
    = Ok [("name", "=", VStr "a")]) by reflexivity.
  destruct (index_composition_order HonoApp.Context HonoApp.adapter "things"
              Fixtures.unfiltered Fixtures.nested
              (HonoApp.world [("things", Fixtures.things)])
              [("name", "=", VStr "a")] Hwhere)
    as (Horder & _ & Hhook & _).
  split; [exact Hwhere|]. split; [exact Horder|].
  apply (Hhook (fun _ query => Ok (mkQuery (qb_table query) []))
           (mkQuery "things" [])); reflexivity.
Defined.

(** ** Shaping a collection *)

Lemma omit_eq (obj : AnyObject) props :
  omit obj props
  = filter (fun kv => negb (existsb (String.eqb (fst kv)) props)) obj.
Proof.
  unfold omit. revert obj.
  induction props as [|prop props IH]; intros obj; simpl.
  - induction obj as [|kv obj IHo]; simpl; congruence.
  - rewrite IH. unfold obj_delete.
    induction obj as [|kv obj IHo]; simpl; auto.
    rewrite (String.eqb_sym (fst kv) prop).
    destruct (String.eqb prop (fst kv)); simpl; rewrite IHo; reflexivity.
Qed.

Lemma mapR_Forall2 {A B} (f : A -> result B) l out :
  mapR f l = Ok out -> Forall2 (fun a b => f a = Ok b) l out.
Proof.
  revert out. induction l as [|a l IH]; simpl; intros out H.
  - inversion H. constructor.
  - destruct (f a) as [b|e] eqn:Ef; [|discriminate].
    destruct (mapR f l) as [bs|e]; [|discriminate].
    inversion H. subst. constructor; auto.
Qed.

Lemma mapR_total {A B} (f : A -> result B) l :
  (forall a, In a l -> exists b, f a = Ok b) -> exists out, mapR f l = Ok out.
Proof.
  induction l as [|a l IH]; simpl; intros H.
  - eauto.
  - destruct (H a (or_introl eq_refl)) as [b Hb]. rewrite Hb.
    destruct IH as [bs Hbs]; [intros x Hx; apply H; now right|].
    rewrite Hbs. eauto.
Qed.

Lemma pick_from (obj : AnyObject) props acc k :
  obj_lookup
    (fold_left (fun result prop => obj_set result prop (obj_get obj prop))
       props acc) k
  = if named k props then Some (obj_get obj k) else obj_lookup acc k.
Proof.
  unfold named. revert acc.
  induction props as [|prop props IH]; intros acc; simpl; auto.
  rewrite IH. destruct (String.eqb k prop) eqn:E; simpl.
  - apply String.eqb_eq in E. subst prop.
    destruct (existsb (String.eqb k) props); auto.
    apply obj_lookup_set_same.
  - destruct (existsb (String.eqb k) props); auto.
    apply obj_lookup_set_other. intros ->.
    rewrite String.eqb_refl in E. discriminate.
Qed.

Lemma pick_NoDup_from (obj : AnyObject) props acc :
  NoDup (obj_keys acc) ->
  NoDup (obj_keys
           (fold_left
              (fun result prop => obj_set result prop (obj_get obj prop))
              props acc)).
Proof.
  revert acc. induction props as [|prop props IH]; intros acc H; simpl; auto.
  apply IH. now apply obj_keys_set_NoDup.
Qed.

Lemma filter_keys_lookup (f : string -> bool) (o : AnyObject) k :
  obj_lookup (filter (fun kv => negb (f (fst kv))) o) k
  = if f k then None else obj_lookup o k.
Proof.
  induction o as [|[k' v] o IH]; simpl.
  - now destruct (f k).
  - destruct (String.eqb k' k) eqn:E.
    + apply String.eqb_eq in E. subst k'.
      destruct (f k) eqn:Ef; simpl.
      * rewrite IH. reflexivity.
      * now rewrite String.eqb_refl.
    + destruct (f k') eqn:Ef'; simpl; rewrite ?E; apply IH.
Qed.

Lemma omit_lookup (obj : AnyObject) props k :
  obj_lookup (omit obj props) k
  = if named k props then None else obj_lookup obj k.
Proof.
  rewrite omit_eq. unfold named.
  apply (filter_keys_lookup (fun x => existsb (String.eqb x) props)).
Qed.

(** C9.  [collectionResponse] shapes every row of the collection by the
    same pipeline (omit, then pick, then render) and answers with the
    shaped rows in the order of the collection: the i-th row of the
    answer is the shaped i-th row.  Omitting drops the named fields
    and keeps the others in place; picking keeps exactly the named
    fields, each once, holding what the row has under that name;
    without a [render] shaping cannot fail, and the shaped row holds,
    under each name, what omitting and then picking leave there.
    Shaping [{id:1,name:"a"}], [{id:2,name:"b"}] with
    [omit: ["name"]] gives [{id:1}], [{id:2}]. *)
Theorem collection_shaping_keeps_order :
  forall (C : Type) (adapter : ContextAdapter C)
         (dataFn : C -> M Collection) (options : ResponseOptions) (c : C)
         (w : World) (collection : Collection) (w' : World),
    dataFn c w = (Ok collection, w') ->
    (forall shaped,
        mapR (shape options) (data collection) = Ok shaped ->
        collectionResponse adapter dataFn options c w =
        (Ok (adapter_response adapter c
               (VObj [("data", VArr (map VObj shaped));
                      ("metadata", metadata collection)])
               (statusOf options)), w') /\
        Forall2 (fun row out => shape options row = Ok out)
          (data collection) shaped) /\
    (forall row,
        shape options row =
        let omitted := match resp_omit options with
                       | Some props => omit row props
                       | None => row
                       end in
        let picked := match resp_pick options with
                      | Some props => pick omitted props
                      | None => omitted
                      end in
        match resp_render options with
        | Some render => render picked
        | None => Ok picked
        end) /\
    (forall row props,
        omit row props
        = filter (fun kv => negb (existsb (String.eqb (fst kv)) props)) row) /\
    (resp_render options = None ->
     exists shaped, mapR (shape options) (data collection) = Ok shaped) /\
    mapR (shape Fixtures.omitName) Fixtures.twoRows
    = Ok [[("id", VNum 1)]; [("id", VNum 2)]] /\
    (forall row props,
        NoDup (obj_keys (pick row props)) /\
        forall k,
          obj_lookup (pick row props) k
          = if named k props then Some (obj_get row k) else None) /\
    (forall row out,
        resp_render options = None ->
        shape options row = Ok out ->
        forall k,
          obj_lookup out k =
          match resp_pick options with
          | Some picked =>
              if named k picked
              then Some (match resp_omit options with
                         | Some omitted =>
                             if named k omitted then VUndefined
                             else obj_get row k
                         | None => obj_get row k
                         end)
              else None
          | None =>
              match resp_omit options with
              | Some omitted =>
                  if named k omitted then None else obj_lookup row k
              | None => obj_lookup row k
              end
          end) /\
    (forall render row out,
        resp_render options = Some render ->
        shape options row = Ok out ->
        exists unrendered,
          render unrendered = Ok out /\
          shape
            (mkResponseOptions (resp_omit options) (resp_pick options) None
               (resp_statusCode options)) row = Ok unrendered) /\
    mapR (shape Cases.pickIdEmail) Fixtures.twoRows
    = Ok [[("id", VNum 1); ("email", VUndefined)];
          [("id", VNum 2); ("email", VUndefined)]].
Proof.
  intros C adapter dataFn options c w collection w' Hdata.
  split; [|split; [|split; [|split; [|split; [reflexivity|]]]]].
  - intros shaped Hshaped. split.
    + unfold collectionResponse, bind, lift, ret.
      now rewrite Hdata, Hshaped.
    + now apply mapR_Forall2.
  - reflexivity.
  - apply omit_eq.
  - intros Hrender. apply mapR_total. intros row _.
    unfold shape. rewrite Hrender. eauto.
  - split; [|split; [|split; [|reflexivity]]].
    + intros row props. split.
      * unfold pick. apply pick_NoDup_from. constructor.
      * intros k. unfold pick. now rewrite pick_from.
    + intros row out Hrender Hshape k. unfold shape in Hshape.
      rewrite Hrender in Hshape. inversion Hshape; subst. clear Hshape.
      destruct (resp_pick options) as [picked|];
        destruct (resp_omit options) as [omitted|].
      * unfold pick. rewrite pick_from. simpl.
        destruct (named k picked); auto. f_equal.
        unfold obj_get. rewrite omit_lookup.
        now destruct (named k omitted).
      * unfold pick. rewrite pick_from. simpl.
        now destruct (named k picked).
      * apply omit_lookup.
      * reflexivity.
    + intros render row out Hrender Hshape. unfold shape in Hshape.
      rewrite Hrender in Hshape. eexists. split; [exact Hshape|].
      reflexivity.
Qed.

Lemma collection_shaping_keeps_order_witness :
  Fixtures.listed Fixtures.nested (HonoApp.world [])
  = (Ok (mkCollection Fixtures.twoRows (VObj [("total_count", VNum 0)])),
     HonoApp.world []) /\
  collectionResponse HonoApp.adapter Fixtures.listed Fixtures.omitName
    Fixtures.nested (HonoApp.world [])
  = (Ok (VObj [("status", VNum 200);
               ("json",
                VObj [("data",
                       VArr [VObj [("id", VNum 1)]; VObj [("id", VNum 2)]]);
                      ("metadata", VObj [("total_count", VNum 0)])])]),
     HonoApp.world []) /\
  collectionResponse HonoApp.adapter Fixtures.listed Cases.pickIdEmail
    Fixtures.nested (HonoApp.world [])
  = (Ok (VObj [("status", VNum 200);
               ("json",
                VObj [("data",
                       VArr [VObj [("id", VNum 1); ("email", VUndefined)];
                             VObj [("id", VNum 2); ("email", VUndefined)]]);
                      ("metadata", VObj [("total_count", VNum 0)])])]),
     HonoApp.world []) /\
  (forall k,
      obj_lookup [("id", VNum 1); ("email", VUndefined)] k
      = if named k ["id"; "email"]
        then Some (obj_get [("id", VNum 1); ("name", VStr "a")] k)
        else None).
Proof.
  assert (Hdata :
    Fixtures.listed Fixtures.nested (HonoApp.world [])
    = (Ok (mkCollection Fixtures.twoRows (VObj [("total_count", VNum 0)])),
       HonoApp.world [])) by reflexivity.
  split; [exact Hdata|].
  destruct (collection_shaping_keeps_order HonoApp.Context HonoApp.adapter
              Fixtures.listed Fixtures.omitName Fixtures.nested
              (HonoApp.world [])
              (mkCollection Fixtures.twoRows (VObj [("total_count", VNum 0)]))
              (HonoApp.world []) Hdata) as (Hshape & _).
  destruct (collection_shaping_keeps_order HonoApp.Context HonoApp.adapter
              Fixtures.listed Cases.pickIdEmail Fixtures.nested
              (HonoApp.world [])
              (mkCollection Fixtures.twoRows (VObj [("total_count", VNum 0)]))
              (HonoApp.world []) Hdata)
    as (Hpicked & _ & _ & _ & _ & _ & Hout & _).
  split; [|split].
  - destruct (Hshape [[("id", VNum 1)]; [("id", VNum 2)]] eq_refl)
      as [Hrun _].
    exact Hrun.
  - destruct (Hpicked [[("id", VNum 1); ("email", VUndefined)];
                       [("id", VNum 2); ("email", VUndefined)]] eq_refl)
      as [Hrun _].
    exact Hrun.
  - intros k.
    exact (Hout [("id", VNum 1); ("name", VStr "a")]
             [("id", VNum 1); ("email", VUndefined)] eq_refl eq_refl k).
Defined.

(** ** End to end *)

(** Creating a user from [{name: "Ann", extra: "ignored"}] with
    [{user_id: "uuid", name: "payload"}] inserts and returns a record
    with a fresh identifier and the name; [extra] is dropped. *)
Example create_user_end_to_end :
  create HonoApp.databaseSchema HonoApp.adapter "users" HonoApp.usersCreate
    (HonoApp.request [] (VObj HonoApp.ann)) None (HonoApp.world [])
  = (Ok (VObj [("name", VStr "Ann"); ("user_id", VStr "uuid-0")]),
     mkWorld [("users", [[("name", VStr "Ann"); ("user_id", VStr "uuid-0")]])]
       HonoApp.compare
       [Insert "users" [("name", VStr "Ann"); ("user_id", VStr "uuid-0")] None]
       HonoApp.uuid 1 "2023-01-01T00:00:00.000Z").
Proof. reflexivity. Qed.

(** Updating with [where: [["active", "=", true]]] when the scoped user
    is not active raises [NotFoundError] and changes no row. *)
Example update_inactive_end_to_end :
  fst (update HonoApp.databaseSchema HonoApp.adapter "users"
         Fixtures.activeOnly Fixtures.putAnn None
         (HonoApp.world Fixtures.inactiveUsers)) = Err (ECrud notFound) /\
  w_tables (snd (update HonoApp.databaseSchema HonoApp.adapter "users"
                   Fixtures.activeOnly Fixtures.putAnn None
                   (HonoApp.world Fixtures.inactiveUsers)))
  = Fixtures.inactiveUsers.
Proof. split; reflexivity. Qed.

(** A nested create takes [user_id] from the route, not from the
    payload, even when the payload carries one. *)
Example create_thing_end_to_end :
  fst (create HonoApp.databaseSchema HonoApp.adapter "things"
         HonoApp.thingsCreate
         (HonoApp.request [("user_id", VStr "u1")]
            (VObj [("name", VStr "hat"); ("user_id", VStr "u2")]))
         None (HonoApp.world []))
  = Ok (VObj [("name", VStr "hat"); ("thing_id", VStr "uuid-0");
              ("user_id", VStr "u1")]).
Proof. reflexivity. Qed.

(** ** A loader followed by [show] *)

Section LoaderThenShow.
Variable C : Type.
Variable adapter : ContextAdapter C.
(** The contextual store gives back what was put in it. *)
Hypothesis get_set :
  forall c key v, adapter_get adapter (adapter_set adapter c key v) key = v.

(** After a successful load, [show] on the context the loader passes
    on returns the loaded record and sends the store nothing. *)
Lemma show_after_loader model loadOptions c w row w1 :
  load adapter c model loadOptions w = (Ok row, w1) ->
  loader adapter model loadOptions c (show adapter model loadOptions) w
  = (Ok tt, w1) /\
  show adapter model loadOptions
    (adapter_set adapter c (singularize model loadOptions) (VObj row)) w1
  = (Ok (VObj row), w1).
Proof.
  intros Hload.
  assert (Hshow :
    show adapter model loadOptions
      (adapter_set adapter c (singularize model loadOptions) (VObj row)) w1
    = (Ok (VObj row), w1)).
  { unfold show. now rewrite get_set. }
  split; auto.
  unfold loader, bind. now rewrite Hload, Hshow.
Qed.

End LoaderThenShow.

(** * Further properties *)

(** ** [pick] and [omit] *)

(** X1.  [pick] gives the result exactly the named properties, each
    once: a name is a key of the result whether the object has it or
    not, and holds what indexing the object by it yields, [undefined]
    for a missing one; no other key of the object is carried over. *)
Theorem pick_assigns_every_named_property :
  forall (obj : AnyObject) (props : list string),
    NoDup (obj_keys (pick obj props)) /\
    (forall k,
        obj_lookup (pick obj props) k
        = if named k props then Some (obj_get obj k) else None) /\
    (forall k, named k props = true -> obj_lookup obj k = None ->
               obj_lookup (pick obj props) k = Some VUndefined).
Proof.
  intros obj props. split; [|split].
  - unfold pick. apply pick_NoDup_from. constructor.
  - intros k. unfold pick. now rewrite pick_from.
  - intros k Hk Hmiss. unfold pick. rewrite pick_from, Hk.
    unfold obj_get. now rewrite Hmiss.
Qed.

(** X2.  With both [omit] and [pick] and no [render], shaping keeps
    exactly the picked names; a name that is both omitted and picked
    is a key of the result and holds [undefined], since [omit] runs
    first; shaping without a [render] cannot fail. *)
Theorem omitted_then_picked_is_undefined :
  forall (row : AnyObject) (omitted picked : list string)
         (code : option Z),
  exists shaped,
    shape (mkResponseOptions (Some omitted) (Some picked) None code) row
    = Ok shaped /\
    forall k,
      obj_lookup shaped k
      = if named k picked
        then Some (if named k omitted then VUndefined else obj_get row k)
        else None.
Proof.
  intros row omitted picked code.
  exists (pick (omit row omitted) picked). split; [reflexivity|].
  intros k. unfold pick. rewrite pick_from. simpl.
  destruct (named k picked); auto. f_equal.
  unfold obj_get. rewrite omit_lookup.
  now destruct (named k omitted).
Qed.

Lemma pick_assigns_every_named_property_witness :
  named "email" ["name"; "email"] = true /\
  obj_lookup Fixtures.u1 "email" = None /\
  obj_lookup (pick Fixtures.u1 ["name"; "email"]) "email" = Some VUndefined.
Proof.
  split; [reflexivity|]. split; [reflexivity|].
  destruct (pick_assigns_every_named_property Fixtures.u1 ["name"; "email"])
    as (_ & _ & Hmissing).
  apply Hmissing; reflexivity.
Defined.

(** ** Rows and scopes *)

Lemma matches_scoped w model scopes clauses row :
  matches w (scopedQuery model scopes clauses) row = true <->
  (forall k v, In (k, v) scopes -> w_compare w "=" (obj_get row k) v = true) /\
  (forall lhs op rhs,
      In (lhs, op, rhs) clauses ->
      w_compare w op (obj_get row lhs) rhs = true).
Proof.
  unfold matches, scopedQuery. simpl.
  rewrite forallb_app, andb_true_iff, !forallb_forall. split.
  - intros [Hs Hc]. split.
    + intros k v Hin.
      apply (Hs (scopeClause (k, v))). now apply in_map.
    + intros lhs op rhs Hin. apply (Hc (lhs, op, rhs) Hin).
  - intros [Hs Hc]. split.
    + intros clause Hin. apply in_map_iff in Hin.
      destruct Hin as ([k v] & <- & Hin). simpl. now apply Hs.
    + intros [[lhs op] rhs] Hin. now apply Hc.
Qed.

Lemma table_rows_executed_same s rows table w :
  table_rows (executed s rows table w) table = rows.
Proof.
  unfold table_rows, executed. simpl. now rewrite obj_lookup_set_same.
Qed.

Lemma table_rows_executed_other s rows table w t :
  table <> t -> table_rows (executed s rows table w) t = table_rows w t.
Proof.
  intros H. unfold table_rows, executed. simpl.
  now rewrite obj_lookup_set_other.
Qed.

Lemma index_without_hook {C : Type} (adapter : ContextAdapter C) model
    indexOptions c w clauses :
  whereListOf c (load_where indexOptions) = Ok clauses ->
  load_query indexOptions = None ->
  index adapter model indexOptions c w =
  (Ok (mkCollection
         (matching w
            (scopedQuery model (getScopes adapter c indexOptions) clauses))
         (VObj [("total_count", VNum 0)])),
   logged
     (Select (scopedQuery model (getScopes adapter c indexOptions) clauses))
     w).
Proof.
  intros Hwhere Hquery. unfold index, bind, lift.
  rewrite (composed_query c _ model _ clauses Hwhere), Hquery. reflexivity.
Qed.

(** X3.  Without a [query] hook, every row [index] lists is a row of
    the model's table that satisfies, as the store reads the
    operators, the equality of every scope and every clause of
    [where]. *)
Theorem listed_rows_are_in_scope :
  forall (C : Type) (adapter : ContextAdapter C) (model : string)
         (indexOptions : CrudControllerLoadOptions C) (c : C) (w w' : World)
         (clauses : WhereList) (collection : Collection),
    whereListOf c (load_where indexOptions) = Ok clauses ->
    load_query indexOptions = None ->
    index adapter model indexOptions c w = (Ok collection, w') ->
    forall row,
      In row (data collection) ->
      In row (table_rows w model) /\
      (forall k v,
          In (k, v) (getScopes adapter c indexOptions) ->
          w_compare w "=" (obj_get row k) v = true) /\
      (forall lhs op rhs,
          In (lhs, op, rhs) clauses ->
          w_compare w op (obj_get row lhs) rhs = true).
Proof.
  intros C adapter model indexOptions c w w' clauses collection
    Hwhere Hquery Hrun row Hin.
  rewrite (index_without_hook adapter model indexOptions c w clauses
             Hwhere Hquery) in Hrun.
  inversion Hrun; subst. simpl in Hin.
  unfold matching in Hin. apply filter_In in Hin.
  destruct Hin as [Hrow Hm]. split; [exact Hrow|].
  now apply matches_scoped in Hm.
Qed.

Lemma listed_rows_are_in_scope_witness :
  index HonoApp.adapter "things" Cases.namedA Fixtures.nested
    Cases.thingsWorld
  = (Ok (mkCollection
           [[("thing_id", VStr "t1"); ("user_id", VStr "u1");
             ("name", VStr "a")]]
           (VObj [("total_count", VNum 0)])),
     logged
       (Select (mkQuery "things"
                  [("user_id", "=", VStr "u1"); ("name", "=", VStr "a")]))
       Cases.thingsWorld) /\
  w_compare Cases.thingsWorld "="
    (obj_get [("thing_id", VStr "t1"); ("user_id", VStr "u1");
              ("name", VStr "a")] "user_id") (VStr "u1") = true.
Proof.
  assert (Hrun :
    index HonoApp.adapter "things" Cases.namedA Fixtures.nested
      Cases.thingsWorld
    = (Ok (mkCollection
             [[("thing_id", VStr "t1"); ("user_id", VStr "u1");
               ("name", VStr "a")]]
             (VObj [("total_count", VNum 0)])),
       logged
         (Select (mkQuery "things"
                    [("user_id", "=", VStr "u1"); ("name", "=", VStr "a")]))
         Cases.thingsWorld)) by reflexivity.
  split; [exact Hrun|].
  destruct (listed_rows_are_in_scope HonoApp.Context HonoApp.adapter "things"
              Cases.namedA Fixtures.nested Cases.thingsWorld _
              [("name", "=", VStr "a")] _ eq_refl eq_refl Hrun
              [("thing_id", VStr "t1"); ("user_id", VStr "u1");
               ("name", VStr "a")] (or_introl eq_refl))
    as (_ & Hscope & _).
  apply Hscope. now left.
Defined.

(** X4.  The record [load] returns is a row of the model's table that
    satisfies every scope and every clause of [where], and [show]
    returns that record when nothing is cached; [load] raises
    [NotFoundError] exactly when no row does.  Either way no table
    changes. *)
Theorem loaded_row_is_in_scope :
  forall (C : Type) (adapter : ContextAdapter C) (model : string)
         (loadOptions : CrudControllerLoadOptions C) (c : C) (w : World)
         (clauses : WhereList),
    whereListOf c (load_where loadOptions) = Ok clauses ->
    (forall row w',
        load adapter c model loadOptions w = (Ok row, w') ->
        In row (table_rows w model) /\
        (forall k v,
            In (k, v) (getScopes adapter c loadOptions) ->
            w_compare w "=" (obj_get row k) v = true) /\
        (forall lhs op rhs,
            In (lhs, op, rhs) clauses ->
            w_compare w op (obj_get row lhs) rhs = true)) /\
    (fst (load adapter c model loadOptions w) = Err (ECrud notFound) <->
     forall row, In row (table_rows w model) ->
       matches w
         (scopedQuery model (getScopes adapter c loadOptions) clauses) row
       = false) /\
    (adapter_get adapter c (singularize model loadOptions) = VUndefined ->
     forall row w',
       load adapter c model loadOptions w = (Ok row, w') ->
       show adapter model loadOptions c w = (Ok (VObj row), w')) /\
    w_tables (snd (load adapter c model loadOptions w)) = w_tables w.
Proof.
  intros C adapter model loadOptions c w clauses Hwhere.
  rewrite (load_eq adapter c model loadOptions w clauses Hwhere).
  set (q := scopedQuery model (getScopes adapter c loadOptions) clauses).
  split; [|split; [|split]].
  - intros row w'. unfold matching. change (qb_table q) with model.
    destruct (filter (matches w q) (table_rows w model)) as [|r rest] eqn:Ef;
      intros H; inversion H; subst.
    assert (Hf : In row (filter (matches w q) (table_rows w model)))
      by (rewrite Ef; now left).
    apply filter_In in Hf. destruct Hf as [Hin Hm]. split; [exact Hin|].
    now apply matches_scoped in Hm.
  - unfold matching. change (qb_table q) with model. simpl fst. split.
    + destruct (filter (matches w q) (table_rows w model)) as [|r rest] eqn:Ef;
        [|discriminate].
      intros _ row Hin.
      destruct (matches w q row) eqn:Em; auto.
      assert (Hf : In row (filter (matches w q) (table_rows w model)))
        by (apply filter_In; auto).
      rewrite Ef in Hf. destruct Hf.
    + intros Hnone.
      destruct (filter (matches w q) (table_rows w model)) as [|r rest] eqn:Ef;
        auto.
      assert (Hf : In r (filter (matches w q) (table_rows w model)))
        by (rewrite Ef; now left).
      apply filter_In in Hf. destruct Hf as [Hin Hm].
      rewrite (Hnone r Hin) in Hm. discriminate.
  - intros Hget row w' Hload. unfold show. rewrite Hget. unfold bind.
    rewrite (load_eq adapter c model loadOptions w clauses Hwhere).
    fold q. destruct (matching w q); inversion Hload; subst. reflexivity.
  - reflexivity.
Qed.

Lemma loaded_row_is_in_scope_witness :
  whereListOf Fixtures.nested (load_where Cases.namedA)
    = Ok [("name", "=", VStr "a")] /\
  fst (load HonoApp.adapter Fixtures.nested "things" Cases.namedA
         Cases.thingsWorld)
    = Ok [("thing_id", VStr "t1"); ("user_id", VStr "u1"); ("name", VStr "a")]
  /\
  w_tables (snd (load HonoApp.adapter Fixtures.nested "things" Cases.namedA
                   Cases.thingsWorld)) = w_tables Cases.thingsWorld /\
  show HonoApp.adapter "things" Cases.namedA Fixtures.nested
    Cases.thingsWorld
  = (Ok (VObj [("thing_id", VStr "t1"); ("user_id", VStr "u1");
               ("name", VStr "a")]),
     logged
       (Select (mkQuery "things"
                  [("user_id", "=", VStr "u1"); ("name", "=", VStr "a")]))
       Cases.thingsWorld).
Proof.
  assert (Hwhere :
    whereListOf Fixtures.nested (load_where Cases.namedA)
    = Ok [("name", "=", VStr "a")]) by reflexivity.
  destruct (loaded_row_is_in_scope HonoApp.Context HonoApp.adapter
              "things" Cases.namedA Fixtures.nested Cases.thingsWorld
              [("name", "=", VStr "a")] Hwhere)
    as (_ & _ & Hshow & Htables).
  split; [exact Hwhere|]. split; [reflexivity|]. split; [exact Htables|].
  apply Hshow; reflexivity.
Defined.

Lemma filter_all {A} (f : A -> bool) (l : list A) :
  (forall a, In a l -> f a = true) -> filter f l = l.
Proof.
  induction l as [|a l IH]; simpl; intros H; auto.
  rewrite (H a) by now left. rewrite IH; auto.
Qed.

(** X5.  An empty [scopes] list is not an unset one: it selects no
    route parameter, so [index] with [scopes: []] and no [where] or
    [query] lists every row of the table, whatever the route
    parameters are. *)
Theorem empty_scopes_list_disables_scoping :
  forall (C : Type) (adapter : ContextAdapter C) (model : string)
         (indexOptions : CrudControllerLoadOptions C) (c : C) (w : World),
    load_scopes indexOptions = Some [] ->
    getScopes adapter c indexOptions = [] /\
    (load_where indexOptions = None ->
     load_query indexOptions = None ->
     index adapter model indexOptions c w =
     (Ok (mkCollection (table_rows w model) (VObj [("total_count", VNum 0)])),
      logged (Select (from model)) w)).
Proof.
  intros C adapter model indexOptions c w Hscopes.
  assert (Hnone : getScopes adapter c indexOptions = []).
  { unfold getScopes. rewrite Hscopes.
    induction (adapter_getRequestParams adapter c); simpl; auto. }
  split; [exact Hnone|].
  intros Hwhere Hquery.
  rewrite (index_without_hook adapter model indexOptions c w []);
    [|now rewrite Hwhere|exact Hquery].
  rewrite Hnone. unfold matching, scopedQuery, from. simpl.
  rewrite filter_all; auto.
Qed.

Lemma empty_scopes_list_disables_scoping_witness :
  load_scopes Cases.unscoped = Some [] /\
  adapter_getRequestParams HonoApp.adapter Fixtures.nested
    = [("user_id", VStr "u1"); ("thing_id", VStr "t1")] /\
  fst (index HonoApp.adapter "things" Cases.unscoped Fixtures.nested
         Cases.thingsWorld)
  = Ok (mkCollection Fixtures.things (VObj [("total_count", VNum 0)])).
Proof.
  split; [reflexivity|]. split; [reflexivity|].
  destruct (empty_scopes_list_disables_scoping HonoApp.Context
              HonoApp.adapter "things" Cases.unscoped Fixtures.nested
              Cases.thingsWorld eq_refl) as [_ Hindex].
  rewrite Hindex; reflexivity.
Defined.

(** X6.  [load], and with it [show], never consults the [query] hook:
    two option values that differ in [query] alone load and show the
    same. *)
Theorem show_ignores_the_query_hook :
  forall (C : Type) (adapter : ContextAdapter C) (model : string)
         (loadOptions : CrudControllerLoadOptions C)
         (hook : option (C -> QueryBuilder -> result QueryBuilder))
         (c : C) (w : World),
    load adapter c model
      (mkLoadOptions (load_scopes loadOptions) (load_where loadOptions) hook
         (load_as loadOptions)) w
    = load adapter c model loadOptions w /\
    show adapter model
      (mkLoadOptions (load_scopes loadOptions) (load_where loadOptions) hook
         (load_as loadOptions)) c w
    = show adapter model loadOptions c w.
Proof.
  intros C adapter model [scopes where' query as'] hook c w.
  split; reflexivity.
Qed.

(** X7.  [index] raises nothing of its own: when it fails, a [where]
    function or the [query] hook threw that error and no statement was
    sent; a listing that matches no row is an empty collection, not an
    error. *)
Theorem index_raises_only_what_hooks_throw :
  forall (C : Type) (adapter : ContextAdapter C) (model : string)
         (indexOptions : CrudControllerLoadOptions C) (c : C) (w : World),
    (forall e,
        fst (index adapter model indexOptions c w) = Err e ->
        snd (index adapter model indexOptions c w) = w /\
        (whereListOf c (load_where indexOptions) = Err e \/
         exists hook clauses,
           load_query indexOptions = Some hook /\
           whereListOf c (load_where indexOptions) = Ok clauses /\
           hook c
             (scopedQuery model (getScopes adapter c indexOptions) clauses)
           = Err e)) /\
    (forall clauses,
        whereListOf c (load_where indexOptions) = Ok clauses ->
        load_query indexOptions = None ->
        matching w
          (scopedQuery model (getScopes adapter c indexOptions) clauses) = [] ->
        fst (index adapter model indexOptions c w)
        = Ok (mkCollection [] (VObj [("total_count", VNum 0)]))).
Proof.
  intros C adapter model indexOptions c w. split.
  - intros e. unfold index, bind, lift.
    rewrite whereOption_eq, whereScopes_eq. simpl.
    destruct (whereListOf c (load_where indexOptions)) as [clauses|e0]
      eqn:Ew; simpl.
    + destruct (load_query indexOptions) as [hook|] eqn:Eq; simpl.
      * destruct (hook c _) as [final|e0] eqn:Eh; simpl; [discriminate|].
        intros H; inversion H; subst. split; auto.
        right. exists hook, clauses. auto.
      * discriminate.
    + intros H; inversion H; subst. auto.
  - intros clauses Hwhere Hquery Hnone.
    rewrite (index_without_hook adapter model indexOptions c w clauses
               Hwhere Hquery).
    now rewrite Hnone.
Qed.

Lemma index_raises_only_what_hooks_throw_witness :
  index HonoApp.adapter "things" Cases.failingWhere Fixtures.nested
    Cases.thingsWorld = (Err (EThrown (VStr "boom")), Cases.thingsWorld) /\
  fst (index HonoApp.adapter "things" Cases.namedA Fixtures.nested
         (HonoApp.world []))
  = Ok (mkCollection [] (VObj [("total_count", VNum 0)])).
Proof.
  destruct (index_raises_only_what_hooks_throw HonoApp.Context
              HonoApp.adapter "things" Cases.failingWhere Fixtures.nested
              Cases.thingsWorld) as [Herr _].
  destruct (index_raises_only_what_hooks_throw HonoApp.Context
              HonoApp.adapter "things" Cases.namedA Fixtures.nested
              (HonoApp.world [])) as [_ Hempty].
  split.
  - destruct (Herr (EThrown (VStr "boom")) eq_refl) as [Hw _].
    rewrite <- Hw at 2. reflexivity.
  - apply (Hempty [("name", "=", VStr "a")]); reflexivity.
Defined.

(** ** What [update] and [destroy] leave alone *)

Lemma matches_same_store w w' query row :
  same_store w w' -> matches w' query row = matches w query row.
Proof.
  intros (_ & Hc & _). unfold matches. now rewrite Hc.
Qed.

Lemma table_rows_same_store w w' t :
  same_store w w' -> table_rows w' t = table_rows w t.
Proof.
  intros (Ht & _). unfold table_rows. now rewrite Ht.
Qed.

(** The world [update] ends in, once its [where] has been obtained:
    the one resolution left, or that one after the update statement. *)
Lemma update_world {C : Type} (models : CrudDefinition)
    (adapter : ContextAdapter C) model updateOptions c args w clauses :
  whereListOf c (update_where updateOptions) = Ok clauses ->
  exists w1,
    same_store w w1 /\
    (snd (update models adapter model updateOptions c args w) = w1 \/
     exists attributes,
       createAttributesPickerFunction models model adapter
         (update_attributes updateOptions) c
         (adapter_getRequestBody adapter c) args w = (Ok attributes, w1) /\
       snd (update models adapter model updateOptions c args w) =
       executed
         (Update
            (scopedQuery model (getScopes adapter c noLoadOptions) clauses)
            attributes)
         (map (fun r =>
                 if matches w1
                      (scopedQuery model (getScopes adapter c noLoadOptions)
                         clauses) r
                 then assign r attributes else r)
            (table_rows w1 model))
         model w1).
Proof.
  intros Hwhere. unfold update, bind, lift.
  rewrite (composed_query c _ model _ clauses Hwhere).
  destruct (createAttributesPickerFunction models model adapter
              (update_attributes updateOptions) c
              (adapter_getRequestBody adapter c) args w)
    as [[attributes|e] w1] eqn:Ep;
    pose proof (attributesPicker_store _ _ _ _ _ _ _ _ _ _ _ Ep) as Hs;
    exists w1; split; auto.
  right. exists attributes. split; auto.
  unfold executeUpdate. simpl.
  destruct (hd_error _); reflexivity.
Qed.

(** X8.  Whatever [update] returns or throws, it adds and removes no
    row, changes no other table, and leaves every row that does not
    satisfy its scoped query (all route parameters, then [where]) as
    it was. *)
Theorem update_stays_in_scope :
  forall (C : Type) (models : CrudDefinition) (adapter : ContextAdapter C)
         (model : string) (updateOptions : CrudControllerUpdateOptions C)
         (c : C) (args : option AnyObject) (w : World) (clauses : WhereList),
    whereListOf c (update_where updateOptions) = Ok clauses ->
    List.length
      (table_rows (snd (update models adapter model updateOptions c args w))
         model)
    = List.length (table_rows w model) /\
    (forall t,
        model <> t ->
        table_rows (snd (update models adapter model updateOptions c args w))
          t
        = table_rows w t) /\
    (forall row,
        In row (table_rows w model) ->
        matches w
          (scopedQuery model (getScopes adapter c noLoadOptions) clauses) row
        = false ->
        In row
          (table_rows
             (snd (update models adapter model updateOptions c args w))
             model)).
Proof.
  intros C models adapter model updateOptions c args w clauses Hwhere.
  destruct (update_world models adapter model updateOptions c args w clauses
              Hwhere) as (w1 & Hs & [Hw|(attributes & _ & Hw)]);
    rewrite Hw.
  - rewrite (table_rows_same_store w w1 model Hs). split; [reflexivity|].
    split.
    + intros t _. apply (table_rows_same_store w w1 t Hs).
    + auto.
  - rewrite table_rows_executed_same, length_map,
      (table_rows_same_store w w1 model Hs).
    split; [reflexivity|]. split.
    + intros t Hne. rewrite table_rows_executed_other by auto.
      apply (table_rows_same_store w w1 t Hs).
    + intros row Hin Hout. apply in_map_iff. exists row. split; auto.
      now rewrite (matches_same_store w w1 _ row Hs), Hout.
Qed.

Lemma update_stays_in_scope_witness :
  whereListOf Cases.putThing (update_where Cases.thingsUpdate) = Ok [] /\
  table_rows
    (snd (update HonoApp.databaseSchema HonoApp.adapter "things"
            Cases.thingsUpdate Cases.putThing None Cases.thingsWorld))
    "things"
  = [[("thing_id", VStr "t1"); ("user_id", VStr "u1"); ("name", VStr "hat")];
     [("thing_id", VStr "t2"); ("user_id", VStr "u2"); ("name", VStr "b")]]
  /\
  In [("thing_id", VStr "t2"); ("user_id", VStr "u2"); ("name", VStr "b")]
    (table_rows
       (snd (update HonoApp.databaseSchema HonoApp.adapter "things"
               Cases.thingsUpdate Cases.putThing None Cases.thingsWorld))
       "things").
Proof.
  split; [reflexivity|]. split; [reflexivity|].
  destruct (update_stays_in_scope HonoApp.Context HonoApp.databaseSchema
              HonoApp.adapter "things" Cases.thingsUpdate Cases.putThing None
              Cases.thingsWorld [] eq_refl) as (_ & _ & Hkept).
  apply Hkept.
  - right. now left.
  - reflexivity.
Defined.

Lemma executeDelete_eq query w :
  executeDelete query w =
  (Ok (List.length (matching w query)),
   executed (Delete query)
     (filter (fun r => negb (matches w query r))
        (table_rows w (qb_table query)))
     (qb_table query) w).
Proof. reflexivity. Qed.

Ltac destroy_tail w0 :=
  let Em := fresh "Em" in
  let H := fresh "H" in
  rewrite executeDelete_eq;
  destruct (matching w0 _) eqn:Em; simpl; intros H; inversion H; subst;
  exists w0; split; [reflexivity|]; split; [reflexivity|];
  split; [reflexivity|];
  split; [rewrite Em; discriminate|reflexivity].

Lemma matches_compare w w' query row :
  w_compare w' = w_compare w -> matches w' query row = matches w query row.
Proof. intros Hc. unfold matches. now rewrite Hc. Qed.

Lemma table_rows_tables w w' t :
  w_tables w' = w_tables w -> table_rows w' t = table_rows w t.
Proof. intros Ht. unfold table_rows. now rewrite Ht. Qed.

(** What a successful [destroy] did: some world with the tables of the
    initial one was handed the delete, and rows were deleted. *)
Lemma destroy_success {C : Type} (adapter : ContextAdapter C) model
    destroyOptions c w clauses v w' :
  whereListOf c (destroy_where destroyOptions) = Ok clauses ->
  destroy adapter model destroyOptions c w = (Ok v, w') ->
  exists w0,
    w_tables w0 = w_tables w /\
    w_compare w0 = w_compare w /\
    v = VObj [] /\
    matching w0
      (scopedQuery model (getScopes adapter c noLoadOptions) clauses) <> [] /\
    w' = executed
           (Delete
              (scopedQuery model (getScopes adapter c noLoadOptions) clauses))
           (filter
              (fun r =>
                 negb (matches w0
                         (scopedQuery model
                            (getScopes adapter c noLoadOptions) clauses) r))
              (table_rows w0 model))
           model w0.
Proof.
  intros Hwhere. unfold destroy, bind, lift.
  destruct (adapter_get adapter c
              (singularize model (destroyAsLoad destroyOptions))) eqn:Eg;
    unfold ret, throw;
    try (rewrite (composed_query c _ model _ clauses Hwhere);
         destroy_tail w).
  rewrite (load_eq adapter c model (destroyAsLoad destroyOptions) w clauses
             Hwhere).
  destruct (matching w _); [discriminate|].
  rewrite (composed_query c _ model _ clauses Hwhere).
  destroy_tail
    (logged
       (Select
          (scopedQuery model
             (getScopes adapter c (destroyAsLoad destroyOptions)) clauses))
       w).
Qed.

(** X9.  After a [destroy] that returns, the answer is the empty
    object, at least one row satisfied the scoped query, the table
    holds exactly the rows that did not satisfy it, and no other table
    has changed. *)
Theorem destroy_removes_the_scoped_rows :
  forall (C : Type) (adapter : ContextAdapter C) (model : string)
         (destroyOptions : CrudControllerDestroyOptions C) (c : C)
         (w w' : World) (clauses : WhereList) (v : value),
    whereListOf c (destroy_where destroyOptions) = Ok clauses ->
    destroy adapter model destroyOptions c w = (Ok v, w') ->
    v = VObj [] /\
    table_rows w' model
    = filter
        (fun r =>
           negb (matches w
                   (scopedQuery model (getScopes adapter c noLoadOptions)
                      clauses) r))
        (table_rows w model) /\
    matching w
      (scopedQuery model (getScopes adapter c noLoadOptions) clauses) <> [] /\
    (forall row,
        In row (table_rows w' model) ->
        matches w
          (scopedQuery model (getScopes adapter c noLoadOptions) clauses) row
        = false) /\
    (forall t, model <> t -> table_rows w' t = table_rows w t).
Proof.
  intros C adapter model destroyOptions c w w' clauses v Hwhere Hrun.
  destruct (destroy_success adapter model destroyOptions c w clauses v w'
              Hwhere Hrun) as (w0 & Ht & Hc & -> & Hsome & ->).
  assert (Hrows :
    table_rows
      (executed
         (Delete
            (scopedQuery model (getScopes adapter c noLoadOptions) clauses))
         (filter
            (fun r =>
               negb (matches w0
                       (scopedQuery model (getScopes adapter c noLoadOptions)
                          clauses) r))
            (table_rows w0 model)) model w0) model
    = filter
        (fun r =>
           negb (matches w
                   (scopedQuery model (getScopes adapter c noLoadOptions)
                      clauses) r))
        (table_rows w model)).
  { rewrite table_rows_executed_same, (table_rows_tables w w0 model Ht).
    apply filter_ext. intros r.
    now rewrite (matches_compare w w0 _ r Hc). }
  split; [reflexivity|]. split; [exact Hrows|]. split; [|split].
  - unfold matching in *. simpl in *.
    rewrite (table_rows_tables w w0 model Ht) in Hsome.
    intros Hnone. apply Hsome. rewrite <- Hnone.
    apply filter_ext. intros r. apply (matches_compare w w0 _ r Hc).
  - intros row Hin. rewrite Hrows in Hin. apply filter_In in Hin.
    destruct Hin as [_ Hm]. now apply negb_true_iff in Hm.
  - intros t Hne. rewrite table_rows_executed_other by auto.
    apply (table_rows_tables w w0 t Ht).
Qed.

Lemma destroy_removes_the_scoped_rows_witness :
  whereListOf Cases.putThing (destroy_where Fixtures.noDestroyOptions) = Ok []
  /\
  fst (destroy HonoApp.adapter "things" Fixtures.noDestroyOptions
         Cases.putThing Cases.thingsWorld) = Ok (VObj []) /\
  table_rows
    (snd (destroy HonoApp.adapter "things" Fixtures.noDestroyOptions
            Cases.putThing Cases.thingsWorld)) "things"
  = [[("thing_id", VStr "t2"); ("user_id", VStr "u2"); ("name", VStr "b")]].
Proof.
  split; [reflexivity|]. split; [reflexivity|].
  destruct (destroy_removes_the_scoped_rows HonoApp.Context HonoApp.adapter
              "things" Fixtures.noDestroyOptions Cases.putThing
              Cases.thingsWorld
              (snd (destroy HonoApp.adapter "things" Fixtures.noDestroyOptions
                      Cases.putThing Cases.thingsWorld))
              [] (VObj []) eq_refl eq_refl) as (_ & Hrows & _).
  rewrite Hrows. reflexivity.
Defined.

(** ** Where errors come from *)

Lemma load_error {C : Type} (adapter : ContextAdapter C) c model loadOptions
    w e :
  fst (load adapter c model loadOptions w) = Err e ->
  e = ECrud notFound \/ whereListOf c (load_where loadOptions) = Err e.
Proof.
  unfold load, bind, lift. rewrite whereOption_eq.
  destruct (whereListOf c (load_where loadOptions)) as [clauses|e0]; simpl.
  - unfold executeTakeFirst, execute, bind, ret, throw. simpl.
    destruct (filter _ _); simpl; intros H; inversion H. now left.
  - intros H; inversion H. now right.
Qed.

(** X10.  The only error the record actions raise of their own is
    [NotFoundError].  When [show] or [destroy] fails, the error is
    that one or what the [where] function threw; when [update] fails,
    it is that one, the schema's validation error, a [TypeError] of
    the runtime, or what the [where] function or a custom resolver
    threw. *)
Theorem record_actions_raise_not_found_only :
  forall (C : Type) (models : CrudDefinition) (adapter : ContextAdapter C)
         (model : string) (c : C) (w : World) (e : exn),
    (forall showOptions,
        fst (show adapter model showOptions c w) = Err e ->
        e = ECrud notFound \/
        whereListOf c (load_where showOptions) = Err e) /\
    (forall destroyOptions,
        fst (destroy adapter model destroyOptions c w) = Err e ->
        e = ECrud notFound \/
        whereListOf c (destroy_where destroyOptions) = Err e) /\
    (forall updateOptions args,
        fst (update models adapter model updateOptions c args w) = Err e ->
        e = ECrud notFound \/
        (exists issues, e = EZod issues) \/
        (exists msg, e = ETypeError msg) \/
        whereListOf c (update_where updateOptions) = Err e \/
        exists k fn,
          In (k, PFn fn) (update_attributes updateOptions) /\ fn c = Err e).
Proof.
  intros C models adapter model c w e. split; [|split].
  - intros showOptions. unfold show.
    destruct (adapter_get adapter c (singularize model showOptions));
      try discriminate.
    unfold bind.
    pose proof (load_error adapter c model showOptions w e) as Hl.
    destruct (load adapter c model showOptions w) as [[row|e0] w1];
      simpl in *; [discriminate|].
    intros H; inversion H; subst. auto.
  - intros destroyOptions.
    assert (Htail : forall w0,
      fst (bind
             (lift (whereOption c (destroy_where destroyOptions)
                      (whereScopes (getScopes adapter c noLoadOptions)
                         (from model))))
             (fun query =>
                bind (executeDelete query)
                  (fun numDeletedRows =>
                     match numDeletedRows with
                     | O => throw (ECrud notFound)
                     | S _ => ret (VObj [])
                     end)) w0) = Err e ->
      e = ECrud notFound \/
      whereListOf c (destroy_where destroyOptions) = Err e).
    { intros w0. unfold bind, lift. rewrite whereOption_eq.
      destruct (whereListOf c (destroy_where destroyOptions))
        as [clauses|e0]; simpl.
      - unfold executeDelete. simpl.
        destruct (List.length _); simpl; intros H; inversion H. now left.
      - intros H; inversion H. now right. }
    unfold destroy.
    destruct (adapter_get adapter c
                (singularize model (destroyAsLoad destroyOptions))) eqn:Eg;
      try (unfold bind at 1; unfold ret at 1; apply Htail).
    unfold bind at 1. unfold bind at 1.
    pose proof (load_error adapter c model (destroyAsLoad destroyOptions)
                  w e) as Hl.
    destruct (load adapter c model (destroyAsLoad destroyOptions) w)
      as [[row|e0] w1]; simpl in Hl.
    + unfold ret at 1. apply Htail.
    + simpl. intros H; inversion H; subst. apply Hl. reflexivity.
  - intros updateOptions args. unfold update, bind, lift.
    rewrite whereOption_eq.
    destruct (whereListOf c (update_where updateOptions)) as [clauses|e0];
      simpl; [|intros H; inversion H; auto].
    rewrite attributesPicker_eq.
    destruct (zod_parse _ _) as [parsed|e0] eqn:Ep.
    + destruct (foldM _ _ parsed w) as [[a|e0] w1] eqn:Ef.
      * unfold executeUpdate. simpl.
        destruct (hd_error _); simpl; intros H; inversion H. now left.
      * simpl. intros H; inversion H; subst.
        destruct (foldM_resolve_error _ _ _ _ _ _ _ _ _ Ef)
          as [Hmsg|Hfn];
          [right; right; left; exact Hmsg|do 4 right; exact Hfn].
    + simpl. intros H; inversion H; subst.
      destruct (zod_parse_error _ _ _ Ep) as [issues ->].
      right. left. eauto.
Qed.

Lemma record_actions_raise_not_found_only_witness :
  fst (show HonoApp.adapter "things" Cases.failingWhere Fixtures.nested
         Cases.thingsWorld) = Err (EThrown (VStr "boom")) /\
  (EThrown (VStr "boom") = ECrud notFound \/
   whereListOf Fixtures.nested (load_where Cases.failingWhere)
   = Err (EThrown (VStr "boom"))).
Proof.
  split; [reflexivity|].
  destruct (record_actions_raise_not_found_only HonoApp.Context
              HonoApp.databaseSchema HonoApp.adapter "things"
              Fixtures.nested Cases.thingsWorld (EThrown (VStr "boom")))
    as (Hshow & _ & _).
  apply (Hshow Cases.failingWhere). reflexivity.
Defined.

(** ** Writes *)

(** X11.  When attribute resolution throws, [create] and [update] throw
    the same error and nothing was sent to the store: no statement, no
    change to a table. *)
Theorem failed_resolution_writes_nothing :
  forall (C : Type) (models : CrudDefinition) (adapter : ContextAdapter C)
         (model : string) (picker : AttributesPicker C) (c : C)
         (args : option AnyObject) (w w1 : World) (e : exn),
    createAttributesPickerFunction models model adapter picker c
      (adapter_getRequestBody adapter c) args w = (Err e, w1) ->
    w_tables w1 = w_tables w /\
    w_trace w1 = w_trace w /\
    (forall createOptions,
        create_attributes createOptions = picker ->
        create models adapter model createOptions c args w = (Err e, w1)) /\
    (forall updateOptions clauses,
        update_attributes updateOptions = picker ->
        whereListOf c (update_where updateOptions) = Ok clauses ->
        update models adapter model updateOptions c args w = (Err e, w1)).
Proof.
  intros C models adapter model picker c args w w1 e Hpick.
  destruct (attributesPicker_store _ _ _ _ _ _ _ _ _ _ _ Hpick)
    as (Ht & _ & Htr & _).
  split; [exact Ht|]. split; [exact Htr|]. split.
  - intros createOptions Hp. unfold create, bind. now rewrite Hp, Hpick.
  - intros updateOptions clauses Hp Hwhere. unfold update, bind, lift.
    rewrite (composed_query c _ model _ clauses Hwhere).
    now rewrite Hp, Hpick.
Qed.

Lemma failed_resolution_writes_nothing_witness :
  createAttributesPickerFunction HonoApp.databaseSchema "users"
    HonoApp.adapter (create_attributes Fixtures.ownedCreate) Fixtures.putAnn
    (adapter_getRequestBody HonoApp.adapter Fixtures.putAnn) None
    (HonoApp.world Fixtures.inactiveUsers)
  = (Err (ETypeError "Cannot read properties of undefined"),
     HonoApp.world Fixtures.inactiveUsers) /\
  create HonoApp.databaseSchema HonoApp.adapter "users" Fixtures.ownedCreate
    Fixtures.putAnn None (HonoApp.world Fixtures.inactiveUsers)
  = (Err (ETypeError "Cannot read properties of undefined"),
     HonoApp.world Fixtures.inactiveUsers).
Proof.
  assert (Hpick :
    createAttributesPickerFunction HonoApp.databaseSchema "users"
      HonoApp.adapter (create_attributes Fixtures.ownedCreate) Fixtures.putAnn
      (adapter_getRequestBody HonoApp.adapter Fixtures.putAnn) None
      (HonoApp.world Fixtures.inactiveUsers)
    = (Err (ETypeError "Cannot read properties of undefined"),
       HonoApp.world Fixtures.inactiveUsers)) by reflexivity.
  split; [exact Hpick|].
  destruct (failed_resolution_writes_nothing HonoApp.Context
              HonoApp.databaseSchema HonoApp.adapter "users"
              (create_attributes Fixtures.ownedCreate) Fixtures.putAnn None
              (HonoApp.world Fixtures.inactiveUsers)
              (HonoApp.world Fixtures.inactiveUsers)
              (ETypeError "Cannot read properties of undefined") Hpick)
    as (_ & _ & Hcreate & _).
  apply Hcreate. reflexivity.
Defined.

(** X12.  A [create] that returns has sent the store exactly one
    statement: the insert of the resolved attributes into the model's
    table, with the caller's conflict clause.  It reads nothing and
    touches no other table. *)
Theorem create_sends_one_insert :
  forall (C : Type) (models : CrudDefinition) (adapter : ContextAdapter C)
         (model : string) (createOptions : CrudControllerCreateOptions C)
         (c : C) (args : option AnyObject) (w w' : World) (v : value),
    create models adapter model createOptions c args w = (Ok v, w') ->
    exists attributes w1,
      createAttributesPickerFunction models model adapter
        (create_attributes createOptions) c
        (adapter_getRequestBody adapter c) args w = (Ok attributes, w1) /\
      w_trace w' =
      w_trace w ++
      [Insert model attributes (create_onConflict createOptions)] /\
      (forall t, model <> t -> table_rows w' t = table_rows w t).
Proof.
  intros C models adapter model createOptions c args w w' v.
  unfold create, bind.
  destruct (createAttributesPickerFunction models model adapter
              (create_attributes createOptions) c
              (adapter_getRequestBody adapter c) args w)
    as [[attributes|e] w1] eqn:Ep; [|discriminate].
  unfold executeInsert, ret. intros H; inversion H; subst.
  destruct (attributesPicker_store _ _ _ _ _ _ _ _ _ _ _ Ep)
    as (Ht & _ & Htr & _).
  exists attributes, w1. split; [reflexivity|]. split.
  - simpl. now rewrite Htr.
  - intros t Hne. rewrite table_rows_executed_other by auto.
    now apply table_rows_tables.
Qed.

Lemma create_sends_one_insert_witness :
  create HonoApp.databaseSchema HonoApp.adapter "things"
    HonoApp.thingsCreate Cases.putThing None Cases.thingsWorld
  = (Ok (VObj [("name", VStr "hat"); ("thing_id", VStr "uuid-0");
               ("user_id", VStr "u1")]),
     snd (create HonoApp.databaseSchema HonoApp.adapter "things"
            HonoApp.thingsCreate Cases.putThing None Cases.thingsWorld)) /\
  exists attributes,
    w_trace (snd (create HonoApp.databaseSchema HonoApp.adapter "things"
                    HonoApp.thingsCreate Cases.putThing None
                    Cases.thingsWorld))
    = [Insert "things" attributes None].
Proof.
  assert (Hrun :
    create HonoApp.databaseSchema HonoApp.adapter "things"
      HonoApp.thingsCreate Cases.putThing None Cases.thingsWorld
    = (Ok (VObj [("name", VStr "hat"); ("thing_id", VStr "uuid-0");
                 ("user_id", VStr "u1")]),
       snd (create HonoApp.databaseSchema HonoApp.adapter "things"
              HonoApp.thingsCreate Cases.putThing None Cases.thingsWorld)))
    by reflexivity.
  split; [exact Hrun|].
  destruct (create_sends_one_insert HonoApp.Context HonoApp.databaseSchema
              HonoApp.adapter "things" HonoApp.thingsCreate Cases.putThing
              None Cases.thingsWorld _ _ Hrun)
    as (attributes & w1 & _ & Htrace & _).
  exists attributes. exact Htrace.
Defined.

(** ** The resolved record, field by field *)

Lemma field_output_lookup data (s : ZodObject) k :
  obj_lookup (flat_map (field_output data) s) k
  = if named k (obj_keys s) then obj_lookup data k else None.
Proof.
  unfold named, obj_keys.
  induction s as [|[k0 t0] s IH]; simpl; auto.
  unfold field_output at 1. simpl.
  destruct (String.eqb k k0) eqn:E; simpl.
  - apply String.eqb_eq in E. subst k0.
    destruct (obj_lookup data k) as [v|] eqn:El; simpl.
    + now rewrite String.eqb_refl.
    + rewrite IH. now destruct (existsb _ _).
  - destruct (obj_lookup data k0); simpl; auto.
    rewrite String.eqb_sym, E. exact IH.
Qed.

Lemma zod_parse_lookup (s : ZodObject) data parsed k :
  zod_parse s (VObj data) = Ok parsed ->
  obj_lookup parsed k
  = if named k (obj_keys s) then obj_lookup data k else None.
Proof.
  unfold zod_parse.
  destruct (flat_map (field_issues data) s); [|discriminate].
  intros H; inversion H; subst. apply field_output_lookup.
Qed.

Lemma named_In k names : named k names = true <-> In k names.
Proof. apply existsb_eqb_In. Qed.

Lemma zod_pick_declared_from (s : ZodObject) mask acc k :
  In k (obj_keys
          (fold_left
             (fun shape (entry : string * bool) =>
                match snd entry, obj_lookup s (fst entry) with
                | true, Some t => obj_set shape (fst entry) t
                | _, _ => shape
                end) mask acc)) ->
  In k (obj_keys acc) \/ exists t, obj_lookup s k = Some t.
Proof.
  revert acc. induction mask as [|[k' b] mask IH]; simpl; intros acc H.
  - now left.
  - destruct (IH _ H) as [Hacc|Hd]; [|now right].
    destruct b; auto. destruct (obj_lookup s k') as [t|] eqn:El; auto.
    destruct (obj_keys_set _ _ _ _ Hacc) as [->|]; eauto.
Qed.

Lemma zod_pick_declared (s : ZodObject) mask k :
  In k (obj_keys (zod_pick s mask)) -> exists t, obj_lookup s k = Some t.
Proof.
  intros H. destruct (zod_pick_declared_from s mask [] k H) as [[]|]; auto.
Qed.

(** X13.  In a picker whose fields are distinct, every declared field
    ends up holding the coerced value of its own source: the validated
    payload for ["payload"], the contextual store for ["get"], the bag
    for ["arg"], the route for ["param"], a generated identifier, the
    clock, [null], the [DEFAULT] marker, or the settled value of its
    custom resolver; a ["payload"] field holds what the raw payload
    has under that name when the model declares it. *)
Theorem declared_fields_resolve_from_their_source :
  forall (C : Type) (models : CrudDefinition) (model : string)
         (adapter : ContextAdapter C) (picker : AttributesPicker C) (c : C)
         (payload : value) (args : option AnyObject) (w w' : World)
         (parsed attributes : AnyObject),
    NoDup (obj_keys picker) ->
    zod_parse (schema models model picker) payload = Ok parsed ->
    createAttributesPickerFunction models model adapter picker c payload args
      w = (Ok attributes, w') ->
    (forall k t,
        In (k, t) picker ->
        exists raw,
          Resolves adapter c args parsed w k t raw /\
          obj_lookup attributes k = option_map coerce raw) /\
    (forall k declared data,
        In (k, PPayload) picker ->
        obj_lookup (models model) k = Some declared ->
        payload = VObj data ->
        obj_lookup attributes k = option_map coerce (obj_lookup data k)).
Proof.
  intros C models model adapter picker c payload args w w' parsed attributes
    Hnd Hparse Hrun.
  rewrite attributesPicker_eq, Hparse in Hrun.
  assert (Hfield : forall k t,
             In (k, t) picker ->
             exists raw,
               Resolves adapter c args parsed w k t raw /\
               obj_lookup attributes k = option_map coerce raw).
  { intros k t Hin.
    exact (foldM_resolve_field C adapter c args picker parsed w attributes w'
             k t Hnd Hin Hrun). }
  split; [exact Hfield|].
  intros k declared data Hin Hdecl ->.
  destruct (Hfield k PPayload Hin) as (raw & Hr & Hv).
  inversion Hr; subst. rewrite Hv. f_equal.
  rewrite (zod_parse_lookup _ _ _ k Hparse).
  assert (Hk : named k (obj_keys (schema models model picker)) = true).
  { apply named_In.
    apply (obj_lookup_keys _ k declared).
    apply In_obj_lookup; [apply zod_pick_NoDup|].
    now apply schema_has_payload. }
  now rewrite Hk.
Qed.

Lemma declared_fields_resolve_from_their_source_witness :
  createAttributesPickerFunction Cases.everySchema "things" HonoApp.adapter
    Cases.everySource Cases.everyRequest
    (adapter_getRequestBody HonoApp.adapter Cases.everyRequest)
    (Some [("rank", VNum 7)]) (HonoApp.world [])
  = (Ok [("name", VStr "hat"); ("id", VStr "uuid-0");
         ("token", VStr "uuid-1"); ("owner", VStr "o1");
         ("user_id", VStr "u1"); ("rank", VNum 7);
         ("created", VStr "2023-01-01T00:00:00.000Z"); ("note", VNull);
         ("state", VRaw "DEFAULT"); ("ready", VStr "1")],
     mkWorld [] HonoApp.compare [] HonoApp.uuid 2
       "2023-01-01T00:00:00.000Z") /\
  (exists raw,
      Resolves HonoApp.adapter Cases.everyRequest (Some [("rank", VNum 7)])
        [("name", VStr "hat")] (HonoApp.world []) "rank" PArg raw /\
      Some (VNum 7) = option_map coerce raw).
Proof.
  assert (Hrun :
    createAttributesPickerFunction Cases.everySchema "things" HonoApp.adapter
      Cases.everySource Cases.everyRequest
      (adapter_getRequestBody HonoApp.adapter Cases.everyRequest)
      (Some [("rank", VNum 7)]) (HonoApp.world [])
    = (Ok [("name", VStr "hat"); ("id", VStr "uuid-0");
           ("token", VStr "uuid-1"); ("owner", VStr "o1");
           ("user_id", VStr "u1"); ("rank", VNum 7);
           ("created", VStr "2023-01-01T00:00:00.000Z"); ("note", VNull);
           ("state", VRaw "DEFAULT"); ("ready", VStr "1")],
       mkWorld [] HonoApp.compare [] HonoApp.uuid 2
         "2023-01-01T00:00:00.000Z")) by reflexivity.
  split; [exact Hrun|].
  assert (Hnd : NoDup (obj_keys Cases.everySource)).
  { repeat constructor; simpl; intuition discriminate. }
  destruct (declared_fields_resolve_from_their_source HonoApp.Context
              Cases.everySchema "things" HonoApp.adapter Cases.everySource
              Cases.everyRequest
              (adapter_getRequestBody HonoApp.adapter Cases.everyRequest)
              (Some [("rank", VNum 7)]) (HonoApp.world []) _
              [("name", VStr "hat")] _ Hnd eq_refl Hrun) as [Hfield _].
  apply (Hfield "rank" PArg). simpl. tauto.
Defined.

(** X14.  A field declared ["payload"] that the model's schema does not
    declare is neither validated nor copied: whatever the raw payload
    holds under that name, the resolved record has no such field. *)
Theorem undeclared_payload_field_is_dropped :
  forall (C : Type) (models : CrudDefinition) (model : string)
         (adapter : ContextAdapter C) (picker : AttributesPicker C) (c : C)
         (payload : value) (args : option AnyObject) (w w' : World)
         (attributes : AnyObject) (k : string),
    NoDup (obj_keys picker) ->
    In (k, PPayload) picker ->
    obj_lookup (models model) k = None ->
    createAttributesPickerFunction models model adapter picker c payload args
      w = (Ok attributes, w') ->
    obj_lookup attributes k = None.
Proof.
  intros C models model adapter picker c payload args w w' attributes k
    Hnd Hin Hnone Hrun.
  rewrite attributesPicker_eq in Hrun.
  destruct (zod_parse (schema models model picker) payload) as [parsed|e]
    eqn:Ep; [|discriminate].
  destruct (foldM_resolve_field C adapter c args picker parsed w attributes w'
              k PPayload Hnd Hin Hrun) as (raw & Hr & Hv).
  inversion Hr; subst. rewrite Hv.
  destruct (obj_lookup parsed k) as [v|] eqn:El; auto.
  apply obj_lookup_keys in El.
  apply (zod_parse_keys _ _ _ k Ep) in El.
  apply zod_pick_declared in El. destruct El as [t Ht]. congruence.
Qed.

Lemma undeclared_payload_field_is_dropped_witness :
  obj_lookup (HonoApp.databaseSchema "users") "admin" = None /\
  createAttributesPickerFunction HonoApp.databaseSchema "users"
    HonoApp.adapter Cases.strayPicker Fixtures.putAnn Cases.strayBody None
    (HonoApp.world [])
  = (Ok [("name", VStr "Ann")], HonoApp.world []) /\
  obj_lookup [("name", VStr "Ann")] "admin" = None.
Proof.
  split; [reflexivity|].
  assert (Hrun :
    createAttributesPickerFunction HonoApp.databaseSchema "users"
      HonoApp.adapter Cases.strayPicker Fixtures.putAnn Cases.strayBody None
      (HonoApp.world [])
    = (Ok [("name", VStr "Ann")], HonoApp.world [])) by reflexivity.
  split; [exact Hrun|].
  apply (undeclared_payload_field_is_dropped HonoApp.Context
           HonoApp.databaseSchema "users" HonoApp.adapter Cases.strayPicker
           Fixtures.putAnn Cases.strayBody None (HonoApp.world [])
           (HonoApp.world []) [("name", VStr "Ann")] "admin").
  - repeat constructor; simpl; intuition discriminate.
  - right. now left.
  - reflexivity.
  - exact Hrun.
Defined.

(** ** Custom resolvers *)

Lemma foldM_null_resolver {C : Type} (adapter : ContextAdapter C) c args
    (picker : AttributesPicker C) attributes w k fn :
  In (k, PFn fn) picker ->
  fn c = Ok VNull ->
  exists e,
    fst (foldM (resolveField adapter c args) picker attributes w) = Err e.
Proof.
  intros Hin Hnull. revert attributes w.
  induction picker as [|[key t] picker IH]; simpl; intros attributes w;
    [contradiction|].
  unfold bind.
  destruct (resolveField adapter c args attributes (key, t) w)
    as [[a|e0] w1] eqn:E; [|exists e0; reflexivity].
  destruct Hin as [Heq|Hin]; [|now apply IH].
  inversion Heq; subst. revert E.
  unfold resolveField, assignSource, bind, lift. simpl.
  rewrite Hnull. simpl. discriminate.
Qed.

Lemma await_is_settled v : is_promise (await v) = false.
Proof. induction v; simpl; auto. Qed.

Lemma settle_is_settled fnValue v :
  settle fnValue = Ok v -> is_promise v = false.
Proof.
  unfold settle. destruct fnValue; simpl; intros H; inversion H; auto.
  - destruct (obj_has fields "then"); inversion H; reflexivity.
  - apply await_is_settled.
Qed.

Lemma coerce_is_settled v :
  is_promise v = false -> is_promise (coerce v) = false.
Proof. destruct v; simpl; auto. Qed.

(** X15.  A custom resolver that returns [null] makes attribute
    resolution fail, whatever the payload and the arguments: [null] is
    of type ["object"] and has no properties to search for [then].
    One that returns a promise of [null] is awaited, and its field
    holds [null]. *)
Theorem null_from_a_resolver_throws :
  forall (C : Type) (models : CrudDefinition) (model : string)
         (adapter : ContextAdapter C) (picker : AttributesPicker C) (c : C)
         (k : string) (fn : AttributeFn C),
    In (k, PFn fn) picker ->
    (fn c = Ok VNull ->
     forall payload args w,
     exists e,
       fst (createAttributesPickerFunction models model adapter picker c
              payload args w) = Err e) /\
    (fn c = Ok (VPromise VNull) ->
     NoDup (obj_keys picker) ->
     forall payload args w attributes w',
       createAttributesPickerFunction models model adapter picker c payload
         args w = (Ok attributes, w') ->
       obj_lookup attributes k = Some VNull).
Proof.
  intros C models model adapter picker c k fn Hin. split.
  - intros Hnull payload args w. rewrite attributesPicker_eq.
    destruct (zod_parse (schema models model picker) payload) as [parsed|e].
    + eapply foldM_null_resolver; eauto.
    + exists e. reflexivity.
  - intros Hlater Hnd payload args w attributes w' Hrun.
    rewrite attributesPicker_eq in Hrun.
    destruct (zod_parse (schema models model picker) payload) as [parsed|e];
      [|discriminate].
    destruct (foldM_resolve_field C adapter c args picker parsed w attributes
                w' k (PFn fn) Hnd Hin Hrun) as (raw & Hr & Hv).
    inversion Hr; subst. rewrite Hv.
    match goal with
    | Hf : fn c = Ok ?x, Hs : settle ?x = Ok ?y |- _ =>
        rewrite Hlater in Hf; inversion Hf; subst; simpl in Hs;
        inversion Hs; subst
    end.
    reflexivity.
Qed.

Lemma null_from_a_resolver_throws_witness :
  fst (createAttributesPickerFunction HonoApp.databaseSchema "users"
         HonoApp.adapter Cases.nullNow Fixtures.putAnn (VObj []) None
         (HonoApp.world []))
  = Err (ETypeError "Cannot use 'in' operator to search for 'then' in null")
  /\
  (exists e,
      fst (createAttributesPickerFunction HonoApp.databaseSchema "users"
             HonoApp.adapter Cases.nullNow Fixtures.putAnn (VObj []) None
             (HonoApp.world [])) = Err e) /\
  createAttributesPickerFunction HonoApp.databaseSchema "users"
    HonoApp.adapter Cases.nullLater Fixtures.putAnn (VObj []) None
    (HonoApp.world [])
  = (Ok [("name", VNull)], HonoApp.world []).
Proof.
  split; [reflexivity|]. split; [|reflexivity].
  destruct (null_from_a_resolver_throws HonoApp.Context
              HonoApp.databaseSchema "users" HonoApp.adapter Cases.nullNow
              Fixtures.putAnn "name" (fun _ => Ok VNull)
              (or_introl eq_refl)) as [Hnow _].
  apply Hnow. reflexivity.
Defined.

(** X16.  The value a custom resolver's field holds is never a pending
    promise: a thenable is awaited before it is assigned. *)
Theorem resolver_fields_hold_settled_values :
  forall (C : Type) (models : CrudDefinition) (model : string)
         (adapter : ContextAdapter C) (picker : AttributesPicker C) (c : C)
         (payload : value) (args : option AnyObject) (w w' : World)
         (attributes : AnyObject) (k : string) (fn : AttributeFn C)
         (v : value),
    NoDup (obj_keys picker) ->
    In (k, PFn fn) picker ->
    createAttributesPickerFunction models model adapter picker c payload args
      w = (Ok attributes, w') ->
    obj_lookup attributes k = Some v ->
    is_promise v = false.
Proof.
  intros C models model adapter picker c payload args w w' attributes k fn v
    Hnd Hin Hrun Hv.
  rewrite attributesPicker_eq in Hrun.
  destruct (zod_parse (schema models model picker) payload) as [parsed|e];
    [|discriminate].
  destruct (foldM_resolve_field C adapter c args picker parsed w attributes
              w' k (PFn fn) Hnd Hin Hrun) as (raw & Hr & Hraw).
  inversion Hr; subst. rewrite Hraw in Hv. simpl in Hv. inversion Hv.
  apply coerce_is_settled. eapply settle_is_settled; eauto.
Qed.

Lemma resolver_fields_hold_settled_values_witness :
  createAttributesPickerFunction Fixtures.flagsSchema "flags" HonoApp.adapter
    Fixtures.flagsPicker Fixtures.flagsRequest Fixtures.flagsBody None
    (HonoApp.world [])
  = (Ok [("active", VStr "1"); ("admin", VStr "0"); ("owner", VStr "1")],
     HonoApp.world []) /\
  is_promise (VStr "0") = false.
Proof.
  assert (Hrun :
    createAttributesPickerFunction Fixtures.flagsSchema "flags"
      HonoApp.adapter Fixtures.flagsPicker Fixtures.flagsRequest
      Fixtures.flagsBody None (HonoApp.world [])
    = (Ok [("active", VStr "1"); ("admin", VStr "0"); ("owner", VStr "1")],
       HonoApp.world [])) by reflexivity.
  split; [exact Hrun|].
  apply (resolver_fields_hold_settled_values HonoApp.Context
           Fixtures.flagsSchema "flags" HonoApp.adapter Fixtures.flagsPicker
           Fixtures.flagsRequest Fixtures.flagsBody None (HonoApp.world [])
           (HonoApp.world [])
           [("active", VStr "1"); ("admin", VStr "0"); ("owner", VStr "1")]
           "admin" (fun _ => Ok (VPromise (VBool false))) (VStr "0")).
  - repeat constructor; simpl; intuition discriminate.
  - right. now left.
  - exact Hrun.
  - reflexivity.
Defined.

(** ** Generated identifiers *)

Section Identifiers.
Variable C : Type.
Variable adapter : ContextAdapter C.
Implicit Types (picker : AttributesPicker C) (c : C).

Lemma foldM_app c args picker1 picker2 attributes w :
  foldM (resolveField adapter c args) (picker1 ++ picker2) attributes w =
  match foldM (resolveField adapter c args) picker1 attributes w with
  | (Ok a, w1) => foldM (resolveField adapter c args) picker2 a w1
  | (Err e, w1) => (Err e, w1)
  end.
Proof.
  revert attributes w.
  induction picker1 as [|entry picker1 IH]; intros attributes w; simpl; auto.
  unfold bind.
  destruct (resolveField adapter c args attributes entry w) as [[a|e] w1];
    auto.
Qed.

Lemma resolveField_next c args attributes key t w r w' :
  resolveField adapter c args attributes (key, t) w = (Ok r, w') ->
  w_next w' = w_next w + count_uuid [(key, t)].
Proof.
  unfold resolveField, assignSource, bind, ret, throw, lift, randomUUID,
    toISOString, count_uuid. simpl.
  destruct t; simpl;
    try (intros H; inversion H; subst; simpl; lia).
  - destruct args; simpl; intros H; inversion H; subst. lia.
  - destruct (fn c) as [fnValue|e]; simpl; [|discriminate].
    destruct (settle fnValue) as [v|e]; simpl; [|discriminate].
    intros H; inversion H; subst. lia.
Qed.

Lemma count_uuid_cons (entry : string * PickerType C) picker :
  count_uuid (entry :: picker) = count_uuid [entry] + count_uuid picker.
Proof.
  unfold count_uuid. simpl. destruct (snd entry); reflexivity.
Qed.

Lemma count_uuid_app picker1 picker2 :
  count_uuid (picker1 ++ picker2) = count_uuid picker1 + count_uuid picker2.
Proof.
  unfold count_uuid. now rewrite filter_app, length_app.
Qed.

Lemma foldM_next c args picker attributes w r w' :
  foldM (resolveField adapter c args) picker attributes w = (Ok r, w') ->
  w_next w' = w_next w + count_uuid picker.
Proof.
  revert attributes w.
  induction picker as [|[key t] picker IH]; simpl; intros attributes w.
  - unfold ret, count_uuid. intros H; inversion H; subst. simpl. lia.
  - unfold bind.
    destruct (resolveField adapter c args attributes (key, t) w)
      as [[a|e] w1] eqn:E; [|discriminate].
    intros H. apply IH in H. apply resolveField_next in E.
    rewrite (count_uuid_cons (key, t) picker). lia.
Qed.

Lemma foldM_uuid_field c args before after key attributes w r w' :
  NoDup (obj_keys (before ++ (key, PUuid) :: after)) ->
  foldM (resolveField adapter c args) (before ++ (key, PUuid) :: after)
    attributes w = (Ok r, w') ->
  obj_lookup r key = Some (VStr (w_uuid w (w_next w + count_uuid before))).
Proof.
  intros Hnd. rewrite foldM_app.
  destruct (foldM (resolveField adapter c args) before attributes w)
    as [[a1|e] w1] eqn:E1; [|discriminate].
  pose proof (foldM_next _ _ _ _ _ _ _ E1) as Hnext.
  destruct (foldM_resolve_store _ _ _ _ _ _ _ _ _ E1)
    as (_ & _ & _ & Hu & _).
  simpl. unfold bind at 1.
  unfold resolveField, assignSource, bind, ret, randomUUID. simpl.
  intros H.
  assert (Hafter : ~ In key (obj_keys after)).
  { unfold obj_keys in *. rewrite map_app in Hnd. simpl in Hnd.
    apply NoDup_remove_2 in Hnd. intros Hin. apply Hnd.
    apply in_or_app. now right. }
  rewrite (foldM_resolve_other C adapter c args after _ _ r w' key Hafter H).
  rewrite coerceBoolean_lookup_same, obj_lookup_set_same. simpl.
  now rewrite Hu, Hnext.
Qed.

End Identifiers.

(** X17.  Identifiers are handed out in declaration order, one per
    ["uuid"] field: the field after [n] other ["uuid"] fields holds
    the runtime's [n]-th next identifier, resolution consumes exactly
    as many identifiers as the picker declares, and so two ["uuid"]
    fields of one record hold different identifiers whenever the
    runtime never repeats one. *)
Theorem generated_identifiers_are_fresh :
  forall (C : Type) (models : CrudDefinition) (model : string)
         (adapter : ContextAdapter C) (picker : AttributesPicker C) (c : C)
         (payload : value) (args : option AnyObject) (w w' : World)
         (attributes : AnyObject),
    NoDup (obj_keys picker) ->
    createAttributesPickerFunction models model adapter picker c payload args
      w = (Ok attributes, w') ->
    w_next w' = w_next w + count_uuid picker /\
    (forall before key after,
        picker = before ++ (key, PUuid) :: after ->
        obj_lookup attributes key
        = Some (VStr (w_uuid w (w_next w + count_uuid before)))) /\
    (forall before key1 between key2 after,
        picker = before ++ (key1, PUuid) :: between ++ (key2, PUuid) :: after ->
        (forall i j, w_uuid w i = w_uuid w j -> i = j) ->
        obj_lookup attributes key1 <> obj_lookup attributes key2).
Proof.
  intros C models model adapter picker c payload args w w' attributes
    Hnd Hrun.
  rewrite attributesPicker_eq in Hrun.
  destruct (zod_parse (schema models model picker) payload) as [parsed|e];
    [|discriminate].
  assert (Hfield : forall before key after,
             picker = before ++ (key, PUuid) :: after ->
             obj_lookup attributes key
             = Some (VStr (w_uuid w (w_next w + count_uuid before)))).
  { intros before key after Hsplit. subst picker.
    eapply foldM_uuid_field; eauto. }
  split; [eapply foldM_next; eauto|]. split; [exact Hfield|].
  intros before key1 between key2 after Hsplit Hinj.
  rewrite (Hfield before key1 (between ++ (key2, PUuid) :: after) Hsplit).
  rewrite (Hfield (before ++ (key1, PUuid) :: between) key2 after).
  - intros Heq. inversion Heq as [Hu]. apply Hinj in Hu.
    rewrite count_uuid_app, (count_uuid_cons C (key1, PUuid) between) in Hu.
    change (count_uuid [(key1, @PUuid C)]) with 1 in Hu. lia.
  - rewrite Hsplit, <- app_assoc. reflexivity.
Qed.

Lemma generated_identifiers_are_fresh_witness :
  createAttributesPickerFunction Cases.everySchema "things" HonoApp.adapter
    Cases.everySource Cases.everyRequest
    (adapter_getRequestBody HonoApp.adapter Cases.everyRequest)
    (Some [("rank", VNum 7)]) (HonoApp.world [])
  = (Ok [("name", VStr "hat"); ("id", VStr "uuid-0");
         ("token", VStr "uuid-1"); ("owner", VStr "o1");
         ("user_id", VStr "u1"); ("rank", VNum 7);
         ("created", VStr "2023-01-01T00:00:00.000Z"); ("note", VNull);
         ("state", VRaw "DEFAULT"); ("ready", VStr "1")],
     mkWorld [] HonoApp.compare [] HonoApp.uuid 2
       "2023-01-01T00:00:00.000Z") /\
  obj_lookup
    [("name", VStr "hat"); ("id", VStr "uuid-0");
     ("token", VStr "uuid-1"); ("owner", VStr "o1");
     ("user_id", VStr "u1"); ("rank", VNum 7);
     ("created", VStr "2023-01-01T00:00:00.000Z"); ("note", VNull);
     ("state", VRaw "DEFAULT"); ("ready", VStr "1")] "token"
  = Some (VStr (HonoApp.uuid 1)).
Proof.
  assert (Hrun :
    createAttributesPickerFunction Cases.everySchema "things" HonoApp.adapter
      Cases.everySource Cases.everyRequest
      (adapter_getRequestBody HonoApp.adapter Cases.everyRequest)
      (Some [("rank", VNum 7)]) (HonoApp.world [])
    = (Ok [("name", VStr "hat"); ("id", VStr "uuid-0");
           ("token", VStr "uuid-1"); ("owner", VStr "o1");
           ("user_id", VStr "u1"); ("rank", VNum 7);
           ("created", VStr "2023-01-01T00:00:00.000Z"); ("note", VNull);
           ("state", VRaw "DEFAULT"); ("ready", VStr "1")],
       mkWorld [] HonoApp.compare [] HonoApp.uuid 2
         "2023-01-01T00:00:00.000Z")) by reflexivity.
  split; [exact Hrun|].
  assert (Hnd : NoDup (obj_keys Cases.everySource)).
  { repeat constructor; simpl; intuition discriminate. }
  destruct (generated_identifiers_are_fresh HonoApp.Context Cases.everySchema
              "things" HonoApp.adapter Cases.everySource Cases.everyRequest
              (adapter_getRequestBody HonoApp.adapter Cases.everyRequest)
              (Some [("rank", VNum 7)]) (HonoApp.world []) _ _ Hnd Hrun)
    as (_ & Hfield & _).
  apply (Hfield [("id", PUuid)] "token"
           [("owner", PGet); ("user_id", PParam); ("rank", PArg);
            ("name", PPayload); ("created", PInsertedAt); ("note", PNull);
            ("state", PDefault);
            ("ready", PFn (fun _ => Ok (VPromise (VBool true))))]).
  reflexivity.
Defined.

(** ** The [execute*] methods *)

(** X18.  [executeCreate] and [executeUpdate] apply the action to the
    context alone, so an attribute specification with an ["arg"] field
    can never be resolved through them: they always throw, and send
    the store nothing. *)
Theorem execute_methods_pass_no_arguments :
  forall (C : Type) (models : CrudDefinition) (adapter : ContextAdapter C)
         (model : string) (picker : AttributesPicker C) (c : C) (w : World)
         (k : string),
    In (k, PArg) picker ->
    (forall createOptions,
        create_attributes createOptions = picker ->
        exists e,
          fst (CrudController.executeCreate models adapter c model
                 createOptions w) = Err e /\
          w_trace (snd (CrudController.executeCreate models adapter c model
                          createOptions w)) = w_trace w) /\
    (forall updateOptions,
        update_attributes updateOptions = picker ->
        exists e,
          fst (CrudController.executeUpdate models adapter c model
                 updateOptions w) = Err e /\
          w_trace (snd (CrudController.executeUpdate models adapter c model
                          updateOptions w)) = w_trace w).
Proof.
  intros C models adapter model picker c w k Hin.
  assert (Hpick : forall payload,
             exists e w1,
               createAttributesPickerFunction models model adapter picker c
                 payload None w = (Err e, w1) /\ w_trace w1 = w_trace w).
  { intros payload.
    destruct (createAttributesPickerFunction models model adapter picker c
                payload None w) as [[a|e] w1] eqn:Ep.
    - exfalso. rewrite attributesPicker_eq in Ep.
      destruct (zod_parse (schema models model picker) payload)
        as [parsed|e]; [|discriminate].
      destruct (foldM_arg_absent C adapter c picker parsed w k Hin)
        as [e He].
      rewrite Ep in He. discriminate.
    - exists e, w1. split; auto.
      destruct (attributesPicker_store _ _ _ _ _ _ _ _ _ _ _ Ep)
        as (_ & _ & Htr & _). exact Htr. }
  split.
  - intros createOptions Hp.
    unfold CrudController.executeCreate, create, bind. rewrite Hp.
    destruct (Hpick (adapter_getRequestBody adapter c))
      as (e & w1 & Hrun & Htr).
    rewrite Hrun. exists e. auto.
  - intros updateOptions Hp.
    unfold CrudController.executeUpdate, update, bind, lift. rewrite Hp.
    destruct (whereOption c (update_where updateOptions)
                (whereScopes (getScopes adapter c noLoadOptions)
                   (from model))) as [q|e]; [|exists e; auto].
    destruct (Hpick (adapter_getRequestBody adapter c))
      as (e & w1 & Hrun & Htr).
    rewrite Hrun. exists e. auto.
Qed.

Lemma execute_methods_pass_no_arguments_witness :
  In ("owner", @PArg HonoApp.Context) (create_attributes Fixtures.ownedCreate)
  /\
  exists e,
    fst (CrudController.executeCreate HonoApp.databaseSchema HonoApp.adapter
           Fixtures.putAnn "users" Fixtures.ownedCreate (HonoApp.world []))
    = Err e /\
    w_trace
      (snd (CrudController.executeCreate HonoApp.databaseSchema
              HonoApp.adapter Fixtures.putAnn "users" Fixtures.ownedCreate
              (HonoApp.world []))) = [].
Proof.
  assert (Hin : In ("owner", @PArg HonoApp.Context)
                  (create_attributes Fixtures.ownedCreate))
    by (right; now left).
  split; [exact Hin|].
  destruct (execute_methods_pass_no_arguments HonoApp.Context
              HonoApp.databaseSchema HonoApp.adapter "users"
              (create_attributes Fixtures.ownedCreate) Fixtures.putAnn
              (HonoApp.world []) "owner" Hin) as [Hcreate _].
  apply (Hcreate Fixtures.ownedCreate). reflexivity.
Defined.

(** ** The loader *)

Section Loader.
Variable C : Type.
Variable adapter : ContextAdapter C.
(** The contextual store gives back what was put in it. *)
Hypothesis stored :
  forall c key v, adapter_get adapter (adapter_set adapter c key v) key = v.

(** X19.  A loader that finds its record runs the rest of the chain on
    the context in which the record is stored under the singular key,
    and in that context [show], with the same options, returns the
    record and sends the store nothing more. *)
Theorem loader_hands_the_record_on :
  forall (model : string) (loadOptions : CrudControllerLoadOptions C) (c : C)
         (w w1 : World) (row : AnyObject),
    load adapter c model loadOptions w = (Ok row, w1) ->
    (forall next,
        loader adapter model loadOptions c next w =
        match next (adapter_set adapter c (singularize model loadOptions)
                      (VObj row)) w1 with
        | (Ok _, w2) => (Ok tt, w2)
        | (Err e, w2) => (Err e, w2)
        end) /\
    show adapter model loadOptions
      (adapter_set adapter c (singularize model loadOptions) (VObj row)) w1
    = (Ok (VObj row), w1) /\
    loader adapter model loadOptions c (show adapter model loadOptions) w
    = (Ok tt, w1).
Proof.
  intros model loadOptions c w w1 row Hload.
  assert (Hshow :
    show adapter model loadOptions
      (adapter_set adapter c (singularize model loadOptions) (VObj row)) w1
    = (Ok (VObj row), w1)).
  { unfold show. now rewrite stored. }
  split; [|split; [exact Hshow|]].
  - intros next. unfold loader, bind. rewrite Hload.
    destruct (next _ w1) as [[v|e] w2]; reflexivity.
  - unfold loader, bind. now rewrite Hload, Hshow.
Qed.

End Loader.

Lemma loader_hands_the_record_on_witness :
  (forall c key v,
      adapter_get HonoApp.adapter (adapter_set HonoApp.adapter c key v) key
      = v) /\
  load HonoApp.adapter Cases.putThing "things" Fixtures.noOptions
    Cases.thingsWorld
  = (Ok [("thing_id", VStr "t1"); ("user_id", VStr "u1"); ("name", VStr "a")],
     logged
       (Select (mkQuery "things"
                  [("user_id", "=", VStr "u1"); ("thing_id", "=", VStr "t1")]))
       Cases.thingsWorld) /\
  loader HonoApp.adapter "things" Fixtures.noOptions Cases.putThing
    (show HonoApp.adapter "things" Fixtures.noOptions) Cases.thingsWorld
  = (Ok tt,
     logged
       (Select (mkQuery "things"
                  [("user_id", "=", VStr "u1"); ("thing_id", "=", VStr "t1")]))
       Cases.thingsWorld).
Proof.
  assert (Hstored : forall c key v,
             adapter_get HonoApp.adapter
               (adapter_set HonoApp.adapter c key v) key = v).
  { intros c key v. simpl. apply obj_get_set_same. }
  assert (Hload :
    load HonoApp.adapter Cases.putThing "things" Fixtures.noOptions
      Cases.thingsWorld
    = (Ok [("thing_id", VStr "t1"); ("user_id", VStr "u1");
           ("name", VStr "a")],
       logged
         (Select (mkQuery "things"
                    [("user_id", "=", VStr "u1");
                     ("thing_id", "=", VStr "t1")]))
         Cases.thingsWorld)) by reflexivity.
  split; [exact Hstored|]. split; [exact Hload|].
  destruct (loader_hands_the_record_on HonoApp.Context HonoApp.adapter
              Hstored "things" Fixtures.noOptions Cases.putThing
              Cases.thingsWorld _ _ Hload) as (_ & _ & Hchain).
  exact Hchain.
Defined.

(** X20.  A loader that finds no record stops the chain: it throws what
    [load] threw, [NotFoundError] or the error of the [where]
    function, and the rest of the chain is not run, whatever it is. *)
Theorem loader_stops_the_chain :
  forall (C : Type) (adapter : ContextAdapter C) (model : string)
         (loadOptions : CrudControllerLoadOptions C) (c : C) (w w1 : World)
         (e : exn),
    load adapter c model loadOptions w = (Err e, w1) ->
    (forall next, loader adapter model loadOptions c next w = (Err e, w1)) /\
    (e = ECrud notFound \/ whereListOf c (load_where loadOptions) = Err e).
Proof.
  intros C adapter model loadOptions c w w1 e Hload. split.
  - intros next. unfold loader, bind. now rewrite Hload.
  - apply (load_error adapter c model loadOptions w e). now rewrite Hload.
Qed.

Lemma loader_stops_the_chain_witness :
  load HonoApp.adapter Cases.putThing "things" Fixtures.noOptions
    (HonoApp.world [])
  = (Err (ECrud notFound),
     logged
       (Select (mkQuery "things"
                  [("user_id", "=", VStr "u1"); ("thing_id", "=", VStr "t1")]))
       (HonoApp.world [])) /\
  fst (loader HonoApp.adapter "things" Fixtures.noOptions Cases.putThing
         (show HonoApp.adapter "things" Fixtures.noOptions)
         (HonoApp.world [])) = Err (ECrud notFound).
Proof.
  assert (Hload :
    load HonoApp.adapter Cases.putThing "things" Fixtures.noOptions
      (HonoApp.world [])
    = (Err (ECrud notFound),
       logged
         (Select (mkQuery "things"
                    [("user_id", "=", VStr "u1");
                     ("thing_id", "=", VStr "t1")]))
         (HonoApp.world []))) by reflexivity.
  split; [exact Hload|].
  destruct (loader_stops_the_chain HonoApp.Context HonoApp.adapter "things"
              Fixtures.noOptions Cases.putThing (HonoApp.world []) _ _ Hload)
    as [Hstop _].
  now rewrite Hstop.
Defined.

(** ** Responses *)

Lemma mapR_fails {A B} (f : A -> result B) l a e :
  In a l -> f a = Err e -> exists e', mapR f l = Err e'.
Proof.
  induction l as [|x l IH]; simpl; intros Hin Hf; [contradiction|].
  destruct (f x) as [b|e0] eqn:Ex; [|eauto].
  destruct Hin as [->|Hin]; [congruence|].
  destruct (IH Hin Hf) as [e' He']. rewrite He'. eauto.
Qed.

(** X21.  [response] and [collectionResponse] send the store nothing
    of their own.  What the action throws they throw, without calling
    the adapter's response function; a record is answered as [{data}]
    of its shaped form with status 200 unless one is set; and if
    shaping throws for the record, or for any row of a collection, the
    whole response throws and no partial answer is given. *)
Theorem responses_shape_or_throw :
  forall (C : Type) (adapter : ContextAdapter C) (options : ResponseOptions)
         (c : C) (w : World),
    (forall dataFn,
        snd (response adapter dataFn options c w) = snd (dataFn c w)) /\
    (forall dataFn,
        snd (collectionResponse adapter dataFn options c w)
        = snd (dataFn c w)) /\
    (forall dataFn e w1,
        dataFn c w = (Err e, w1) ->
        response adapter dataFn options c w = (Err e, w1)) /\
    (forall dataFn e w1,
        dataFn c w = (Err e, w1) ->
        collectionResponse adapter dataFn options c w = (Err e, w1)) /\
    (forall dataFn row w1 shaped,
        dataFn c w = (Ok row, w1) ->
        shape options row = Ok shaped ->
        response adapter dataFn options c w =
        (Ok (adapter_response adapter c (VObj [("data", VObj shaped)])
               (match resp_statusCode options with
                | Some code => code
                | None => 200%Z
                end)), w1)) /\
    (forall dataFn row w1 e,
        dataFn c w = (Ok row, w1) ->
        shape options row = Err e ->
        response adapter dataFn options c w = (Err e, w1)) /\
    (forall dataFn collection w1 row e,
        dataFn c w = (Ok collection, w1) ->
        In row (data collection) ->
        shape options row = Err e ->
        exists e',
          collectionResponse adapter dataFn options c w = (Err e', w1)).
Proof.
  intros C adapter options c w.
  split; [|split; [|split; [|split; [|split; [|split]]]]].
  - intros dataFn. unfold response, bind, lift, ret.
    destruct (dataFn c w) as [[row|e] w1]; auto.
    destruct (shape options row); reflexivity.
  - intros dataFn. unfold collectionResponse, bind, lift, ret.
    destruct (dataFn c w) as [[collection|e] w1]; auto.
    destruct (mapR (shape options) (data collection)); reflexivity.
  - intros dataFn e w1 H. unfold response, bind. now rewrite H.
  - intros dataFn e w1 H. unfold collectionResponse, bind. now rewrite H.
  - intros dataFn row w1 shaped H Hs.
    unfold response, bind, lift, ret, statusOf. now rewrite H, Hs.
  - intros dataFn row w1 e H Hs.
    unfold response, bind, lift. now rewrite H, Hs.
  - intros dataFn collection w1 row e H Hin Hs.
    destruct (mapR_fails (shape options) (data collection) row e Hin Hs)
      as [e' He'].
    exists e'. unfold collectionResponse, bind, lift. now rewrite H, He'.
Qed.

Lemma responses_shape_or_throw_witness :
  response HonoApp.adapter Cases.failingAction Fixtures.omitName
    Fixtures.putAnn (HonoApp.world [])
  = (Err (ECrud forbidden), HonoApp.world []) /\
  response HonoApp.adapter Cases.shownUser Fixtures.omitName Fixtures.putAnn
    (HonoApp.world [])
  = (Ok (VObj [("status", VNum 200);
               ("json", VObj [("data", VObj [("user_id", VStr "u1")])])]),
     HonoApp.world []) /\
  exists e,
    collectionResponse HonoApp.adapter Fixtures.listed Cases.failingRender
      Fixtures.putAnn (HonoApp.world []) = (Err e, HonoApp.world []).
Proof.
  destruct (responses_shape_or_throw HonoApp.Context HonoApp.adapter
              Fixtures.omitName Fixtures.putAnn (HonoApp.world []))
    as (_ & _ & Hthrows & _ & Hshaped & _).
  destruct (responses_shape_or_throw HonoApp.Context HonoApp.adapter
              Cases.failingRender Fixtures.putAnn (HonoApp.world []))
    as (_ & _ & _ & _ & _ & _ & Hrows).
  split; [|split].
  - apply Hthrows. reflexivity.
  - apply (Hshaped Cases.shownUser Fixtures.u1 (HonoApp.world [])
             [("user_id", VStr "u1")]); reflexivity.
  - apply (Hrows Fixtures.listed
             (mkCollection Fixtures.twoRows (VObj [("total_count", VNum 0)]))
             (HonoApp.world [])
             [("id", VNum 1); ("name", VStr "a")]
             (EThrown (VStr "render"))).
    + reflexivity.
    + now left.
    + reflexivity.
Defined.

(** ** [applyWhere] *)

(** X22.  [applyWhere] keeps the table and the clauses the query has
    and adds the clauses of [where] after them, in list order; it
    fails only with what the [where] function throws; applying two
    lists in turn is applying their concatenation; and the rows the
    extended query matches are among those the query matched. *)
Theorem applyWhere_only_narrows :
  forall (C : Type) (c : C) (query : QueryBuilder),
    (forall where' query',
        applyWhere c where' query = Ok query' ->
        qb_table query' = qb_table query /\
        exists clauses,
          whereListOf c (Some where') = Ok clauses /\
          qb_where query' = qb_where query ++ clauses) /\
    (forall where' e,
        applyWhere c where' query = Err e ->
        whereListOf c (Some where') = Err e) /\
    (forall list1 list2 query1,
        applyWhere c (WhereStatic list1) query = Ok query1 ->
        applyWhere c (WhereStatic list2) query1
        = applyWhere c (WhereStatic (list1 ++ list2)) query) /\
    (forall where' query' w row,
        applyWhere c where' query = Ok query' ->
        In row (matching w query') -> In row (matching w query)).
Proof.
  intros C c query.
  assert (Heq : forall where',
             applyWhere c where' query =
             match whereListOf c (Some where') with
             | Ok clauses =>
                 Ok (mkQuery (qb_table query) (qb_where query ++ clauses))
             | Err e => Err e
             end).
  { intros where'. exact (whereOption_eq c (Some where') query). }
  split; [|split; [|split]].
  - intros where' query' H. rewrite Heq in H.
    destruct (whereListOf c (Some where')) as [clauses|e]; [|discriminate].
    inversion H; subst. simpl. eauto.
  - intros where' e H. rewrite Heq in H.
    destruct (whereListOf c (Some where')) as [clauses|e0]; [discriminate|].
    congruence.
  - intros list1 list2 query1 H. rewrite Heq in H. simpl in H.
    inversion H; subst.
    pose proof (whereOption_eq c (Some (WhereStatic list2))
                  (mkQuery (qb_table query) (qb_where query ++ list1)))
      as H2.
    simpl in H2. rewrite Heq. simpl.
    unfold whereOption in H2. rewrite H2. now rewrite <- app_assoc.
  - intros where' query' w row H. rewrite Heq in H.
    destruct (whereListOf c (Some where')) as [clauses|e]; [|discriminate].
    inversion H; subst. unfold matching, matches. simpl.
    rewrite !filter_In, forallb_app, andb_true_iff. tauto.
Qed.

Lemma applyWhere_only_narrows_witness :
  applyWhere Fixtures.nested (WhereStatic [("name", "=", VStr "a")])
    (from "things")
  = Ok (mkQuery "things" [("name", "=", VStr "a")]) /\
  In [("thing_id", VStr "t1"); ("user_id", VStr "u1"); ("name", VStr "a")]
    (matching Cases.thingsWorld (mkQuery "things" [("name", "=", VStr "a")]))
  /\
  In [("thing_id", VStr "t1"); ("user_id", VStr "u1"); ("name", VStr "a")]
    (matching Cases.thingsWorld (from "things")).
Proof.
  assert (Hrun :
    applyWhere Fixtures.nested (WhereStatic [("name", "=", VStr "a")])
      (from "things")
    = Ok (mkQuery "things" [("name", "=", VStr "a")])) by reflexivity.
  assert (Hin :
    In [("thing_id", VStr "t1"); ("user_id", VStr "u1"); ("name", VStr "a")]
      (matching Cases.thingsWorld
         (mkQuery "things" [("name", "=", VStr "a")])))
    by (left; reflexivity).
  split; [exact Hrun|]. split; [exact Hin|].
  destruct (applyWhere_only_narrows HonoApp.Context Fixtures.nested
              (from "things")) as (_ & _ & _ & Hnarrow).
  exact (Hnarrow _ _ Cases.thingsWorld _ Hrun Hin).
Defined.

(** ** More on scopes and statements *)



(** X24.  Once its [where] is obtained and its attributes are resolved,
    [update] sends the store exactly one statement, whether a row is
    then found or not: the update of the model's table by every route
    parameter and the clauses of [where], setting the resolved
    attributes. *)
Theorem update_sends_one_update :
  forall (C : Type) (models : CrudDefinition) (adapter : ContextAdapter C)
         (model : string) (updateOptions : CrudControllerUpdateOptions C)
         (c : C) (args : option AnyObject) (w w1 : World)
         (clauses : WhereList) (attributes : AnyObject),
    whereListOf c (update_where updateOptions) = Ok clauses ->
    createAttributesPickerFunction models model adapter
      (update_attributes updateOptions) c (adapter_getRequestBody adapter c)
      args w = (Ok attributes, w1) ->
    w_trace (snd (update models adapter model updateOptions c args w)) =
    w_trace w ++
    [Update
       (mkQuery model
          (map (fun entry => (fst entry, "=", snd entry))
             (adapter_getRequestParams adapter c) ++ clauses))
       attributes].
Proof.
  intros C models adapter model updateOptions c args w w1 clauses attributes
    Hwhere Hpick.
  destruct (attributesPicker_store _ _ _ _ _ _ _ _ _ _ _ Hpick)
    as (_ & _ & Htr & _).
  unfold update, bind, lift.
  rewrite (composed_query c _ model _ clauses Hwhere), Hpick.
  unfold executeUpdate. simpl.
  destruct (hd_error _); simpl; now rewrite Htr.
Qed.

Lemma update_sends_one_update_witness :
  whereListOf Cases.putThing (update_where Cases.thingsUpdate) = Ok [] /\
  createAttributesPickerFunction HonoApp.databaseSchema "things"
    HonoApp.adapter (update_attributes Cases.thingsUpdate) Cases.putThing
    (adapter_getRequestBody HonoApp.adapter Cases.putThing) None
    (HonoApp.world [])
  = (Ok [("name", VStr "hat")], HonoApp.world []) /\
  w_trace (snd (update HonoApp.databaseSchema HonoApp.adapter "things"
                  Cases.thingsUpdate Cases.putThing None (HonoApp.world [])))
  = [Update
       (mkQuery "things"
          [("user_id", "=", VStr "u1"); ("thing_id", "=", VStr "t1")])
       [("name", VStr "hat")]].
Proof.
  assert (Hpick :
    createAttributesPickerFunction HonoApp.databaseSchema "things"
      HonoApp.adapter (update_attributes Cases.thingsUpdate) Cases.putThing
      (adapter_getRequestBody HonoApp.adapter Cases.putThing) None
      (HonoApp.world [])
    = (Ok [("name", VStr "hat")], HonoApp.world [])) by reflexivity.
  split; [reflexivity|]. split; [exact Hpick|].
  exact (update_sends_one_update HonoApp.Context HonoApp.databaseSchema
           HonoApp.adapter "things" Cases.thingsUpdate Cases.putThing None
           (HonoApp.world []) (HonoApp.world []) [] [("name", VStr "hat")]
           eq_refl Hpick).
Defined.

Section LoaderThenDestroy.
Variable C : Type.
Variable adapter : ContextAdapter C.
(** The contextual store gives back what was put in it. *)
Hypothesis stored :
  forall c key v, adapter_get adapter (adapter_set adapter c key v) key = v.

(** X25.  In the context a loader hands on, a [destroy] whose [as] is
    the loader's does not load the record again: the one statement it
    sends is its delete. *)
Theorem destroy_after_loader_skips_the_load :
  forall (model : string) (loadOptions : CrudControllerLoadOptions C)
         (destroyOptions : CrudControllerDestroyOptions C) (c : C)
         (row : AnyObject) (w : World) (clauses : WhereList),
    destroy_as destroyOptions = load_as loadOptions ->
    whereListOf
      (adapter_set adapter c (singularize model loadOptions) (VObj row))
      (destroy_where destroyOptions) = Ok clauses ->
    w_trace
      (snd (destroy adapter model destroyOptions
              (adapter_set adapter c (singularize model loadOptions)
                 (VObj row)) w))
    = w_trace w ++
      [Delete
         (scopedQuery model
            (getScopes adapter
               (adapter_set adapter c (singularize model loadOptions)
                  (VObj row)) noLoadOptions)
            clauses)].
Proof.
  intros model loadOptions destroyOptions c row w clauses Has Hwhere.
  assert (Hkey : singularize model (destroyAsLoad destroyOptions)
                 = singularize model loadOptions).
  { unfold singularize. simpl. now rewrite Has. }
  unfold destroy, bind, lift. rewrite Hkey, stored. unfold ret.
  rewrite (composed_query _ _ model _ clauses Hwhere).
  unfold executeDelete. simpl.
  destruct (List.length _); reflexivity.
Qed.

End LoaderThenDestroy.

Lemma destroy_after_loader_skips_the_load_witness :
  (forall c key v,
      adapter_get HonoApp.adapter (adapter_set HonoApp.adapter c key v) key
      = v) /\
  w_trace
    (snd (destroy HonoApp.adapter "things" Fixtures.noDestroyOptions
            (adapter_set HonoApp.adapter Cases.putThing
               (singularize "things" Fixtures.noOptions)
               (VObj [("thing_id", VStr "t1")]))
            Cases.thingsWorld))
  = [Delete
       (mkQuery "things"
          [("user_id", "=", VStr "u1"); ("thing_id", "=", VStr "t1")])].
Proof.
  assert (Hstored : forall c key v,
             adapter_get HonoApp.adapter
               (adapter_set HonoApp.adapter c key v) key = v).
  { intros c key v. simpl. apply obj_get_set_same. }
  split; [exact Hstored|].
  exact (destroy_after_loader_skips_the_load HonoApp.Context HonoApp.adapter
           Hstored "things" Fixtures.noOptions Fixtures.noDestroyOptions
           Cases.putThing [("thing_id", VStr "t1")] Cases.thingsWorld []
           eq_refl eq_refl).
Defined.
